(** * benchviz: classification and aggregation of benchmark reports

    A shallow embedding of the Go packages [config], [model], [parser] and
    [organizer] of benchviz, and the properties of the classifier
    (pattern matching with file fallback), of report ingestion (plain text
    and [go test -json] events) and of the aggregator (categories, series,
    points) that the specification states about them.

    Go strings are [string]; slices are lists; a [map] used as an index is a
    [gmap], one that is ranged over is the list of its entries; a pointer
    that may be nil is an [option]; [float64] is the kernel's binary64
    [float]; [uint64] is [Z].  A function that may panic returns an
    [option]; one that returns an error returns a sum or a pair with an
    optional error, as the source does; what a function sends to its logger
    is returned beside its result. *)

From Stdlib Require Import ZArith String Ascii List Floats Lia.
From stdpp Require Import gmap strings list.

Local Open Scope string_scope.
Local Open Scope list_scope.

(* ===================================================================== *)
(** ** Go [error] values *)
(* ===================================================================== *)

(** An error is kept as what built it: a sentinel of a library, a message,
    or the format and the arguments of [fmt.Errorf] (an argument of the
    verb [%w] is the wrapped error). *)
Module errors.

Inductive error :=
  | ErrTooLong
  | New (msg : string)
  | Errorf (format : string) (args : list value)
with value :=
  | Str (s : string)
  | Int (n : nat)
  | Strs (l : list string)
  | Wrapped (err : error).

(** Sequencing of calls that return [(T, error)]: the first error
    returns. *)
Definition bind {A B : Type} (m : A + error) (k : A -> B + error) : B + error :=
  match m with
  | inl x => k x
  | inr err => inr err
  end.

End errors.

Notation "'let*' x ':=' m 'in' k" := (errors.bind m (fun x => k))
  (at level 10, x pattern, m at level 100, k at level 200).

(* ===================================================================== *)
(** ** Go's [regexp] package *)
(* ===================================================================== *)

(** A compiled [*regexp.Regexp] is kept as what [MatchString] computes on
    it: whether a string contains a match.  A nil pointer is [None]. *)
Module regexp.

Definition Regexp := string -> bool.

Definition MatchString (re : Regexp) (s : string) : bool := re s.

(** [contains s lit]: [lit] occurs in [s]. *)
Fixpoint contains (s lit : string) : bool :=
  String.prefix lit s ||
  match s with
  | EmptyString => false
  | String _ s' => contains s' lit
  end.

(** [hasSuffix s lit]: [s] ends with [lit]. *)
Fixpoint hasSuffix (s lit : string) : bool :=
  String.eqb s lit ||
  match s with
  | EmptyString => false
  | String _ s' => hasSuffix s' lit
  end.

(** The characters RE2 reads as operators. *)
Definition isMeta (c : ascii) : bool :=
  existsb (Ascii.eqb c)
    (list_ascii_of_string "\.+*?()|[]{}^$").

Fixpoint literal (s : string) : bool :=
  match s with
  | EmptyString => true
  | String c s' => negb (isMeta c) && literal s'
  end.

(** [stripDollar s]: [s] without a final [$], and whether it had one. *)
Fixpoint stripDollar (s : string) : string * bool :=
  match s with
  | EmptyString => (EmptyString, false)
  | String c EmptyString =>
      if Ascii.eqb c "$" then (EmptyString, true) else (s, false)
  | String c s' =>
      let '(body, d) := stripDollar s' in (String c body, d)
  end.

(** [Compile] on the anchored-literal fragment of RE2: an optional
    leading [^] (start of text), a body of ordinary characters, an
    optional trailing [$] (end of text).  Other patterns are outside the
    fragment ([None] is "not covered", not a compile error). *)
Definition CompileLiteral (pat : string) : option Regexp :=
  let '(bol, rest) :=
    match pat with
    | String c rest => if Ascii.eqb c "^" then (true, rest) else (false, pat)
    | EmptyString => (false, pat)
    end in
  let '(body, eol) := stripDollar rest in
  if literal body then
    Some (fun s =>
            match bol, eol with
            | true, true => String.eqb s body
            | true, false => String.prefix body s
            | false, true => hasSuffix s body
            | false, false => contains s body
            end)
  else None.

End regexp.

(* ===================================================================== *)
(** ** Package [config] *)
(* ===================================================================== *)

Module config.

Definition MetricName := string.

Definition MetricNsPerOp : MetricName := "nsPerOp".
Definition MetricAllocsPerOp : MetricName := "allocsPerOp".
Definition MetricBytesPerOp : MetricName := "bytesPerOp".
Definition MetricMBPerS : MetricName := "MBytesPerS".

(** [p == nil] for a pointer. *)
Definition isNil {A : Type} (p : option A) : bool :=
  match p with
  | None => true
  | Some _ => false
  end.

Module Metric.
Record t := mk { ID : MetricName; Title : string; Axis : string }.
Definition zero : t := mk "" "" "".
End Metric.

Module Object.
Record t := mk {
  ID : string;
  Title : string;
  Match : string;
  NotMatch : string;
  match_ : option regexp.Regexp;
  notMatch : option regexp.Regexp
}.
Definition zero : t := mk "" "" "" "" None None.

Definition Matchers (o : t) : option regexp.Regexp * option regexp.Regexp :=
  (match_ o, notMatch o).

(** [func (o Object) MatchString(name string) (id string, ok bool)] *)
Definition MatchString (o : t) (name : string) : string * bool :=
  let id := ID o in
  let '(matcher, notMatcher) := Matchers o in
  if isNil matcher && isNil notMatcher then ("", false)
  else
    let matchOk :=
      match matcher with
      | Some re => regexp.MatchString re name
      | None => false
      end in
    let notMatchOk :=
      match notMatcher with
      | Some re => regexp.MatchString re name
      | None => false
      end in
    if matchOk && negb notMatchOk then (id, true)
    else if isNil matcher && negb notMatchOk then (id, true)
    else ("", false).
End Object.

(** [Function], [Context] and [Version] each embed an [Object]; its
    methods are promoted. *)
Module Function.
Record t := mk { Object : Object.t }.
Definition zero : t := mk Object.zero.
Definition MatchString (f : t) := Object.MatchString (Object f).
End Function.

Module Context.
Record t := mk { Object : Object.t }.
Definition zero : t := mk Object.zero.
Definition MatchString (c : t) := Object.MatchString (Object c).
End Context.

Module Version.
Record t := mk { Object : Object.t }.
Definition zero : t := mk Object.zero.
Definition MatchString (v : t) := Object.MatchString (Object v).
End Version.

Module Includes.
Record t := mk {
  Functions : list string;
  Versions : list string;
  Contexts : list string;
  Metrics : list MetricName
}.
End Includes.

Module Category.
Record t := mk { ID : string; Title : string; Includes : Includes.t }.
End Category.

Module File.
Record t := mk {
  ID : string;
  MatchFile : string;
  Contexts : list Context.t;
  Versions : list Version.t;
  match_ : option regexp.Regexp
}.

(** [func (f File) MatchString(file string) (id string, ok bool)] *)
Definition MatchString (f : t) (file : string) : string * bool :=
  match match_ f with
  | None => ("", false)
  | Some re =>
      if negb (regexp.MatchString re file) then ("", false)
      else (ID f, true)
  end.
End File.

(** [type Output struct] *)
Module Output.
Record t := mk { HtmlFile : string; PngFile : string; IsTemp : bool }.
End Output.

Module Config.
(** The [Render] and [Outputs] fields only reach the renderer and are
    left out. *)
Record t := mk {
  Name : string;
  Environment : string;
  Metrics : list Metric.t;
  Functions : list Function.t;
  Contexts : list Context.t;
  Versions : list Version.t;
  Categories : list Category.t;
  Files : list File.t;
  functionIndex : gmap string Function.t;
  contextIndex : gmap string Context.t;
  versionIndex : gmap string Version.t;
  metricIndex : gmap MetricName Metric.t
}.

(** [func (c Config) GetFunction(id string) (Function, bool)], and the same
    for contexts, versions and metrics: a lookup in the index, the zero
    value when the key is absent. *)
Definition GetFunction (c : t) (id : string) : Function.t * bool :=
  match functionIndex c !! id with
  | Some v => (v, true)
  | None => (Function.zero, false)
  end.

Definition GetContext (c : t) (id : string) : Context.t * bool :=
  match contextIndex c !! id with
  | Some v => (v, true)
  | None => (Context.zero, false)
  end.

Definition GetVersion (c : t) (id : string) : Version.t * bool :=
  match versionIndex c !! id with
  | Some v => (v, true)
  | None => (Version.zero, false)
  end.

Definition GetMetric (c : t) (id : MetricName) : Metric.t * bool :=
  match metricIndex c !! id with
  | Some v => (v, true)
  | None => (Metric.zero, false)
  end.

(** The loop shared by the [Find...] methods: range over [defs], return
    at the first entry whose [MatchString] succeeds. *)
Fixpoint firstMatch {A : Type} (matchString : A -> string -> string * bool)
    (defs : list A) (name : string) : string * bool :=
  match defs with
  | [] => ("", false)
  | def :: defs' =>
      let '(id, ok) := matchString def name in
      if ok then (id, true) else firstMatch matchString defs' name
  end.

(** [func (c Config) FindFunction(name string) (id string, ok bool)] *)
Definition FindFunction (c : t) (name : string) : string * bool :=
  firstMatch Function.MatchString (Functions c) name.

(** [func (c Config) FindVersion(name string) (id string, ok bool)] *)
Definition FindVersion (c : t) (name : string) : string * bool :=
  firstMatch Version.MatchString (Versions c) name.

(** [func (c Config) FindContext(name string) (id string, ok bool)]: as in
    the source, the loop ranges over [c.Versions]. *)
Definition FindContext (c : t) (name : string) : string * bool :=
  firstMatch Version.MatchString (Versions c) name.

(** [func (c Config) FindVersionFromFile(file string) (id string, ok bool)]:
    the loop over the file rules, then the method. *)
Fixpoint FindVersionFromFile_loop (defs : list File.t) (file : string)
    : string * bool :=
  match defs with
  | [] => ("", false)
  | def :: defs' =>
      if negb (snd (File.MatchString def file))
      then FindVersionFromFile_loop defs' file
      else
        let '(id, ok) := firstMatch Version.MatchString (File.Versions def) file in
        if ok then (id, true) else FindVersionFromFile_loop defs' file
  end.

Definition FindVersionFromFile (c : t) (file : string) : string * bool :=
  FindVersionFromFile_loop (Files c) file.

(** [func (c Config) FindContextFromFile(file string) (id string, ok bool)] *)
Fixpoint FindContextFromFile_loop (defs : list File.t) (file : string)
    : string * bool :=
  match defs with
  | [] => ("", false)
  | def :: defs' =>
      if negb (snd (File.MatchString def file))
      then FindContextFromFile_loop defs' file
      else
        let '(id, ok) := firstMatch Context.MatchString (File.Contexts def) file in
        if ok then (id, true) else FindContextFromFile_loop defs' file
  end.

Definition FindContextFromFile (c : t) (file : string) : string * bool :=
  FindContextFromFile_loop (Files c) file.
End Config.

(** *** Loading *)

(** [func (m MetricName) IsValid() bool] *)
Definition IsValid (m : MetricName) : bool :=
  String.eqb m MetricNsPerOp || String.eqb m MetricAllocsPerOp
  || String.eqb m MetricBytesPerOp || String.eqb m MetricMBPerS.

(** [func AllMetricNames() []MetricName] *)
Definition AllMetricNames : list MetricName :=
  [MetricNsPerOp; MetricAllocsPerOp; MetricBytesPerOp; MetricMBPerS].

Section Loading.

(** What [load] calls outside the repository: reading and decoding the
    configuration document ([os.ReadFile], [yaml.Unmarshal],
    [mapstructure.Decode]), which fills the exported fields;
    [regexp.Compile]; and the title caser of [golang.org/x/text/cases]. *)
Variable decode : string -> Config.t + errors.error.
Variable regexp_Compile : string -> regexp.Regexp + errors.error.
Variable caser_String : string -> string.

Fixpoint strings_Map (mapping : ascii -> ascii) (s : string) : string :=
  match s with
  | EmptyString => EmptyString
  | String c s' => String (mapping c) (strings_Map mapping s')
  end.

(** [func titleize[T str](in T) string] *)
Definition titleize (in_ : string) : string :=
  caser_String
    (strings_Map (fun r => if Ascii.eqb r "_" || Ascii.eqb r "-" then " "%char else r)
       in_).

(** [func compileRex(o Object) (match, notMatch *regexp.Regexp, err error)] *)
Definition compileRex (o : Object.t)
    : option regexp.Regexp * option regexp.Regexp + errors.error :=
  let* match_ :=
    if negb (String.eqb (Object.Match o) "")
    then let* re := regexp_Compile (Object.Match o) in inl (Some re)
    else inl None in
  let* notMatch :=
    if negb (String.eqb (Object.NotMatch o) "")
    then let* re := regexp_Compile (Object.NotMatch o) in inl (Some re)
    else inl None in
  inl (match_, notMatch).

Definition withTitle (o : Object.t) (title : string) : Object.t :=
  Object.mk (Object.ID o) title (Object.Match o) (Object.NotMatch o)
    (Object.match_ o) (Object.notMatch o).

Definition withMatchers (o : Object.t) (ms : option regexp.Regexp * option regexp.Regexp)
    : Object.t :=
  Object.mk (Object.ID o) (Object.Title o) (Object.Match o) (Object.NotMatch o)
    (fst ms) (snd ms).

(** The loop that builds the index of a catalog of functions, contexts or
    versions (the three loops of [load] differ by the catalog and by the
    name in the messages): [i] is the position reached, [index] the index
    so far. *)
Fixpoint indexObjects {A : Type} (object : A -> Object.t) (update : A -> Object.t -> A)
    (emptyID duplicateID : string) (i : nat) (items : list A) (index : gmap string A)
    : gmap string A + errors.error :=
  match items with
  | [] => inl index
  | v :: items' =>
      let id := Object.ID (object v) in
      if String.eqb id "" then inr (errors.Errorf emptyID [errors.Int i])
      else if isNil (index !! id) then
        let v :=
          if String.eqb (Object.Title (object v)) ""
          then update v (withTitle (object v) (titleize id))
          else v in
        indexObjects object update emptyID duplicateID (S i) items' (<[id := v]> index)
      else inr (errors.Errorf duplicateID [errors.Str id])
  end.

(** The loop that builds the index of the metrics. *)
Fixpoint indexMetrics (i : nat) (items : list Metric.t) (index : gmap MetricName Metric.t)
    : gmap MetricName Metric.t + errors.error :=
  match items with
  | [] => inl index
  | v :: items' =>
      let id := Metric.ID v in
      if String.eqb id "" then
        inr (errors.Errorf "invalid metrics: empty ID found: metrics[%d]" [errors.Int i])
      else if negb (IsValid id) then
        inr (errors.Errorf
               "invalid metrics: invalid metric ID: metrics[%d]=%v (should be one of %v)"
               [errors.Int i; errors.Str id; errors.Strs AllMetricNames])
      else
        let v :=
          if String.eqb (Metric.Title v) ""
          then Metric.mk id (titleize id) (Metric.Axis v)
          else v in
        if isNil (index !! id) then indexMetrics (S i) items' (<[id := v]> index)
        else inr (errors.Errorf "invalid metrics: duplicate ID key found: %s"
                    [errors.Str id])
  end.

(** [for j, ref := range refs]: the first reference that the index does not
    hold is an error. *)
Fixpoint checkRefs {A : Type} (index : gmap string A) (notFound : string)
    (categoryID : string) (j : nat) (refs : list string) : unit + errors.error :=
  match refs with
  | [] => inl tt
  | ref :: refs' =>
      if isNil (index !! ref) then
        inr (errors.Errorf notFound [errors.Str categoryID; errors.Int j; errors.Str ref])
      else checkRefs index notFound categoryID (S j) refs'
  end.

Fixpoint checkMetricRefs (index : gmap MetricName Metric.t) (categoryID : string)
    (j : nat) (refs : list MetricName) : unit + errors.error :=
  match refs with
  | [] => inl tt
  | ref :: refs' =>
      if isNil (index !! ref) then
        inr (errors.Errorf
               "invalid category: metric ID not found categories.%s.includes.metrics[%d]=%s"
               [errors.Str categoryID; errors.Int j; errors.Str ref])
      else if (1 <? j)%nat then
        inr (errors.Errorf
               "invalid category: up to 2 metrics can be included in a category. category.%s.metrics"
               [errors.Str categoryID])
      else checkMetricRefs index categoryID (S j) refs'
  end.

(** The body of the loop that validates the categories.  The title and the
    include lists that the loop fills in when they are empty go to the
    loop's copy [v] of the category, not to [cfg.Categories]. *)
Definition validateCategory (functionIndex : gmap string Function.t)
    (contextIndex : gmap string Context.t) (versionIndex : gmap string Version.t)
    (metricIndex : gmap MetricName Metric.t) (i : nat) (v : Category.t)
    : unit + errors.error :=
  if String.eqb (Category.ID v) "" then
    inr (errors.Errorf "invalid categories: empty ID found: categories[%d]" [errors.Int i])
  else
    let includes := Category.Includes v in
    let* _ :=
      checkRefs functionIndex
        "invalid category: function ID not found categories.%s.includes.functions[%d]=%s"
        (Category.ID v) 0 (Includes.Functions includes) in
    let* _ :=
      checkRefs contextIndex
        "invalid category: context ID not found categories.%s.includes.contexts[%d]=%s"
        (Category.ID v) 0 (Includes.Contexts includes) in
    let* _ :=
      checkRefs versionIndex
        "invalid category: version ID not found categories.%s.includes.versions[%d]=%s"
        (Category.ID v) 0 (Includes.Versions includes) in
    let* _ := checkMetricRefs metricIndex (Category.ID v) 0 (Includes.Metrics includes) in
    if (length (Includes.Metrics includes) =? 0)%nat then
      inr (errors.Errorf
             "invalid category: at least 1 metric must be included in a category. category.%s.metrics"
             [errors.Str (Category.ID v)])
    else inl tt.

Fixpoint validateCategories (functionIndex : gmap string Function.t)
    (contextIndex : gmap string Context.t) (versionIndex : gmap string Version.t)
    (metricIndex : gmap MetricName Metric.t) (i : nat) (categories : list Category.t)
    : unit + errors.error :=
  match categories with
  | [] => inl tt
  | v :: categories' =>
      let* _ := validateCategory functionIndex contextIndex versionIndex metricIndex i v in
      validateCategories functionIndex contextIndex versionIndex metricIndex (S i)
        categories'
  end.

(** The loops that compile the patterns of a catalog and store each entry
    back with its matchers. *)
Fixpoint compileObjects {A : Type} (object : A -> Object.t) (update : A -> Object.t -> A)
    (wrap : nat -> string -> errors.error -> errors.error) (i : nat) (items : list A)
    : list A + errors.error :=
  match items with
  | [] => inl []
  | container :: items' =>
      match compileRex (object container) with
      | inr err => inr (wrap i (Object.ID (object container)) err)
      | inl ms =>
          let container := update container (withMatchers (object container) ms) in
          let* rest := compileObjects object update wrap (S i) items' in
          inl (container :: rest)
      end
  end.

(** The nested entries of a file rule: each must be in the catalog, and is
    compiled. *)
Fixpoint compileNested {A : Type} (object : A -> Object.t) (update : A -> Object.t -> A)
    (index : gmap string A) (notFound invalid : string) (i j : nat) (defs : list A)
    : list A + errors.error :=
  match defs with
  | [] => inl []
  | def :: defs' =>
      let id := Object.ID (object def) in
      if isNil (index !! id) then
        inr (errors.Errorf notFound [errors.Int i; errors.Int j; errors.Str id])
      else
        match compileRex (object def) with
        | inr err =>
            inr (errors.Errorf invalid
                   [errors.Int i; errors.Int j; errors.Str id; errors.Wrapped err])
        | inl ms =>
            let def := update def (withMatchers (object def) ms) in
            let* rest := compileNested object update index notFound invalid i (S j) defs' in
            inl (def :: rest)
        end
  end.

Fixpoint compileFiles (contextIndex : gmap string Context.t)
    (versionIndex : gmap string Version.t) (i : nat) (files : list File.t)
    : list File.t + errors.error :=
  match files with
  | [] => inl []
  | container :: files' =>
      if String.eqb (File.ID container) "" then
        inr (errors.Errorf "missing ID for file in files[%d]" [errors.Int i])
      else
        let* container :=
          if negb (String.eqb (File.MatchFile container) "") then
            let* match_ := regexp_Compile (File.MatchFile container) in
            let* contexts :=
              compileNested Context.Object (fun _ o => Context.mk o) contextIndex
                "invalid file: context ID not found files[%d].context[%d]=%s"
                "invalid regexp[files[%d].contexts[%d] - %s]: %w"
                i 0 (File.Contexts container) in
            let* versions :=
              compileNested Version.Object (fun _ o => Version.mk o) versionIndex
                "invalid file: version ID not found files[%d].versions[%d]=%s"
                "invalid regexp[files[%d].versions[%d] - %s]: %w"
                i 0 (File.Versions container) in
            inl (File.mk (File.ID container) (File.MatchFile container)
                   contexts versions (Some match_))
          else inl container in
        let* rest := compileFiles contextIndex versionIndex (S i) files' in
        inl (container :: rest)
  end.

(** [func load(fsys fs.FS, file string)], which returns the configuration
    or an error. *)
Definition load (file : string) : Config.t + errors.error :=
  let* cfg := decode file in
  let* functionIndex :=
    indexObjects Function.Object (fun _ o => Function.mk o)
      "invalid functions: empty ID found: functions[%d]"
      "invalid functions: duplicate ID key found: %s"
      0 (Config.Functions cfg) ∅ in
  let* contextIndex :=
    indexObjects Context.Object (fun _ o => Context.mk o)
      "invalid contexts: empty ID found: contexts[%d]"
      "invalid contexts: duplicate ID key found: %s"
      0 (Config.Contexts cfg) ∅ in
  let* versionIndex :=
    indexObjects Version.Object (fun _ o => Version.mk o)
      "invalid versions: empty ID found: versions[%d]"
      "invalid versions: duplicate ID key found: %s"
      0 (Config.Versions cfg) ∅ in
  let* metricIndex := indexMetrics 0 (Config.Metrics cfg) ∅ in
  let* _ :=
    validateCategories functionIndex contextIndex versionIndex metricIndex 0
      (Config.Categories cfg) in
  let* functions :=
    compileObjects Function.Object (fun _ o => Function.mk o)
      (fun i id err =>
         errors.Errorf "invalid regexp[function %d - %s]: %w"
           [errors.Int i; errors.Str id; errors.Wrapped err])
      0 (Config.Functions cfg) in
  let* contexts :=
    compileObjects Context.Object (fun _ o => Context.mk o)
      (fun i id err =>
         errors.Errorf "invalid regexp[context %d - %s]: %w"
           [errors.Int i; errors.Str id; errors.Wrapped err])
      0 (Config.Contexts cfg) in
  let* versions :=
    compileObjects Version.Object (fun _ o => Version.mk o)
      (fun i id err =>
         errors.Errorf "invalid regexp[version %d - %s]: %w"
           [errors.Int i; errors.Str id; errors.Wrapped err])
      0 (Config.Versions cfg) in
  let* files := compileFiles contextIndex versionIndex 0 (Config.Files cfg) in
  inl (Config.mk (Config.Name cfg) (Config.Environment cfg) (Config.Metrics cfg)
         functions contexts versions (Config.Categories cfg) files
         functionIndex contextIndex versionIndex metricIndex).

End Loading.

End config.


(* ===================================================================== *)
(** ** Package [model] *)
(* ===================================================================== *)

Module model.

Module MetricPoint.
Record t := mk { Name : string; Value : float }.
Definition zero : t := mk "" 0%float.
End MetricPoint.

Module MetricSeries.
Record t := mk { Title : string; Points : list MetricPoint.t }.
End MetricSeries.

Module SeriesKey.
Record t := mk {
  Function : string;
  Version : string;
  Context : string;
  Metric : config.MetricName
}.
Definition zero : t := mk "" "" "" "".
End SeriesKey.

Module CategoryData.
Record t := mk {
  Version : config.Version.t;
  Metric : config.Metric.t;
  Series : list MetricSeries.t
}.
Definition zero : t := mk config.Version.zero config.Metric.zero [].
End CategoryData.

Module Category.
Record t := mk {
  ID : string;
  Title : string;
  Environment : string;
  Data : list CategoryData.t
}.
Definition zero : t := mk "" "" "" [].

(** [func (c Category) Labels() []string] *)
Definition Labels (c : t) : list string :=
  flat_map (fun data =>
    flat_map (fun series => map MetricPoint.Name (MetricSeries.Points series))
             (CategoryData.Series data))
    (Data c).
End Category.

Module Scenario.
Record t := mk { Name : string; Categories : list Category.t }.
End Scenario.

End model.

(* ===================================================================== *)
(** ** Go libraries the packages use *)
(* ===================================================================== *)

(** [golang.org/x/tools/benchmark/parse]: the parsed measurements. *)
Module parse.

Module Benchmark.
Record t := mk {
  Name : string;
  N : Z;
  NsPerOp : float;
  AllocedBytesPerOp : Z;
  AllocsPerOp : Z;
  MBPerS : float;
  Measured : Z;
  Ord : Z
}.
End Benchmark.

(** [type Set map[string][]*Benchmark].  A [range] over a Go map visits the
    keys in an order the language leaves open; the value is kept as the
    association list of its entries in the order the loop visits them, and
    what is proved holds for every order. *)
Definition Set_ := list (string * list Benchmark.t).

End parse.

(** [float64(n)] for an [n] of type [uint64]: rounded to nearest even. *)
Definition float64_of_uint64 (n : Z) : float :=
  SF2Prim (binary_normalize prec emax n 0 false).

(** [log/slog]: what a logger was asked to record. *)
Module slog.
Inductive Level := LevelInfo | LevelWarn.
Record Record_ := mkRecord {
  level : Level;
  Message : string;
  Attrs : list (string * string)
}.
Definition String (key value : string) : string * string := (key, value).
(** A value passed without a key is recorded under [!BADKEY]. *)
Definition badKey (value : string) : string * string := ("!BADKEY", value).
Definition Warn (msg : string) (args : list (string * string)) : Record_ :=
  mkRecord LevelWarn msg args.
End slog.

(** [strings]: the functions the parser calls. *)
Module strings.

Definition HasPrefix (s prefix : string) : bool := String.prefix prefix s.

Definition TrimPrefix (s prefix : string) : string :=
  if HasPrefix s prefix then String.substring (String.length prefix)
                               (String.length s - String.length prefix) s
  else s.

Definition Join (elems : list string) (sep : string) : string :=
  String.concat sep elems.

(** [Split(s, sep)] for a separator of one byte. *)
Fixpoint SplitByte (s : string) (sep : ascii) : list string :=
  match s with
  | EmptyString => [EmptyString]
  | String c s' =>
      if Ascii.eqb c sep then EmptyString :: SplitByte s' sep
      else match SplitByte s' sep with
           | seg :: segs => String c seg :: segs
           | [] => [String c EmptyString]
           end
  end.

(** [func HasSuffix(s, suffix string) bool] *)
Definition HasSuffix (s suffix : string) : bool :=
  (String.length suffix <=? String.length s)%nat
  && String.eqb (String.substring (String.length s - String.length suffix)
                   (String.length suffix) s) suffix.

(** [func CutSuffix(s, suffix string) (before string, found bool)] *)
Definition CutSuffix (s suffix : string) : string * bool :=
  if negb (HasSuffix s suffix) then (s, false)
  else (String.substring 0 (String.length s - String.length suffix) s, true).

End strings.

(** [path.Ext]: the suffix of the path from the last dot of its last
    element, empty when that element has no dot. *)
Module path.

(** [for i := len(path) - 1; i >= 0 && path[i] != '/'; i--], where [n] is
    [i + 1]. *)
Fixpoint Ext_loop (path : string) (n : nat) : string :=
  match n with
  | O => ""
  | S i =>
      match String.get i path with
      | None => ""
      | Some c =>
          if Ascii.eqb c "/" then ""
          else if Ascii.eqb c "." then String.substring i (String.length path - i) path
          else Ext_loop path i
      end
  end.

(** [func Ext(path string) string] *)
Definition Ext (path : string) : string := Ext_loop path (String.length path).

End path.

(** [bufio.Scanner] with its defaults: the [ScanLines] split function and a
    buffer that grows up to [MaxScanTokenSize]. *)
Module bufio.

Definition MaxScanTokenSize : N := 65536.

Definition LF : ascii := "010"%char.
Definition CR : ascii := "013"%char.

(** [dropCR]: a line loses one final carriage return. *)
Fixpoint dropCR (s : string) : string :=
  match s with
  | EmptyString => EmptyString
  | String c EmptyString => if Ascii.eqb c CR then EmptyString else s
  | String c s' => String c (dropCR s')
  end.

(** A line that fills the buffer before its end is seen stops the scan
    with [ErrTooLong]. *)
Definition tooLong (seg : string) : bool :=
  (MaxScanTokenSize <=? N.of_nat (String.length seg))%N.

(** The tokens successive calls of [Scan] deliver over the newline-separated
    segments of the input, and the error [Err] reports once [Scan] has
    returned false.  The last segment is what follows the last newline: it
    is a token unless it is empty. *)
Fixpoint scanSegments (segs : list string) : list string * option errors.error :=
  match segs with
  | [] => ([], None)
  | [final] =>
      if tooLong final then ([], Some errors.ErrTooLong)
      else if String.eqb final "" then ([], None)
      else ([dropCR final], None)
  | seg :: segs' =>
      if tooLong seg then ([], Some errors.ErrTooLong)
      else let '(tokens, err) := scanSegments segs' in (dropCR seg :: tokens, err)
  end.

Definition ScanLines (input : string) : list string * option errors.error :=
  scanSegments (strings.SplitByte input LF).

End bufio.

(* ===================================================================== *)
(** ** Package [parser] *)
(* ===================================================================== *)

Module parser.

(** [type testEvent struct]: one event of [go test -json]. *)
Module testEvent.
Record t := mk {
  Time : string;
  Action : string;
  Package : string;
  Test : string;
  Output : string;
  Elapsed : float
}.
End testEvent.

(** [type Set struct { parse.Set; File, Environment string }] *)
Module Set_.
Record t := mk {
  Set_ : parse.Set_;
  File : string;
  Environment : string
}.
(** [Set{}] *)
Definition zero : t := mk [] "" "".
End Set_.

(** The library functions the parser calls, whose code is not part of the
    repository: [json.Unmarshal] into a fresh [testEvent] ([None] when it
    returns an error), [parse.ParseSet] over a reader of the given text, and
    [strings.TrimSpace]. *)
Class Lib := {
  json_Unmarshal : string -> option testEvent.t;
  parse_ParseSet : string -> parse.Set_ * option errors.error;
  strings_TrimSpace : string -> string
}.

Section WithLib.
Context `{Lib}.

(** [func extractEnvironment(text string) string] *)
Definition extractEnvironment (text : string) : string :=
  let lines := strings.SplitByte text bufio.LF in
  let parts :=
    fold_left (fun parts line =>
      let line := strings_TrimSpace line in
      if strings.HasPrefix line "goos: " then
        parts ++ [strings.TrimPrefix line "goos: "]
      else if strings.HasPrefix line "goarch: " then
        parts ++ [strings.TrimPrefix line "goarch: "]
      else if strings.HasPrefix line "cpu: " then
        let cpu := strings.TrimPrefix line "cpu: " in
        let cpu := strings_TrimSpace cpu in
        parts ++ ["cpu: " +:+ cpu]
      else parts) lines [] in
  if (length parts =? 0)%nat then "unknown environment"
  else strings.Join parts " ".

(** [func (p *BenchmarkParser) parseText(r io.Reader) (Set, error)], on a
    reader that delivers [content] without a read error. *)
Definition parseText (content : string) : Set_.t * option errors.error :=
  let environment := extractEnvironment content in
  let '(set, err) := parse_ParseSet content in
  match err with
  | Some err => (Set_.zero, Some err)
  | None => (Set_.mk set "" environment, None)
  end.

(** The body of the scanning loop of [parseJSON]: what one line adds to the
    collected text. *)
Definition parseJSON_line (textOutput : string) (line : string) : string :=
  if (String.length line =? 0)%nat then textOutput
  else
    match json_Unmarshal line with
    | None => textOutput
    | Some event =>
        if String.eqb (testEvent.Action event) "output"
           && negb (String.eqb (testEvent.Output event) "")
        then textOutput +:+ testEvent.Output event
        else textOutput
    end.

(** [func (p *BenchmarkParser) parseJSON(r io.Reader) (Set, error)], on a
    reader that delivers [input] without a read error. *)
Definition parseJSON (input : string) : Set_.t * option errors.error :=
  let '(lines, scanErr) := bufio.ScanLines input in
  let textOutput := fold_left parseJSON_line lines "" in
  match scanErr with
  | Some err => (Set_.zero, Some (errors.Errorf "scanning input: %w" [errors.Wrapped err]))
  | None =>
      let outputText := textOutput in
      let environment := extractEnvironment outputText in
      let '(set, err) := parse_ParseSet outputText in
      match err with
      | Some err =>
          (Set_.zero,
           Some (errors.Errorf "parsing benchmark output: %w" [errors.Wrapped err]))
      | None => (Set_.mk set "" environment, None)
      end
  end.

(** [type BenchmarkParser struct]: the option [isJSON] and the sets parsed
    so far (the configuration and the logger play no part in parsing). *)
Record BenchmarkParser := mkParser { isJSON : bool; sets : list Set_.t }.

(** [func (p *BenchmarkParser) ParseInput(r io.Reader) (Set, error)] *)
Definition ParseInput (p : BenchmarkParser) (input : string) : Set_.t * option errors.error :=
  if isJSON p then parseJSON input else parseText input.

(** [func (p *BenchmarkParser) ParseFiles(files ...string) error], over the
    files that [open] finds ([os.Open]: the content of the file, or the
    error) and the content of the standard input.  The parser after the
    call is returned beside the error. *)
Fixpoint ParseFiles (open : string -> string + errors.error) (stdin : string)
    (p : BenchmarkParser) (files : list string) : BenchmarkParser * option errors.error :=
  match files with
  | [] => (p, None)
  | file :: files' =>
      let reader :=
        if String.eqb file "-" then inl stdin else open file in
      match reader with
      | inr err =>
          (p, Some (errors.Errorf "input file %q: %w" [errors.Str file; errors.Wrapped err]))
      | inl input =>
          let '(set, err) := ParseInput p input in
          match err with
          | Some err => (p, Some err)
          | None =>
              let set := Set_.mk (Set_.Set_ set) file (Set_.Environment set) in
              ParseFiles open stdin (mkParser (isJSON p) (sets p ++ [set])) files'
          end
      end
  end.

(** [func (p *BenchmarkParser) Sets() []Set] *)
Definition Sets (p : BenchmarkParser) : list Set_.t := sets p.

End WithLib.

(** [type options struct { isJSON bool }], and [type Option], a function
    on a pointer to the options: an option updates the options. *)
Record options := mkOptions { options_isJSON : bool }.

Definition Option := options -> options.

(** [func WithParseJSON(enabled bool) Option] *)
Definition WithParseJSON (enabled : bool) : Option :=
  fun _ => mkOptions enabled.

(** [func optionsWithDefaults(opts []Option) options]: [var o options] is
    the zero value. *)
Definition optionsWithDefaults (opts : list Option) : options :=
  fold_left (fun o apply => apply o) opts (mkOptions false).

(** [func New(cfg *config.Config, opts ...Option) *BenchmarkParser] *)
Definition New (opts : list Option) : BenchmarkParser :=
  mkParser (options_isJSON (optionsWithDefaults opts)) [].

End parser.

(* ===================================================================== *)
(** ** Package [organizer] *)
(* ===================================================================== *)

Module organizer.

(** [for _, x := range l { body }] over a state [S], where the body may
    panic ([None]). *)
Fixpoint forRange {A S : Type} (l : list A) (body : S -> A -> option S) (s : S)
    : option S :=
  match l with
  | [] => Some s
  | x :: l' =>
      match body s x with
      | Some s' => forRange l' body s'
      | None => None
      end
  end.

(** [func defaultString(in, def string) string] *)
Definition defaultString (in_ def : string) : string :=
  if String.eqb in_ "" then def else in_.

(** [type ParsedBenchmark struct]: it embeds a [model.SeriesKey] and a
    [model.MetricPoint]. *)
Module ParsedBenchmark.
Record t := mk {
  SeriesKey : model.SeriesKey.t;
  MetricPoint : model.MetricPoint.t;
  Environment : string
}.
Definition zero : t := mk model.SeriesKey.zero model.MetricPoint.zero "".

(** The promoted fields. *)
Definition Function (b : t) := model.SeriesKey.Function (SeriesKey b).
Definition Version (b : t) := model.SeriesKey.Version (SeriesKey b).
Definition Context (b : t) := model.SeriesKey.Context (SeriesKey b).
Definition Metric (b : t) := model.SeriesKey.Metric (SeriesKey b).
Definition Name (b : t) := model.MetricPoint.Name (MetricPoint b).
Definition Value (b : t) := model.MetricPoint.Value (MetricPoint b).

(** [parsed.Metric = m; parsed.Name = n; parsed.Value = x] *)
Definition assign (parsed : t) (m : config.MetricName) (n : string) (x : float) : t :=
  let k := SeriesKey parsed in
  mk (model.SeriesKey.mk (model.SeriesKey.Function k) (model.SeriesKey.Version k)
                         (model.SeriesKey.Context k) m)
     (model.MetricPoint.mk n x)
     (Environment parsed).
End ParsedBenchmark.

(** [type BenchmarkSet struct { set []ParsedBenchmark }] *)
Module BenchmarkSet.
Record t := mk { set : list ParsedBenchmark.t }.

(** The test that makes the innermost loop of [SeriesFor] [continue]. *)
Definition skips (metric : config.MetricName) (version wantFunction wantContext : string)
    (bench : ParsedBenchmark.t) : bool :=
  negb (String.eqb (ParsedBenchmark.Metric bench) metric)
  || negb (String.eqb (ParsedBenchmark.Function bench) wantFunction)
  || negb (String.eqb (ParsedBenchmark.Version bench) version)
  || negb (String.eqb (ParsedBenchmark.Context bench) wantContext).

(** The point a record yields. *)
Definition point (bench : ParsedBenchmark.t) : model.MetricPoint.t :=
  model.MetricPoint.mk
    (ParsedBenchmark.Function bench +:+ " - " +:+ ParsedBenchmark.Version bench
       +:+ " - " +:+ ParsedBenchmark.Context bench)
    (ParsedBenchmark.Value bench).

(** The state of the loops of [SeriesFor]: [series] and [indexSeries]. *)
Definition state := (list model.MetricSeries.t * gmap string nat)%type.

(** What the innermost loop of [SeriesFor] does with a record it does not
    skip: find or create the series of the record's function, append the
    point.  [series[idx]] panics ([None]) when [idx] is out of range. *)
Definition SeriesFor_add (version : string) (st : state) (bench : ParsedBenchmark.t)
    : option state :=
  let '(series, indexSeries) := st in
  let '(idx, series, indexSeries) :=
    match indexSeries !! ParsedBenchmark.Function bench with
    | Some idx => (idx, series, indexSeries)
    | None =>
        let idx := length series in
        (idx,
         series ++ [model.MetricSeries.mk version []],
         <[ParsedBenchmark.Function bench := idx]> indexSeries)
    end in
  match series !! idx with
  | None => None
  | Some s =>
      let points := model.MetricSeries.Points s in
      let points := points ++ [point bench] in
      Some (<[idx := model.MetricSeries.mk (model.MetricSeries.Title s) points]> series,
            indexSeries)
  end.

(** The body of the innermost loop of [SeriesFor]. *)
Definition SeriesFor_body (metric : config.MetricName) (version : string)
    (wantFunction wantContext : string) (st : state) (bench : ParsedBenchmark.t)
    : option state :=
  if skips metric version wantFunction wantContext bench then Some st
  else SeriesFor_add version st bench.

(** [func (s BenchmarkSet) SeriesFor(metric config.MetricName, version string,
    filter config.Category) []model.MetricSeries] *)
Definition SeriesFor (s : t) (metric : config.MetricName) (version : string)
    (filter : config.Category.t) : option (list model.MetricSeries.t) :=
  let includes := config.Category.Includes filter in
  match
    forRange (config.Includes.Functions includes) (fun st wantFunction =>
      forRange (config.Includes.Contexts includes) (fun st wantContext =>
        forRange (set s) (SeriesFor_body metric version wantFunction wantContext) st)
        st)
      (([], ∅) : state)
  with
  | Some (series, _) => Some series
  | None => None
  end.
End BenchmarkSet.

(** [type Organizer struct]: the configuration; what is sent to the logger
    [l] is returned beside each result, in order. *)
Module Organizer.
Record t := mk { cfg : config.Config.t }.

(** [func (v *Organizer) parseBenchmarkName(name, file, env string)
    (ParsedBenchmark, bool)] *)
Definition parseBenchmarkName (v : t) (name file env : string)
    : (ParsedBenchmark.t * bool) * list slog.Record_ :=
  let '(function, ok) := config.Config.FindFunction (cfg v) name in
  if negb ok then
    ((ParsedBenchmark.zero, false),
     [slog.Warn "no function matched for %q" [slog.badKey name]])
  else
    let '(version, ok) := config.Config.FindVersion (cfg v) name in
    let version :=
      if negb ok then fst (config.Config.FindVersionFromFile (cfg v) file)
      else version in
    let '(context, _) := config.Config.FindContext (cfg v) name in
    let context :=
      if negb ok then fst (config.Config.FindContextFromFile (cfg v) file)
      else context in
    let log :=
      if String.eqb version "" && String.eqb context ""
      then [slog.Warn "no version, no context matched for %q" [slog.badKey name]]
      else [] in
    ((ParsedBenchmark.mk
        (model.SeriesKey.mk function version context "")
        model.MetricPoint.zero
        (defaultString (config.Config.Environment (cfg v)) env),
      true),
     log).

(** The state of the loops of [parseBenchmarks]: the slice [benchmarks] and
    the log. *)
Definition ingestion := (list ParsedBenchmark.t * list slog.Record_)%type.

(** One of the four [if metric, ok := v.cfg.GetMetric(...); ok] blocks. *)
Definition ingestMetric (v : t) (id : config.MetricName) (value : float)
    (st : ParsedBenchmark.t * list ParsedBenchmark.t * bool)
    : ParsedBenchmark.t * list ParsedBenchmark.t * bool :=
  let '(parsed, benchmarks, resolved) := st in
  let '(metric, ok) := config.Config.GetMetric (cfg v) id in
  if ok then
    let parsed := ParsedBenchmark.assign parsed (config.Metric.ID metric)
                    (config.Metric.Title metric) value in
    (parsed, benchmarks ++ [parsed], true)
  else st.

(** The body of the innermost loop of [parseBenchmarks]. *)
Definition parseBenchmarks_body (v : t) (file env : string) (st : ingestion)
    (bench : parse.Benchmark.t) : ingestion :=
  let '(benchmarks, log) := st in
  let '((parsed, ok), log1) :=
    parseBenchmarkName v (parse.Benchmark.Name bench) file env in
  let log := log ++ log1 in
  if negb ok then
    (benchmarks,
     log ++ [slog.Warn "benchmark not ingested"
               [slog.String "file" file;
                slog.String "benchmark_name" (parse.Benchmark.Name bench)]])
  else
    let st := (parsed, benchmarks, false) in
    let st := ingestMetric v config.MetricNsPerOp (parse.Benchmark.NsPerOp bench) st in
    let st := ingestMetric v config.MetricAllocsPerOp
                (float64_of_uint64 (parse.Benchmark.AllocsPerOp bench)) st in
    let st := ingestMetric v config.MetricBytesPerOp
                (float64_of_uint64 (parse.Benchmark.AllocedBytesPerOp bench)) st in
    let st := ingestMetric v config.MetricMBPerS (parse.Benchmark.MBPerS bench) st in
    let '(_, benchmarks, resolved) := st in
    if negb resolved then
      (benchmarks,
       log ++ [slog.Warn "no benchmark metric ingested"
                 [slog.String "file" file;
                  slog.String "benchmark_name" (parse.Benchmark.Name bench)]])
    else (benchmarks, log).

(** The three nested loops of [parseBenchmarks]. *)
Definition parseBenchmarks_loops (v : t) (sets : list parser.Set_.t) (st : ingestion)
    : ingestion :=
  fold_left (fun st set =>
    let file := parser.Set_.File set in
    let env := parser.Set_.Environment set in
    fold_left (fun st entry =>
      fold_left (parseBenchmarks_body v file env) (snd entry) st)
      (parser.Set_.Set_ set) st)
    sets st.

(** [func (v *Organizer) parseBenchmarks(sets []parser.Set) *BenchmarkSet] *)
Definition parseBenchmarks (v : t) (sets : list parser.Set_.t)
    : BenchmarkSet.t * list slog.Record_ :=
  let '(benchmarks, log) := parseBenchmarks_loops v sets ([], []) in
  let log :=
    if (length benchmarks =? 0)%nat
    then log ++ [slog.Warn "benchmark set is empty" []]
    else log in
  (BenchmarkSet.mk benchmarks, log).

(** The state of the two inner loops of [populateCategories]: [category]
    and the variable [data] declared outside them. *)
Definition filling := (model.Category.t * model.CategoryData.t)%type.

(** The body of the loop over the versions a category includes. *)
Definition populateCategories_version (v : t) (set : BenchmarkSet.t)
    (categoryConfig : config.Category.t) (metric : config.Metric.t)
    (st : filling) (versionID : string) : option filling :=
  let '(category, data) := st in
  let '(version, _) := config.Config.GetVersion (cfg v) versionID in
  match
    BenchmarkSet.SeriesFor set (config.Metric.ID metric)
      (config.Object.ID (config.Version.Object version)) categoryConfig
  with
  | None => None
  | Some series =>
      let data := model.CategoryData.mk version metric series in
      Some (model.Category.mk (model.Category.ID category)
              (model.Category.Title category)
              (model.Category.Environment category)
              (model.Category.Data category ++ [data]),
            data)
  end.

(** The body of the loop over the metrics a category includes. *)
Definition populateCategories_metric (v : t) (set : BenchmarkSet.t)
    (categoryConfig : config.Category.t) (st : filling) (metricID : config.MetricName)
    : option filling :=
  let '(metric, _) := config.Config.GetMetric (cfg v) metricID in
  forRange (config.Includes.Versions (config.Category.Includes categoryConfig))
    (populateCategories_version v set categoryConfig metric) st.

(** The body of the loop over the configured categories. *)
Definition populateCategories_category (v : t) (set : BenchmarkSet.t)
    (scenario : model.Scenario.t) (categoryConfig : config.Category.t)
    : option model.Scenario.t :=
  let category :=
    model.Category.mk (config.Category.ID categoryConfig)
      (config.Category.Title categoryConfig)
      (config.Config.Environment (cfg v))
      [] in
  let data := model.CategoryData.zero in
  match
    forRange (config.Includes.Metrics (config.Category.Includes categoryConfig))
      (populateCategories_metric v set categoryConfig) (category, data)
  with
  | None => None
  | Some (category, _) =>
      Some (model.Scenario.mk (model.Scenario.Name scenario)
              (model.Scenario.Categories scenario ++ [category]))
  end.

(** [func (v *Organizer) populateCategories(set *BenchmarkSet) *model.Scenario].
    [make([]model.Category, n)] is a slice of [n] zero values. *)
Definition populateCategories (v : t) (set : BenchmarkSet.t) : option model.Scenario.t :=
  let scenario :=
    model.Scenario.mk (config.Config.Name (cfg v))
      (replicate (length (config.Config.Categories (cfg v))) model.Category.zero) in
  forRange (config.Config.Categories (cfg v)) (populateCategories_category v set) scenario.

(** [func (v *Organizer) Scenarize(sets []parser.Set) *model.Scenario] *)
Definition Scenarize (v : t) (sets : list parser.Set_.t)
    : option model.Scenario.t * list slog.Record_ :=
  let '(newSet, log) := parseBenchmarks v sets in
  (populateCategories v newSet, log).

End Organizer.

End organizer.

(* ===================================================================== *)
(** ** Package [main] *)
(* ===================================================================== *)

Module main.

(** [type cliFlags struct]; what is sent to the logger [l] is returned
    beside the result. *)
Module cliFlags.
Record t := mk {
  Config : string;
  OutputFile : string;
  IsJSON : bool;
  Environment : string
}.
End cliFlags.

(** The flags as [main] registers them, before the command line is read. *)
Definition defaults : cliFlags.t := cliFlags.mk "config.yaml" "-" false "-".

(** [func inferHTMLFile(base string) string] *)
Definition inferHTMLFile (base : string) : string :=
  let ext := path.Ext base in
  let '(image, _) := strings.CutSuffix base ext in
  image +:+ ".html".

(** [func inferImageFile(base string) string] *)
Definition inferImageFile (base : string) : string :=
  let ext := path.Ext base in
  let '(image, _) := strings.CutSuffix base ext in
  image +:+ ".png".

(** What [setConfig] reads and writes of the configuration: the
    environment, the outputs, and the flag [IsJSON]. *)
Module Settings.
Record t := mk {
  Environment : string;
  Outputs : config.Output.t;
  IsJSON : bool
}.
End Settings.

Definition Info (msg : string) : slog.Record_ := slog.mkRecord slog.LevelInfo msg [].

(** [func setConfig(cfg *config.Config, c cliFlags) error], where
    [createTemp] is what [os.CreateTemp] returns: the name of the file it
    created, or its error.  The configuration after the call is returned
    beside the log and the error. *)
Definition setConfig (createTemp : string + errors.error) (cfg : Settings.t)
    (c : cliFlags.t) : Settings.t * list slog.Record_ * option errors.error :=
  let isJSON := cliFlags.IsJSON c in
  let environment :=
    if negb (String.eqb (cliFlags.Environment c) "") then cliFlags.Environment c
    else Settings.Environment cfg in
  let outputs := Settings.Outputs cfg in
  let outputs :=
    if negb (String.eqb (cliFlags.OutputFile c) "")
       && negb (String.eqb (cliFlags.OutputFile c) "-")
    then
      let htmlFile := inferHTMLFile (cliFlags.OutputFile c) in
      let pngFile :=
        if negb (String.eqb (config.Output.PngFile outputs) "")
        then inferImageFile htmlFile
        else config.Output.PngFile outputs in
      config.Output.mk htmlFile pngFile (config.Output.IsTemp outputs)
    else outputs in
  if String.eqb (config.Output.HtmlFile outputs) ""
     && String.eqb (config.Output.PngFile outputs) ""
  then
    (Settings.mk environment
       (config.Output.mk "-" (config.Output.PngFile outputs) (config.Output.IsTemp outputs))
       isJSON,
     [Info "output sent to standard output as HTML, no PNG image rendered"],
     None)
  else if String.eqb (config.Output.HtmlFile outputs) ""
          && negb (String.eqb (config.Output.PngFile outputs) "")
  then
    let log := [Info "HTML generated as a temporary file to produce PNG"] in
    match createTemp with
    | inr err => (Settings.mk environment outputs isJSON, log, Some err)
    | inl name =>
        (Settings.mk environment (config.Output.mk name (config.Output.PngFile outputs) true)
           isJSON,
         log, None)
    end
  else (Settings.mk environment outputs isJSON, [], None).

End main.


(* ===================================================================== *)
(** ** What the specification says, and worked configurations *)
(* ===================================================================== *)

Module spec.

(** Name-based context resolution as the specification words it: the scan
    ranges over the context catalog. *)
Definition FindContext (c : config.Config.t) (name : string) : string * bool :=
  config.Config.firstMatch config.Context.MatchString (config.Config.Contexts c) name.



(** What one measurement adds to the records and to the log. *)
Definition ingested (v : organizer.Organizer.t) (file env : string)
    (bench : parse.Benchmark.t) : organizer.Organizer.ingestion :=
  organizer.Organizer.parseBenchmarks_body v file env ([], []) bench.

(** The records and the log of every measurement of the sets, in the order
    the loops visit them. *)
Definition measurements (sets : list parser.Set_.t)
    : list (string * string * parse.Benchmark.t) :=
  flat_map (fun set =>
    flat_map (fun entry =>
      map (fun bench => (parser.Set_.File set, parser.Set_.Environment set, bench))
          (snd entry))
      (parser.Set_.Set_ set))
    sets.

(** The records, and the diagnostics, of a run of measurements. *)
Definition records (v : organizer.Organizer.t)
    (ms : list (string * string * parse.Benchmark.t)) : list organizer.ParsedBenchmark.t :=
  flat_map (fun m => fst (ingested v (fst (fst m)) (snd (fst m)) (snd m))) ms.

Definition diagnostics (v : organizer.Organizer.t)
    (ms : list (string * string * parse.Benchmark.t)) : list slog.Record_ :=
  flat_map (fun m => snd (ingested v (fst (fst m)) (snd (fst m)) (snd m))) ms.

(** The records of the set that the innermost loop of [SeriesFor] does not
    skip for a wanted function and a wanted context, in the order of the
    set. *)
Definition matching (s : organizer.BenchmarkSet.t) (metric : config.MetricName)
    (version wantFunction wantContext : string) : list organizer.ParsedBenchmark.t :=
  filter (fun bench =>
            organizer.BenchmarkSet.skips metric version wantFunction wantContext bench
            = false)
         (organizer.BenchmarkSet.set s).

(** The same for a wanted function, context after context of the include
    list. *)
Definition forFunction (s : organizer.BenchmarkSet.t) (metric : config.MetricName)
    (version : string) (filter_ : config.Category.t) (wantFunction : string)
    : list organizer.ParsedBenchmark.t :=
  flat_map (matching s metric version wantFunction)
    (config.Includes.Contexts (config.Category.Includes filter_)).

(** The records the loops of [SeriesFor] do not skip, in the order the
    loops reach them: by function of the include list, then by context of
    the include list, then in the order of the set. *)
Definition selected (s : organizer.BenchmarkSet.t) (metric : config.MetricName)
    (version : string) (filter_ : config.Category.t)
    : list organizer.ParsedBenchmark.t :=
  flat_map (forFunction s metric version filter_)
    (config.Includes.Functions (config.Category.Includes filter_)).

(** The distinct elements of a list, in the order of their first
    occurrence. *)
Fixpoint firsts (l : list string) : list string :=
  match l with
  | [] => []
  | x :: l' => x :: filter (fun y => y <> x) (firsts l')
  end.

(** The points of the records of one function, in the order of the
    records. *)
Definition pointsOf (function : string) (benchs : list organizer.ParsedBenchmark.t)
    : list model.MetricPoint.t :=
  map organizer.BenchmarkSet.point
      (filter (fun bench => organizer.ParsedBenchmark.Function bench = function) benchs).

(** One series per function that has a record, in the order in which the
    functions first occur among the records; each series is titled by the
    version and holds the points of its function. *)
Definition grouped (version : string) (benchs : list organizer.ParsedBenchmark.t)
    : list model.MetricSeries.t :=
  map (fun function => model.MetricSeries.mk version (pointsOf function benchs))
      (firsts (map organizer.ParsedBenchmark.Function benchs)).

(** The index of [SeriesFor] after the records [benchs]: it maps each
    function met so far to the position of its series. *)
Definition indexed (indexSeries : gmap string nat)
    (benchs : list organizer.ParsedBenchmark.t) : Prop :=
  forall function i,
    indexSeries !! function = Some i <->
    firsts (map organizer.ParsedBenchmark.Function benchs) !! i = Some function.

(** The data of a category as the specification words it: one
    [CategoryData] per included metric and included version, metric after
    metric and version after version, holding the series of that pair. *)
Definition dataOf (v : organizer.Organizer.t) (set : organizer.BenchmarkSet.t)
    (categoryConfig : config.Category.t) : list model.CategoryData.t :=
  let c := organizer.Organizer.cfg v in
  let includes := config.Category.Includes categoryConfig in
  flat_map (fun metricID =>
    let metric := fst (config.Config.GetMetric c metricID) in
    map (fun versionID =>
      let version := fst (config.Config.GetVersion c versionID) in
      model.CategoryData.mk version metric
        (grouped (config.Object.ID (config.Version.Object version))
           (selected set (config.Metric.ID metric)
              (config.Object.ID (config.Version.Object version)) categoryConfig)))
      (config.Includes.Versions includes))
    (config.Includes.Metrics includes).

(** The category of the scenario for a configured category. *)
Definition categoryOf (v : organizer.Organizer.t) (set : organizer.BenchmarkSet.t)
    (categoryConfig : config.Category.t) : model.Category.t :=
  model.Category.mk (config.Category.ID categoryConfig)
    (config.Category.Title categoryConfig)
    (config.Config.Environment (organizer.Organizer.cfg v))
    (dataOf v set categoryConfig).

(** The categories of the scenario as the specification words them: one
    per configured category, in configuration order. *)
Definition categoriesOf (v : organizer.Organizer.t) (set : organizer.BenchmarkSet.t)
    : list model.Category.t :=
  map (categoryOf v set) (config.Config.Categories (organizer.Organizer.cfg v)).

(** The metrics of the closed enumeration that the configuration
    declares, in the order [parseBenchmarks] asks for them. *)
Definition configured (v : organizer.Organizer.t) : list config.MetricName :=
  filter (fun id => snd (config.Config.GetMetric (organizer.Organizer.cfg v) id) = true)
    [config.MetricNsPerOp; config.MetricAllocsPerOp; config.MetricBytesPerOp;
     config.MetricMBPerS].

(** No category includes a version whose catalog entry has the empty
    identifier (loading rejects empty identifiers and references to
    entries that are not in the catalog). *)
Definition versionsNamed (c : config.Config.t) : Prop :=
  forall categoryConfig versionID,
    In categoryConfig (config.Config.Categories c) ->
    In versionID (config.Includes.Versions (config.Category.Includes categoryConfig)) ->
    config.Object.ID (config.Version.Object (fst (config.Config.GetVersion c versionID)))
    <> "".

End spec.

(** The specification of the two encodings of a report. *)
Module encoding.

(** The text an event line carries: the [Output] of an event whose [Action]
    is [output]; other events, and lines that do not decode, carry none. *)
Definition payload `{parser.Lib} (line : string) : string :=
  match parser.json_Unmarshal line with
  | Some event =>
      if String.eqb (parser.testEvent.Action event) "output"
      then parser.testEvent.Output event
      else ""
  | None => ""
  end.

(** The report text a sequence of event lines carries, in order. *)
Definition carried `{parser.Lib} (lines : list string) : string :=
  String.concat "" (map payload lines).

(** The event stream: each line followed by a line feed. *)
Definition stream (lines : list string) : string :=
  String.concat "" (map (fun line => line +:+ String bufio.LF "") lines).

Fixpoint hasByte (c : ascii) (s : string) : bool :=
  match s with
  | EmptyString => false
  | String c' s' => Ascii.eqb c' c || hasByte c s'
  end.

(** An event line as the scanner delivers it whole: not empty, without a
    line feed, not ending in a carriage return, shorter than the scanner's
    largest token. *)
Definition eventLine (line : string) : Prop :=
  line <> ""
  /\ hasByte bufio.LF line = false
  /\ bufio.dropCR line = line
  /\ bufio.tooLong line = false.

End encoding.

(** Worked configurations, each given as the document decodes and as
    [load] returns it. *)
Module example.

(** [regexp.Compile] on the patterns of the worked configurations, which
    are in the anchored-literal fragment. *)
Definition compile (pattern : string) : regexp.Regexp + errors.error :=
  match regexp.CompileLiteral pattern with
  | Some re => inl re
  | None => inr (errors.New "pattern outside the anchored-literal fragment")
  end.

(** A catalog entry with an inclusion pattern: as decoded, and with its
    matcher. *)
Definition decoded (id title pattern : string) : config.Object.t :=
  config.Object.mk id title pattern "" None None.

Definition compiled (id title pattern : string) : config.Object.t :=
  config.Object.mk id title pattern "" (regexp.CompileLiteral pattern) None.

Definition mNsPerOp := config.Metric.mk config.MetricNsPerOp "Timings" "ns/op".

Definition category : config.Category.t :=
  config.Category.mk "all" "All benchmarks"
    (config.Includes.mk ["equal"] ["generic"] ["int"] [config.MetricNsPerOp]).

(** One function [equal], one version [generic], the contexts [int] and
    [small], the ns-per-op metric, one category, and a file rule for the
    reports named [baseline...] whose nested context entry [small] matches
    the same paths. *)
Definition document : config.Config.t :=
  config.Config.mk "example" "" [mNsPerOp]
    [config.Function.mk (decoded "equal" "Equal" "^BenchmarkEqual")]
    [config.Context.mk (decoded "int" "Int" "/int-");
     config.Context.mk (decoded "small" "Small" "baseline")]
    [config.Version.mk (decoded "generic" "Generic" "_generic")]
    [category]
    [config.File.mk "baseline" "^baseline"
       [config.Context.mk (decoded "small" "Small" "baseline")] [] None]
    ∅ ∅ ∅ ∅.

(** The entry of the version index: [load] indexes the entries before it
    compiles their patterns. *)
Definition vGeneric := config.Version.mk (decoded "generic" "Generic" "_generic").

Definition cfg : config.Config.t :=
  config.Config.mk "example" "" [mNsPerOp]
    [config.Function.mk (compiled "equal" "Equal" "^BenchmarkEqual")]
    [config.Context.mk (compiled "int" "Int" "/int-");
     config.Context.mk (compiled "small" "Small" "baseline")]
    [config.Version.mk (compiled "generic" "Generic" "_generic")]
    [category]
    [config.File.mk "baseline" "^baseline"
       [config.Context.mk (compiled "small" "Small" "baseline")] []
       (regexp.CompileLiteral "^baseline")]
    {["equal" := config.Function.mk (decoded "equal" "Equal" "^BenchmarkEqual")]}
    {["int" := config.Context.mk (decoded "int" "Int" "/int-");
      "small" := config.Context.mk (decoded "small" "Small" "baseline")]}
    {["generic" := vGeneric]}
    {[config.MetricNsPerOp := mNsPerOp]}.

Definition organizer_ : organizer.Organizer.t := organizer.Organizer.mk cfg.

(** Stand-ins for the library functions of the parser, for the worked
    reports below, on which they agree with the Go libraries: a decoder of
    events that are an object of the two fields Action and Output, in this
    order, each a quoted string with its escapes; a benchmark parser for
    reports without a result line (it finds no measurement); and
    [TrimSpace] for ASCII text. *)
Definition quote : ascii := "034"%char.
Definition backslash : ascii := "092"%char.

(** The text of a quoted string whose opening quote has been read, and
    what follows its closing quote. *)
Fixpoint readQuoted (s : string) : option (string * string) :=
  match s with
  | EmptyString => None
  | String c s' =>
      if Ascii.eqb c quote then Some (EmptyString, s')
      else if Ascii.eqb c backslash then
        match s' with
        | EmptyString => None
        | String e s'' =>
            match readQuoted s'' with
            | Some (body, rest) =>
                Some (String (if Ascii.eqb e "n" then bufio.LF else e) body, rest)
            | None => None
            end
        end
      else
        match readQuoted s' with
        | Some (body, rest) => Some (String c body, rest)
        | None => None
        end
  end.

Definition expect (lit s : string) : option string :=
  if String.prefix lit s
  then Some (String.substring (String.length lit) (String.length s - String.length lit) s)
  else None.

Definition actionKey : string :=
  "{" +:+ String quote "Action" +:+ String quote ":" +:+ String quote "".
Definition outputKey : string :=
  "," +:+ String quote "Output" +:+ String quote ":" +:+ String quote "".

Definition unmarshal (line : string) : option parser.testEvent.t :=
  match expect actionKey line with
  | None => None
  | Some s =>
      match readQuoted s with
      | None => None
      | Some (action, s) =>
          match expect outputKey s with
          | None => None
          | Some s =>
              match readQuoted s with
              | None => None
              | Some (output, s) =>
                  if String.eqb s "}"
                  then Some (parser.testEvent.mk "" action "" "" output 0%float)
                  else None
              end
          end
      end
  end.

(** The event line of an action and a text without quote or backslash;
    [\n] stands for a line feed. *)
Definition event (action escaped : string) : string :=
  actionKey +:+ action +:+ String quote outputKey +:+ escaped +:+ String quote "}".

Definition isSpace (c : ascii) : bool :=
  existsb (Ascii.eqb c)
    ["009"%char; "010"%char; "011"%char; "012"%char; "013"%char; " "%char].

Fixpoint trimLeft (s : string) : string :=
  match s with
  | String c s' => if isSpace c then trimLeft s' else s
  | EmptyString => EmptyString
  end.

Fixpoint trimRight (s : string) : string :=
  match s with
  | EmptyString => EmptyString
  | String c s' =>
      match trimRight s' with
      | EmptyString => if isSpace c then EmptyString else String c EmptyString
      | t => String c t
      end
  end.

Definition lib : parser.Lib :=
  {| parser.json_Unmarshal := unmarshal;
     parser.parse_ParseSet := fun _ => ([], None);
     parser.strings_TrimSpace := fun s => trimRight (trimLeft s) |}.

(** A report of three lines in three output events, between two events of
    other actions. *)
Definition reportLines : list string :=
  [event "start" "";
   event "output" "goos: linux\n";
   event "output" "goarch: amd64\n";
   event "output" "cpu: Intel\n";
   event "pass" ""].

Fixpoint repeatByte (n : nat) (c : ascii) : string :=
  match n with
  | O => EmptyString
  | S n' => String c (repeatByte n' c)
  end.

(** A report of one line of 65530 bytes: the line is within the scanner's
    largest token, the event that carries it is not. *)
Definition longText : string :=
  repeatByte (N.to_nat 65530) "a" +:+ String bufio.LF "".
Definition longLine : string :=
  event "output" (repeatByte (N.to_nat 65530) "a" +:+ String backslash "n").

(** A measurement of a function the catalog does not know, and one of a
    known function whose name and file resolve neither version nor
    context. *)
Definition benchUnknown : parse.Benchmark.t :=
  parse.Benchmark.mk "BenchmarkContains/int-8" 1000 0x1.8p+1%float 0 0 0%float 1 0.
Definition benchUnversioned : parse.Benchmark.t :=
  parse.Benchmark.mk "BenchmarkEqual/float-8" 1000 0x1.8p+1%float 0 0 0%float 1 0.

End example.

(** The worked scenario of the specification: function [equal] with pattern
    [^BenchmarkEqual], version [generic] with pattern [_generic$], context
    [int] with pattern [/int-], the ns-per-op metric, one category that
    includes all three and that metric; one measurement named
    [BenchmarkEqual_generic/int-8] with a given ns/op value. *)
Module scenarioA.

Definition mNsPerOp := config.Metric.mk config.MetricNsPerOp "Timings" "ns/op".

Definition category : config.Category.t :=
  config.Category.mk "all" "All benchmarks"
    (config.Includes.mk ["equal"] ["generic"] ["int"] [config.MetricNsPerOp]).

Definition document : config.Config.t :=
  config.Config.mk "A" "" [mNsPerOp]
    [config.Function.mk (example.decoded "equal" "Equal" "^BenchmarkEqual")]
    [config.Context.mk (example.decoded "int" "Int" "/int-")]
    [config.Version.mk (example.decoded "generic" "Generic" "_generic$")]
    [category] [] ∅ ∅ ∅ ∅.

Definition vGeneric := config.Version.mk (example.decoded "generic" "Generic" "_generic$").

Definition cfg : config.Config.t :=
  config.Config.mk "A" "" [mNsPerOp]
    [config.Function.mk (example.compiled "equal" "Equal" "^BenchmarkEqual")]
    [config.Context.mk (example.compiled "int" "Int" "/int-")]
    [config.Version.mk (example.compiled "generic" "Generic" "_generic$")]
    [category] []
    {["equal" := config.Function.mk (example.decoded "equal" "Equal" "^BenchmarkEqual")]}
    {["int" := config.Context.mk (example.decoded "int" "Int" "/int-")]}
    {["generic" := vGeneric]}
    {[config.MetricNsPerOp := mNsPerOp]}.

Definition organizer_ : organizer.Organizer.t := organizer.Organizer.mk cfg.

Definition name : string := "BenchmarkEqual_generic/int-8".

(** The binary64 value nearest to 12.3. *)
Definition value : float := 0x1.899999999999ap+3%float.

Definition bench (nsPerOp : float) : parse.Benchmark.t :=
  parse.Benchmark.mk name 1000 nsPerOp 0 0 0%float 1 0.

Definition sets (nsPerOp : float) : list parser.Set_.t :=
  [parser.Set_.mk [(name, [bench nsPerOp])] "bench.txt" "linux amd64"].

(** A record classified as the scenario expects. *)
Definition classified (nsPerOp : float) : organizer.ParsedBenchmark.t :=
  organizer.ParsedBenchmark.mk
    (model.SeriesKey.mk "equal" "generic" "int" config.MetricNsPerOp)
    (model.MetricPoint.mk "Timings" nsPerOp)
    "linux amd64".

End scenarioA.

(* ===================================================================== *)
(** ** Further specifications *)
(* ===================================================================== *)

Module catalog.

(** The identifiers of a catalog of functions, contexts or versions. *)
Definition ids {A : Type} (object : A -> config.Object.t) (items : list A) : list string :=
  map (fun item => config.Object.ID (object item)) items.

(** An index over a catalog: no identifier is empty, none occurs twice, the
    index holds exactly the identifiers of the catalog, each with an entry
    that bears it. *)
Definition indexes {A : Type} (object : A -> config.Object.t) (index : gmap string A)
    (items : list A) : Prop :=
  ~ In "" (ids object items)
  /\ NoDup (ids object items)
  /\ (forall id, is_Some (index !! id) <-> In id (ids object items))
  /\ (forall id v, index !! id = Some v -> config.Object.ID (object v) = id).

End catalog.

Module loaded.

(** A matcher agrees with its pattern: none for the empty pattern, else the
    expression that [compile] returns for the pattern. *)
Definition agrees (compile : string -> regexp.Regexp + errors.error) (pattern : string)
    (matcher : option regexp.Regexp) : Prop :=
  if String.eqb pattern "" then matcher = None
  else exists re, compile pattern = inl re /\ matcher = Some re.

(** A catalog entry whose two matchers agree with its two patterns. *)
Definition compiled (compile : string -> regexp.Regexp + errors.error)
    (o : config.Object.t) : Prop :=
  agrees compile (config.Object.Match o) (config.Object.match_ o)
  /\ agrees compile (config.Object.NotMatch o) (config.Object.notMatch o).

(** What [load] keeps of a decoded entry: all but the matchers. *)
Definition keeps (decoded o : config.Object.t) : Prop :=
  config.Object.ID o = config.Object.ID decoded
  /\ config.Object.Title o = config.Object.Title decoded
  /\ config.Object.Match o = config.Object.Match decoded
  /\ config.Object.NotMatch o = config.Object.NotMatch decoded.

(** A category that passes the validation of [load]: it has an identifier,
    one or two metrics, and every entry it includes is in the index of its
    catalog. *)
Definition validCategory (c : config.Config.t) (v : config.Category.t) : Prop :=
  let includes := config.Category.Includes v in
  config.Category.ID v <> ""
  /\ (1 <= length (config.Includes.Metrics includes) <= 2)%nat
  /\ (forall id, In id (config.Includes.Functions includes) ->
        snd (config.Config.GetFunction c id) = true)
  /\ (forall id, In id (config.Includes.Contexts includes) ->
        snd (config.Config.GetContext c id) = true)
  /\ (forall id, In id (config.Includes.Versions includes) ->
        snd (config.Config.GetVersion c id) = true)
  /\ (forall id, In id (config.Includes.Metrics includes) ->
        snd (config.Config.GetMetric c id) = true).

(** The entry that [load] puts in the index for a decoded entry: the
    entry itself, with the title derived from the identifier when the
    document gives none. *)
Definition titled {A : Type} (caser : string -> string) (object : A -> config.Object.t)
    (update : A -> config.Object.t -> A) (a : A) : A :=
  if String.eqb (config.Object.Title (object a)) ""
  then update a (config.withTitle (object a)
                   (config.titleize caser (config.Object.ID (object a))))
  else a.

Definition titledMetric (caser : string -> string) (m : config.Metric.t)
    : config.Metric.t :=
  if String.eqb (config.Metric.Title m) ""
  then config.Metric.mk (config.Metric.ID m)
         (config.titleize caser (config.Metric.ID m)) (config.Metric.Axis m)
  else m.

(** A file rule that passes [load]: it has an identifier, and when it has
    a pattern, it has the matcher of the pattern, and each context and
    version nested in it is compiled and bears an identifier of the
    catalog. *)
Definition validFile (compile : string -> regexp.Regexp + errors.error)
    (c : config.Config.t) (f : config.File.t) : Prop :=
  config.File.ID f <> ""
  /\ (config.File.MatchFile f <> "" ->
      (exists re, compile (config.File.MatchFile f) = inl re
                  /\ config.File.match_ f = Some re)
      /\ Forall (fun def =>
                   compiled compile (config.Context.Object def)
                   /\ snd (config.Config.GetContext c
                             (config.Object.ID (config.Context.Object def))) = true)
           (config.File.Contexts f)
      /\ Forall (fun def =>
                   compiled compile (config.Version.Object def)
                   /\ snd (config.Config.GetVersion c
                             (config.Object.ID (config.Version.Object def))) = true)
           (config.File.Versions f)).

End loaded.

(** A document that declares the function [equal] twice. *)
Module twice.

Definition equal : config.Function.t :=
  config.Function.mk (example.decoded "equal" "Equal" "^BenchmarkEqual").

Definition document : config.Config.t :=
  config.Config.mk "twice" "" [example.mNsPerOp] [equal; equal] [] [] [] [] ∅ ∅ ∅ ∅.

End twice.

Module measured.

(** The value of a measurement for a metric of the closed enumeration: the
    field [parseBenchmarks] reads for it, the two counters converted to
    [float64]. *)
Definition value (id : config.MetricName) (bench : parse.Benchmark.t) : float :=
  if String.eqb id config.MetricNsPerOp then parse.Benchmark.NsPerOp bench
  else if String.eqb id config.MetricAllocsPerOp
       then float64_of_uint64 (parse.Benchmark.AllocsPerOp bench)
  else if String.eqb id config.MetricBytesPerOp
       then float64_of_uint64 (parse.Benchmark.AllocedBytesPerOp bench)
  else parse.Benchmark.MBPerS bench.

(** The record of a classified measurement for a configured metric: the
    series key that [parseBenchmarkName] returned, with the identifier and
    the title of the metric's index entry and the value of the metric. *)
Definition record (v : organizer.Organizer.t) (parsed : organizer.ParsedBenchmark.t)
    (bench : parse.Benchmark.t) (id : config.MetricName) : organizer.ParsedBenchmark.t :=
  let metric := fst (config.Config.GetMetric (organizer.Organizer.cfg v) id) in
  organizer.ParsedBenchmark.assign parsed (config.Metric.ID metric)
    (config.Metric.Title metric) (value id bench).

(** A record without its environment. *)
Definition anonymous (pb : organizer.ParsedBenchmark.t) : organizer.ParsedBenchmark.t :=
  organizer.ParsedBenchmark.mk (organizer.ParsedBenchmark.SeriesKey pb)
    (organizer.ParsedBenchmark.MetricPoint pb) "".

(** Two lists of sets that differ at most by the environments. *)
Definition sameReports (sets sets' : list parser.Set_.t) : Prop :=
  Forall2 (fun set set' =>
             parser.Set_.Set_ set = parser.Set_.Set_ set'
             /\ parser.Set_.File set = parser.Set_.File set') sets sets'.

End measured.

(** The report of the worked scenario, read on another platform. *)
Module scenarioB.

Definition sets (nsPerOp : float) : list parser.Set_.t :=
  [parser.Set_.mk [(scenarioA.name, [scenarioA.bench nsPerOp])] "bench.txt" "darwin arm64"].

End scenarioB.

Module visited.

(** Two lists of sets that differ at most by the order in which the loop
    over each set visits its entries: a set is a Go map, and the order of a
    [range] over a map is left open. *)
Definition reordered (sets sets' : list parser.Set_.t) : Prop :=
  Forall2 (fun set set' =>
             parser.Set_.Set_ set ≡ₚ parser.Set_.Set_ set'
             /\ parser.Set_.File set = parser.Set_.File set'
             /\ parser.Set_.Environment set = parser.Set_.Environment set')
    sets sets'.

(** The worked report with a second measurement, in the two orders. *)
Definition other : parse.Benchmark.t :=
  parse.Benchmark.mk "BenchmarkEqual/int-8" 1000 0x1.8p+1%float 0 0 0%float 1 0.

Definition sets : list parser.Set_.t :=
  [parser.Set_.mk
     [(scenarioA.name, [scenarioA.bench scenarioA.value]);
      ("BenchmarkEqual/int-8", [other])]
     "bench.txt" "linux amd64"].

Definition sets' : list parser.Set_.t :=
  [parser.Set_.mk
     [("BenchmarkEqual/int-8", [other]);
      (scenarioA.name, [scenarioA.bench scenarioA.value])]
     "bench.txt" "linux amd64"].

End visited.

(** A configuration whose file rule classifies the reports named
    [baseline...]: the version [v1] and the context [int] have name patterns
    that the measurement [BenchmarkEqual/int-8] does not satisfy, and are
    nested in the file rule with patterns on the path. *)
Module scenarioC.

Definition category : config.Category.t :=
  config.Category.mk "all" "All benchmarks"
    (config.Includes.mk ["equal"] ["v1"] ["int"] [config.MetricNsPerOp]).

Definition document : config.Config.t :=
  config.Config.mk "C" "" [example.mNsPerOp]
    [config.Function.mk (example.decoded "equal" "Equal" "^BenchmarkEqual")]
    [config.Context.mk (example.decoded "int" "Int" "/integer-")]
    [config.Version.mk (example.decoded "v1" "Version 1" "_v1")]
    [category]
    [config.File.mk "baseline" "^baseline"
       [config.Context.mk (example.decoded "int" "Int" "baseline")]
       [config.Version.mk (example.decoded "v1" "Version 1" "baseline")] None]
    ∅ ∅ ∅ ∅.

Definition cfg : config.Config.t :=
  config.Config.mk "C" "" [example.mNsPerOp]
    [config.Function.mk (example.compiled "equal" "Equal" "^BenchmarkEqual")]
    [config.Context.mk (example.compiled "int" "Int" "/integer-")]
    [config.Version.mk (example.compiled "v1" "Version 1" "_v1")]
    [category]
    [config.File.mk "baseline" "^baseline"
       [config.Context.mk (example.compiled "int" "Int" "baseline")]
       [config.Version.mk (example.compiled "v1" "Version 1" "baseline")]
       (regexp.CompileLiteral "^baseline")]
    {["equal" := config.Function.mk (example.decoded "equal" "Equal" "^BenchmarkEqual")]}
    {["int" := config.Context.mk (example.decoded "int" "Int" "/integer-")]}
    {["v1" := config.Version.mk (example.decoded "v1" "Version 1" "_v1")]}
    {[config.MetricNsPerOp := example.mNsPerOp]}.

Definition organizer_ : organizer.Organizer.t := organizer.Organizer.mk cfg.

Definition sets : list parser.Set_.t :=
  [parser.Set_.mk [("BenchmarkEqual/int-8", [visited.other])] "baseline.txt" "linux amd64"].

(** The category of the scenario. *)
Definition filled : model.Category.t :=
  model.Category.mk "all" "All benchmarks" ""
    [model.CategoryData.mk
       (config.Version.mk (example.decoded "v1" "Version 1" "_v1")) example.mNsPerOp
       [model.MetricSeries.mk "v1"
          [model.MetricPoint.mk "equal - v1 - int" 0x1.8p+1%float]]].

End scenarioC.

Module ending.

(** A line with a carriage return before its line feed. *)
Definition withCR (line : string) : string := line +:+ String bufio.CR "".

End ending.

Module reading.

Section WithLib.
Context `{parser.Lib}.

(** The reader [ParseFiles] parses for a file name: the standard input for
    [-], else what [os.Open] returns. *)
Definition reader (open : string -> string + errors.error) (stdin : string)
    (file : string) : string + errors.error :=
  if String.eqb file "-" then inl stdin else open file.



End WithLib.

(** A directory that holds the one report [bench.txt]. *)
Definition open (file : string) : string + errors.error :=
  if String.eqb file "bench.txt" then inl "goos: linux"
  else inr (errors.New "no such file or directory").

End reading.

Module extension.

(** A text without a dot and without a slash. *)
Fixpoint plain (s : string) : bool :=
  match s with
  | EmptyString => true
  | String c s' => negb (Ascii.eqb c "/") && negb (Ascii.eqb c ".") && plain s'
  end.

End extension.

(** A configuration with a PNG target and no HTML target. *)
Module imageOnly.

Definition settings : main.Settings.t :=
  main.Settings.mk "" (config.Output.mk "" "chart.png" false) false.

Definition createTemp : string + errors.error := inl "/tmp/benchviz.1.html".

End imageOnly.

Module built.

(** The metric and the version that a [CategoryData] is for. *)
Definition key (data : model.CategoryData.t) : config.MetricName * string :=
  (config.Metric.ID (model.CategoryData.Metric data),
   config.Object.ID (config.Version.Object (model.CategoryData.Version data))).

(** A category of the scenario built for a configured category: it has its
    identifier and its title, the environment of the configuration, one
    [CategoryData] for each included metric with each included version, in
    this order, and each series is titled by the version of its data. *)
Definition category (c : config.Config.t) (categoryConfig : config.Category.t)
    (category : model.Category.t) : Prop :=
  let includes := config.Category.Includes categoryConfig in
  model.Category.ID category = config.Category.ID categoryConfig
  /\ model.Category.Title category = config.Category.Title categoryConfig
  /\ model.Category.Environment category = config.Config.Environment c
  /\ map key (model.Category.Data category)
     = list_prod (config.Includes.Metrics includes) (config.Includes.Versions includes)
  /\ Forall (fun data =>
               Forall (fun series => model.MetricSeries.Title series = snd (key data))
                 (model.CategoryData.Series data))
       (model.Category.Data category).

End built.

(* ===================================================================== *)
(** ** Properties *)
(* ===================================================================== *)

(** *** The matcher *)

Lemma firstMatch_ok_id {A : Type} (m : A -> string -> string * bool) defs name :
  snd (config.Config.firstMatch m defs name) = false ->
  config.Config.firstMatch m defs name = ("", false).
Proof.
  induction defs as [|def defs IH]; simpl; [done|].
  destruct (m def name) as [id [|]]; simpl; [done|]. exact IH.
Qed.

(** [firstMatch] returns at the first entry that matches: the entries
    before it do not match, and its identifier is returned. *)
Lemma firstMatch_first {A : Type} (m : A -> string -> string * bool) defs name id :
  config.Config.firstMatch m defs name = (id, true) <->
  exists before def after,
    defs = before ++ def :: after /\
    Forall (fun d => snd (m d name) = false) before /\
    m def name = (id, true).
Proof.
  induction defs as [|d defs IH]; simpl.
  - split; [done|]. intros (before & def & after & Heq & _). by destruct before.
  - destruct (m d name) as [id' ok] eqn:Hd. destruct ok.
    + split.
      * intros [= ->]. exists [], d, defs. by repeat split.
      * intros (before & def & after & Heq & Hbefore & Hdef).
        destruct before as [|b before]; simplify_eq/=; [congruence|].
        inversion Hbefore as [|? ? Hb _]; subst. rewrite Hd in Hb. done.
    + rewrite IH. split.
      * intros (before & def & after & -> & Hbefore & Hdef).
        exists (d :: before), def, after. repeat split; [|done].
        constructor; [by rewrite Hd|done].
      * intros (before & def & after & Heq & Hbefore & Hdef).
        destruct before as [|b before]; simplify_eq/=; [congruence|].
        inversion Hbefore; subst. by exists before, def, after.
Qed.

Lemma firstMatch_none {A : Type} (m : A -> string -> string * bool) defs name :
  snd (config.Config.firstMatch m defs name) = false <->
  Forall (fun d => snd (m d name) = false) defs.
Proof.
  induction defs as [|d defs IH]; simpl.
  - split; [constructor|done].
  - destruct (m d name) as [id' ok] eqn:Hd. destruct ok; simpl.
    + split; [done|]. intros HF. inversion HF as [|? ? Hb _]; subst.
      by rewrite Hd in Hb.
    + rewrite IH. split.
      * intros HF. constructor; [by rewrite Hd|done].
      * intros HF. by inversion HF.
Qed.

(** C3. An entry with an inclusion pattern matches a subject exactly when
    the subject satisfies the inclusion and, if there is an exclusion
    pattern too, does not satisfy the exclusion; an entry with only an
    exclusion pattern matches exactly when the subject does not satisfy it;
    an entry with neither pattern matches nothing.  A match returns the
    entry's identifier.  Function, version and context entries share the
    rule through the [Object] they embed. *)
Theorem C3_MatchString_rule (o : config.Object.t) (subject : string) :
  let matched := snd (config.Object.MatchString o subject) in
  match config.Object.match_ o, config.Object.notMatch o with
  | Some inclusion, Some exclusion =>
      matched = regexp.MatchString inclusion subject
                && negb (regexp.MatchString exclusion subject)
  | Some inclusion, None => matched = regexp.MatchString inclusion subject
  | None, Some exclusion => matched = negb (regexp.MatchString exclusion subject)
  | None, None => matched = false
  end
  /\ config.Object.MatchString o subject
     = (if matched then (config.Object.ID o, true) else ("", false))
  /\ (forall f, config.Function.MatchString f subject
                = config.Object.MatchString (config.Function.Object f) subject)
  /\ (forall v, config.Version.MatchString v subject
                = config.Object.MatchString (config.Version.Object v) subject)
  /\ (forall c, config.Context.MatchString c subject
                = config.Object.MatchString (config.Context.Object c) subject).
Proof.
  unfold config.Object.MatchString, config.Object.Matchers.
  destruct (config.Object.match_ o) as [inc|], (config.Object.notMatch o) as [exc|];
    simpl; repeat split;
    repeat (match goal with
            | |- context [regexp.MatchString ?r ?s] =>
                destruct (regexp.MatchString r s)
            end; simpl); reflexivity.
Qed.

(** *** Resolution by name *)

(** C2. Name-based context resolution does not read the context catalog:
    [Config.FindContext] ranges over the version catalog, so it returns
    what [Config.FindVersion] returns.  With a version entry [generic] and a
    context entry [int] that both match the name, it answers [generic]
    where the first matching context entry is [int]; for a name that no
    context entry matches, it still answers [generic] where resolution over
    the context catalog reports no match. *)
Theorem C2_FindContext_scans_versions :
  (forall c name, config.Config.FindContext c name = config.Config.FindVersion c name)
  /\ config.Config.FindContext example.cfg "BenchmarkEqual_generic/int-8"
     = ("generic", true)
  /\ spec.FindContext example.cfg "BenchmarkEqual_generic/int-8" = ("int", true)
  /\ config.Config.FindContext example.cfg "BenchmarkEqual_generic/float-8"
     = ("generic", true)
  /\ spec.FindContext example.cfg "BenchmarkEqual_generic/float-8" = ("", false).
Proof. split; [reflexivity|]. repeat split; vm_compute; reflexivity. Qed.

(** *** Resolution by file rule *)

Lemma FindVersionFromFile_loop_offered defs file :
  config.Config.FindVersionFromFile_loop defs file
  = config.Config.firstMatch config.Version.MatchString
      (flat_map (fun def =>
         if snd (config.File.MatchString def file) then config.File.Versions def else [])
         defs) file.
Proof.
  induction defs as [|def defs IH]; simpl; [done|].
  destruct (snd (config.File.MatchString def file)); simpl; [|done].
  rewrite IH. clear IH.
  induction (config.File.Versions def) as [|ver vers IHv]; simpl; [done|].
  destruct (config.Version.MatchString ver file) as [id [|]]; [done|]. exact IHv.
Qed.

Lemma FindContextFromFile_loop_offered defs file :
  config.Config.FindContextFromFile_loop defs file
  = config.Config.firstMatch config.Context.MatchString
      (flat_map (fun def =>
         if snd (config.File.MatchString def file) then config.File.Contexts def else [])
         defs) file.
Proof.
  induction defs as [|def defs IH]; simpl; [done|].
  destruct (snd (config.File.MatchString def file)); simpl; [|done].
  rewrite IH. clear IH.
  induction (config.File.Contexts def) as [|ctx ctxs IHc]; simpl; [done|].
  destruct (config.Context.MatchString ctx file) as [id [|]]; [done|]. exact IHc.
Qed.




(** *** Classification of one measurement *)

(** What [parseBenchmarkName] does when the function resolves: the
    fall-back to the file rules, for the version and for the context alike,
    is taken when [FindVersion] did not resolve. *)
Lemma parseBenchmarkName_resolved (v : organizer.Organizer.t) (name file env : string) :
  snd (config.Config.FindFunction (organizer.Organizer.cfg v) name) = true ->
  let c := organizer.Organizer.cfg v in
  let byName := snd (config.Config.FindVersion c name) in
  let version :=
    if byName then fst (config.Config.FindVersion c name)
    else fst (config.Config.FindVersionFromFile c file) in
  let context :=
    if byName then fst (config.Config.FindContext c name)
    else fst (config.Config.FindContextFromFile c file) in
  fst (organizer.Organizer.parseBenchmarkName v name file env)
  = (organizer.ParsedBenchmark.mk
       (model.SeriesKey.mk (fst (config.Config.FindFunction c name)) version context "")
       model.MetricPoint.zero
       (organizer.defaultString (config.Config.Environment c) env),
     true).
Proof.
  intros Hf. unfold organizer.Organizer.parseBenchmarkName.
  destruct (config.Config.FindFunction _ name) as [function ok]. simpl in Hf. subst ok.
  simpl. unfold config.Config.FindContext, config.Config.FindVersion.
  destruct (config.Config.firstMatch _ _ name) as [version [|]]; reflexivity.
Qed.

Lemma parseBenchmarkName_unresolved (v : organizer.Organizer.t) (name file env : string) :
  snd (config.Config.FindFunction (organizer.Organizer.cfg v) name) = false ->
  organizer.Organizer.parseBenchmarkName v name file env
  = ((organizer.ParsedBenchmark.zero, false),
     [slog.Warn "no function matched for %q" [slog.badKey name]]).
Proof.
  intros Hf. unfold organizer.Organizer.parseBenchmarkName.
  destruct (config.Config.FindFunction _ name) as [function ok]. simpl in Hf. by subst ok.
Qed.

(** C4. The context does not fall back to the file rules when name-based
    context matching fails; it falls back when name-based version matching
    fails.  For a name that no context entry matches but the version entry
    [generic] does, the file rule for the path (which resolves [small]) is
    not consulted and the context is [generic]; for a name that the context
    entry [int] matches but no version entry does, the file rule is
    consulted all the same and the context is [small]. *)
Theorem C4_context_fallback_follows_version :
  let v := organizer.Organizer.mk example.cfg in
  let context name file :=
    organizer.ParsedBenchmark.Context
      (fst (fst (organizer.Organizer.parseBenchmarkName v name file "linux"))) in
  config.Config.FindContextFromFile example.cfg "baseline.txt" = ("small", true)
  /\ spec.FindContext example.cfg "BenchmarkEqual_generic/float-8" = ("", false)
  /\ context "BenchmarkEqual_generic/float-8" "baseline.txt" = "generic"
  /\ spec.FindContext example.cfg "BenchmarkEqual/int-8" = ("int", true)
  /\ context "BenchmarkEqual/int-8" "baseline.txt" = "small".
Proof. repeat split; vm_compute; reflexivity. Qed.

(** *** Ingestion of the measurements *)

Lemma ingestMetric_app v id value parsed benchmarks resolved :
  organizer.Organizer.ingestMetric v id value (parsed, benchmarks, resolved)
  = let '(parsed', added, resolved') :=
      organizer.Organizer.ingestMetric v id value (parsed, [], resolved) in
    (parsed', benchmarks ++ added, resolved').
Proof.
  unfold organizer.Organizer.ingestMetric.
  destruct (config.Config.GetMetric _ id) as [metric [|]]; simpl; [done|].
  by rewrite app_nil_r.
Qed.

Lemma parseBenchmarks_body_app v file env benchmarks log bench :
  organizer.Organizer.parseBenchmarks_body v file env (benchmarks, log) bench
  = (benchmarks ++ fst (spec.ingested v file env bench),
     log ++ snd (spec.ingested v file env bench)).
Proof.
  unfold spec.ingested, organizer.Organizer.parseBenchmarks_body.
  destruct (organizer.Organizer.parseBenchmarkName _ _ _ _) as [[parsed ok] log1].
  destruct ok; cbn [negb app].
  - rewrite (ingestMetric_app v config.MetricNsPerOp _ parsed benchmarks).
    destruct (organizer.Organizer.ingestMetric v config.MetricNsPerOp _ (parsed, [], false))
      as [[p1 a1] r1].
    rewrite (ingestMetric_app v config.MetricAllocsPerOp _ p1 (benchmarks ++ a1)).
    rewrite (ingestMetric_app v config.MetricAllocsPerOp _ p1 a1).
    destruct (organizer.Organizer.ingestMetric v config.MetricAllocsPerOp _ (p1, [], r1))
      as [[p2 a2] r2].
    rewrite (ingestMetric_app v config.MetricBytesPerOp _ p2 ((benchmarks ++ a1) ++ a2)).
    rewrite (ingestMetric_app v config.MetricBytesPerOp _ p2 (a1 ++ a2)).
    destruct (organizer.Organizer.ingestMetric v config.MetricBytesPerOp _ (p2, [], r2))
      as [[p3 a3] r3].
    rewrite (ingestMetric_app v config.MetricMBPerS _ p3 (((benchmarks ++ a1) ++ a2) ++ a3)).
    rewrite (ingestMetric_app v config.MetricMBPerS _ p3 ((a1 ++ a2) ++ a3)).
    destruct (organizer.Organizer.ingestMetric v config.MetricMBPerS _ (p3, [], r3))
      as [[p4 a4] r4].
    destruct r4; cbn [negb fst snd app]; f_equal; rewrite <- ?app_assoc; reflexivity.
  - cbn [fst snd app]. rewrite app_nil_r. f_equal. by rewrite app_assoc.
Qed.

Lemma parseBenchmarks_body_fold v file env (benchs : list parse.Benchmark.t)
    (benchmarks : list organizer.ParsedBenchmark.t) (log : list slog.Record_) :
  fold_left (organizer.Organizer.parseBenchmarks_body v file env) benchs (benchmarks, log)
  = (benchmarks ++ spec.records v (map (fun bench => (file, env, bench)) benchs),
     log ++ spec.diagnostics v (map (fun bench => (file, env, bench)) benchs)).
Proof.
  unfold spec.records, spec.diagnostics. revert benchmarks log.
  induction benchs as [|bench benchs IH]; intros benchmarks log; cbn [fold_left map flat_map app fst snd].
  { by rewrite !app_nil_r. }
  rewrite parseBenchmarks_body_app, IH. cbn [fst snd]. by rewrite <- !app_assoc.
Qed.

Lemma records_app v ms1 ms2 :
  spec.records v (ms1 ++ ms2) = spec.records v ms1 ++ spec.records v ms2.
Proof. apply flat_map_app. Qed.

Lemma diagnostics_app v ms1 ms2 :
  spec.diagnostics v (ms1 ++ ms2) = spec.diagnostics v ms1 ++ spec.diagnostics v ms2.
Proof. apply flat_map_app. Qed.

Lemma parseBenchmarks_entries_fold v file env
    (entries : list (string * list parse.Benchmark.t))
    (benchmarks : list organizer.ParsedBenchmark.t) (log : list slog.Record_) :
  fold_left (fun st (entry : string * list parse.Benchmark.t) =>
      fold_left (organizer.Organizer.parseBenchmarks_body v file env) (snd entry) st)
    entries (benchmarks, log)
  = (benchmarks ++ spec.records v
       (flat_map (fun entry : string * list parse.Benchmark.t =>
          map (fun bench => (file, env, bench)) (snd entry)) entries),
     log ++ spec.diagnostics v
       (flat_map (fun entry : string * list parse.Benchmark.t =>
          map (fun bench => (file, env, bench)) (snd entry)) entries)).
Proof.
  revert benchmarks log.
  induction entries as [|entry entries IH]; intros benchmarks log; cbn [fold_left map flat_map app fst snd].
  { unfold spec.records, spec.diagnostics. cbn [flat_map]. by rewrite !app_nil_r. }
  rewrite parseBenchmarks_body_fold, IH, records_app, diagnostics_app.
  by rewrite <- !app_assoc.
Qed.

(** The loops of [parseBenchmarks] append, measurement after measurement,
    the records and the diagnostics each one yields. *)
Lemma parseBenchmarks_loops_measurements v sets benchmarks log :
  organizer.Organizer.parseBenchmarks_loops v sets (benchmarks, log)
  = (benchmarks ++ spec.records v (spec.measurements sets),
     log ++ spec.diagnostics v (spec.measurements sets)).
Proof.
  unfold organizer.Organizer.parseBenchmarks_loops, spec.measurements.
  revert benchmarks log.
  induction sets as [|set sets IH]; intros benchmarks log; cbn [fold_left map flat_map app fst snd].
  { unfold spec.records, spec.diagnostics. cbn [flat_map]. by rewrite !app_nil_r. }
  rewrite parseBenchmarks_entries_fold, IH, records_app, diagnostics_app.
  by rewrite <- !app_assoc.
Qed.

(** The records of one measurement carry the function, version, context
    and environment that [parseBenchmarkName] returned for it. *)
Lemma ingested_records v file env bench pb :
  In pb (fst (spec.ingested v file env bench)) ->
  let r := fst (organizer.Organizer.parseBenchmarkName v (parse.Benchmark.Name bench)
                  file env) in
  snd r = true
  /\ organizer.ParsedBenchmark.Function pb = organizer.ParsedBenchmark.Function (fst r)
  /\ organizer.ParsedBenchmark.Version pb = organizer.ParsedBenchmark.Version (fst r)
  /\ organizer.ParsedBenchmark.Context pb = organizer.ParsedBenchmark.Context (fst r)
  /\ organizer.ParsedBenchmark.Environment pb
     = organizer.ParsedBenchmark.Environment (fst r).
Proof.
  unfold spec.ingested, organizer.Organizer.parseBenchmarks_body.
  destruct (organizer.Organizer.parseBenchmarkName _ _ _ _) as [[parsed ok] log1].
  destruct ok; cbn [negb fst snd]; [|intros []].
  unfold organizer.Organizer.ingestMetric.
  destruct (config.Config.GetMetric _ config.MetricNsPerOp) as [m1 [|]];
  destruct (config.Config.GetMetric _ config.MetricAllocsPerOp) as [m2 [|]];
  destruct (config.Config.GetMetric _ config.MetricBytesPerOp) as [m3 [|]];
  destruct (config.Config.GetMetric _ config.MetricMBPerS) as [m4 [|]];
  cbn [negb fst snd app In];
  intros Hin; repeat (destruct Hin as [<-|Hin]; [by repeat split|]); destruct Hin.
Qed.

Lemma in_records v ms pb :
  In pb (spec.records v ms) <->
  exists file env bench,
    In (file, env, bench) ms /\ In pb (fst (spec.ingested v file env bench)).
Proof.
  unfold spec.records. rewrite in_flat_map. split.
  - intros ([[file env] bench] & Hin & Hpb). by exists file, env, bench.
  - intros (file & env & bench & Hin & Hpb). by exists (file, env, bench).
Qed.

Lemma in_measurements sets file env bench :
  In (file, env, bench) (spec.measurements sets) <->
  exists set entry,
    In set sets /\ In entry (parser.Set_.Set_ set) /\ In bench (snd entry) /\
    file = parser.Set_.File set /\ env = parser.Set_.Environment set.
Proof.
  unfold spec.measurements. rewrite in_flat_map. split.
  - intros (set & Hset & Hin). apply in_flat_map in Hin as (entry & Hentry & Hin).
    apply in_map_iff in Hin as (b & [= <- <- <-] & Hb). by exists set, entry.
  - intros (set & entry & Hset & Hentry & Hb & -> & ->).
    exists set. split; [done|]. apply in_flat_map. exists entry. split; [done|].
    apply in_map_iff. by exists bench.
Qed.

(** [parseBenchmarks] returns the records of the measurements, and logs
    their diagnostics, with one more when there is no record. *)
Lemma parseBenchmarks_measurements v sets :
  organizer.Organizer.parseBenchmarks v sets
  = (organizer.BenchmarkSet.mk (spec.records v (spec.measurements sets)),
     spec.diagnostics v (spec.measurements sets)
     ++ (if (length (spec.records v (spec.measurements sets)) =? 0)%nat
         then [slog.Warn "benchmark set is empty" []]
         else [])).
Proof.
  unfold organizer.Organizer.parseBenchmarks.
  rewrite parseBenchmarks_loops_measurements. cbn [app].
  destruct (length _ =? 0)%nat; [done|]. by rewrite app_nil_r.
Qed.

Lemma parseBenchmarks_records v sets :
  organizer.BenchmarkSet.set (fst (organizer.Organizer.parseBenchmarks v sets))
  = spec.records v (spec.measurements sets).
Proof. by rewrite parseBenchmarks_measurements. Qed.

(** C10. Every classified record carries the configured environment when
    that is not the empty string, and otherwise the environment of the set
    its measurement came from, which the parser extracted from the report
    (from the plain text, or from the text collected from the events). *)
Theorem C10_environment_override (v : organizer.Organizer.t) (sets : list parser.Set_.t) :
  Forall (fun pb =>
      exists set entry bench,
        In set sets /\ In entry (parser.Set_.Set_ set) /\ In bench (snd entry) /\
        In pb (fst (spec.ingested v (parser.Set_.File set) (parser.Set_.Environment set)
                      bench)) /\
        organizer.ParsedBenchmark.Environment pb
        = if String.eqb (config.Config.Environment (organizer.Organizer.cfg v)) ""
          then parser.Set_.Environment set
          else config.Config.Environment (organizer.Organizer.cfg v))
    (organizer.BenchmarkSet.set (fst (organizer.Organizer.parseBenchmarks v sets)))
  /\ (forall in_ def,
        organizer.defaultString in_ def = if String.eqb in_ "" then def else in_)
  /\ (forall (L : parser.Lib) (content : string),
        match parser.parseText content with
        | (set, None) => parser.Set_.Environment set = parser.extractEnvironment content
        | (set, Some _) => set = parser.Set_.zero
        end)
  /\ (forall (L : parser.Lib) (input : string),
        match parser.parseJSON input with
        | (set, None) =>
            parser.Set_.Environment set
            = parser.extractEnvironment
                (fold_left parser.parseJSON_line (fst (bufio.ScanLines input)) "")
        | (set, Some _) => set = parser.Set_.zero
        end).
Proof.
  repeat split.
  - rewrite parseBenchmarks_records. apply Forall_forall. intros pb Hpb.
    apply list_elem_of_In, in_records in Hpb as (file & env & bench & Hm & Hpb).
    apply in_measurements in Hm as (set & entry & Hset & Hentry & Hb & -> & ->).
    exists set, entry, bench. repeat split; try done.
    destruct (ingested_records _ _ _ _ _ Hpb) as (Hok & _ & _ & _ & ->).
    unfold organizer.Organizer.parseBenchmarkName in *.
    destruct (config.Config.FindFunction _ _) as [function [|]]; [|done].
    cbn [negb]. destruct (config.Config.FindVersion _ _) as [version ok].
    destruct (config.Config.FindContext _ _) as [context ok']. reflexivity.
  - intros L content. unfold parser.parseText.
    destruct (parser.parse_ParseSet content) as [set [err|]]; reflexivity.
  - intros L input. unfold parser.parseJSON.
    destruct (bufio.ScanLines input) as [lines [err|]]; [reflexivity|].
    destruct (parser.parse_ParseSet _) as [set [err|]]; reflexivity.
Qed.

(** *** Aggregation into series *)

Lemma forRange_app {A S : Type} (l1 l2 : list A) (body : S -> A -> option S) (s : S) :
  organizer.forRange (l1 ++ l2) body s
  = match organizer.forRange l1 body s with
    | Some s' => organizer.forRange l2 body s'
    | None => None
    end.
Proof.
  revert s. induction l1 as [|x l1 IH]; intros s; simpl; [done|].
  destruct (body s x); [apply IH|done].
Qed.

(** Nested loops visit the concatenation of the inner ranges. *)
Lemma forRange_flat_map {A B S : Type} (l : list A) (inner : A -> list B)
    (body : S -> B -> option S) (s : S) :
  organizer.forRange l (fun st x => organizer.forRange (inner x) body st) s
  = organizer.forRange (flat_map inner l) body s.
Proof.
  revert s. induction l as [|x l IH]; intros s; simpl; [done|].
  rewrite forRange_app. destruct (organizer.forRange (inner x) body s); [apply IH|done].
Qed.

(** A loop whose body skips some elements is a loop over the others. *)
Lemma forRange_skips metric version wantFunction wantContext benchs st :
  organizer.forRange benchs
    (organizer.BenchmarkSet.SeriesFor_body metric version wantFunction wantContext) st
  = organizer.forRange
      (filter (fun bench =>
         organizer.BenchmarkSet.skips metric version wantFunction wantContext bench = false)
         benchs)
      (organizer.BenchmarkSet.SeriesFor_add version) st.
Proof.
  revert st. induction benchs as [|bench benchs IH]; intros st; [done|].
  rewrite filter_cons. cbn [organizer.forRange].
  unfold organizer.BenchmarkSet.SeriesFor_body at 1.
  destruct (organizer.BenchmarkSet.skips _ _ _ _ bench) eqn:Hskip.
  - rewrite decide_False by done. apply IH.
  - rewrite decide_True by done. cbn [organizer.forRange].
    destruct (organizer.BenchmarkSet.SeriesFor_add version st bench); [apply IH|done].
Qed.

Lemma forRange_ext {A S : Type} (l : list A) (body body' : S -> A -> option S) (s : S) :
  (forall st x, body st x = body' st x) ->
  organizer.forRange l body s = organizer.forRange l body' s.
Proof.
  intros Hext. revert s. induction l as [|x l IH]; intros s; simpl; [done|].
  rewrite Hext. destruct (body' s x); [apply IH|done].
Qed.

(** The three loops of [SeriesFor] add the selected records one by one. *)
Lemma SeriesFor_selected s metric version filter_ :
  organizer.BenchmarkSet.SeriesFor s metric version filter_
  = match organizer.forRange (spec.selected s metric version filter_)
            (organizer.BenchmarkSet.SeriesFor_add version)
            (([], ∅) : organizer.BenchmarkSet.state) with
    | Some (series, _) => Some series
    | None => None
    end.
Proof.
  unfold organizer.BenchmarkSet.SeriesFor, spec.selected.
  rewrite <- forRange_flat_map.
  erewrite forRange_ext; [reflexivity|].
  intros st wantFunction. cbv beta. unfold spec.forFunction.
  rewrite <- forRange_flat_map.
  apply forRange_ext. intros st' wantContext. apply forRange_skips.
Qed.

Lemma elem_of_firsts (x : string) (l : list string) : x ∈ spec.firsts l <-> x ∈ l.
Proof.
  induction l as [|y l IH]; cbn [spec.firsts]; [done|].
  rewrite !elem_of_cons, list_elem_of_filter, IH.
  destruct (decide (x = y)) as [->|Hne]; split; auto.
  - intros [?|[_ ?]]; auto.
  - intros [?|?]; [done|auto].
Qed.

Lemma NoDup_firsts (l : list string) : NoDup (spec.firsts l).
Proof.
  induction l as [|y l IH]; cbn [spec.firsts]; [constructor|].
  apply NoDup_cons. split.
  - rewrite list_elem_of_filter. intros [Hne _]. by apply Hne.
  - by apply NoDup_filter.
Qed.

Lemma firsts_snoc (l : list string) (x : string) :
  spec.firsts (l ++ [x]) = if decide (x ∈ l) then spec.firsts l else spec.firsts l ++ [x].
Proof.
  induction l as [|y l IH].
  - destruct (decide (x ∈ [])) as [Hin|_]; [by apply not_elem_of_nil in Hin|done].
  - cbn [app spec.firsts]. rewrite IH. destruct (decide (x = y)) as [->|Hne].
    + rewrite (decide_True (P := y ∈ y :: l)) by apply list_elem_of_here.
      destruct (decide (y ∈ l)); [done|].
      rewrite filter_app, (filter_cons _ y), decide_False by (intros Hn; by apply Hn).
      by rewrite filter_nil, app_nil_r.
    + destruct (decide (x ∈ l)) as [Hin|Hnin].
      * rewrite (decide_True (P := x ∈ y :: l)) by (by apply list_elem_of_further). done.
      * rewrite (decide_False (P := x ∈ y :: l))
          by (rewrite elem_of_cons; intros [?|?]; done).
        rewrite filter_app, (filter_cons _ x), decide_True by done. done.
Qed.

Lemma pointsOf_snoc function benchs bench :
  spec.pointsOf function (benchs ++ [bench])
  = spec.pointsOf function benchs
    ++ (if decide (organizer.ParsedBenchmark.Function bench = function)
        then [organizer.BenchmarkSet.point bench] else []).
Proof.
  unfold spec.pointsOf. rewrite filter_app, map_app, filter_cons, filter_nil.
  by destruct (decide _).
Qed.

Lemma pointsOf_absent function benchs :
  function ∉ map organizer.ParsedBenchmark.Function benchs ->
  spec.pointsOf function benchs = [].
Proof.
  unfold spec.pointsOf. induction benchs as [|bench benchs IH]; simpl; [done|].
  rewrite not_elem_of_cons. intros [Hne Hnin].
  rewrite filter_cons, decide_False by done. by apply IH.
Qed.

(** Adding one record keeps the series grouped and the index exact, and
    never reads [series] out of range. *)
Lemma SeriesFor_add_grouped version benchs indexSeries bench :
  spec.indexed indexSeries benchs ->
  exists indexSeries',
    organizer.BenchmarkSet.SeriesFor_add version
      (spec.grouped version benchs, indexSeries) bench
    = Some (spec.grouped version (benchs ++ [bench]), indexSeries')
    /\ spec.indexed indexSeries' (benchs ++ [bench]).
Proof.
  unfold spec.indexed. intros Hidx. unfold organizer.BenchmarkSet.SeriesFor_add, spec.grouped.
  set (f := organizer.ParsedBenchmark.Function bench).
  set (fs := spec.firsts (map organizer.ParsedBenchmark.Function benchs)) in *.
  rewrite map_app. cbn [map]. fold f. rewrite firsts_snoc. fold fs.
  destruct (indexSeries !! f) as [i|] eqn:Hlook.
  - (* the function has its series already *)
    apply Hidx in Hlook. fold fs in Hlook.
    assert (Hin : f ∈ map organizer.ParsedBenchmark.Function benchs).
    { apply elem_of_firsts. by eapply list_elem_of_lookup_2. }
    rewrite decide_True by done.
    exists indexSeries. split.
    + rewrite list_lookup_fmap, Hlook. cbn.
      f_equal. f_equal. apply list_eq. intros j.
      destruct (decide (i = j)) as [<-|Hne].
      * rewrite list_lookup_insert_eq
          by (rewrite length_map; by eapply lookup_lt_Some).
        rewrite list_lookup_fmap, Hlook. cbn. rewrite pointsOf_snoc.
        by rewrite decide_True.
      * rewrite list_lookup_insert_ne by done. rewrite !list_lookup_fmap.
        destruct (fs !! j) as [f'|] eqn:Hj; [|done]. cbn.
        rewrite pointsOf_snoc, decide_False, app_nil_r; [done|].
        intros Heq. fold f in Heq. subst f'. apply Hne.
        eapply NoDup_lookup; [apply NoDup_firsts|exact Hlook|exact Hj].
    + intros function j. apply Hidx.
  - (* the first record of its function *)
    assert (Hnin : f ∉ map organizer.ParsedBenchmark.Function benchs).
    { intros Hin. apply elem_of_firsts, list_elem_of_lookup in Hin as [i Hi].
      apply Hidx in Hi. congruence. }
    rewrite decide_False by done.
    exists (<[f := length (map (fun function =>
                model.MetricSeries.mk version (spec.pointsOf function benchs)) fs)]>
              indexSeries).
    split.
    + rewrite lookup_app_r by done. rewrite Nat.sub_diag. cbn.
      f_equal. f_equal.
      rewrite insert_app_r_alt by done. rewrite Nat.sub_diag. cbn.
      rewrite map_app. cbn. rewrite pointsOf_snoc, decide_True by done.
      rewrite pointsOf_absent by done. cbn. f_equal.
      apply map_ext_in. intros f' Hf'. rewrite pointsOf_snoc, decide_False, app_nil_r.
      * done.
      * fold f. intros ->. apply Hnin, elem_of_firsts. by apply list_elem_of_In.
    + intros function j. rewrite length_map.
      destruct (decide (f = function)) as [<-|Hne].
      * rewrite lookup_insert_eq. split.
        -- intros [= <-]. rewrite lookup_app_r, Nat.sub_diag by done. done.
        -- intros Hj. destruct (decide (j < length fs)) as [Hlt|Hge].
           ++ rewrite lookup_app_l in Hj by done. exfalso. apply Hnin.
              apply elem_of_firsts. by eapply list_elem_of_lookup_2.
           ++ rewrite lookup_app_r in Hj by lia.
              destruct (j - length fs) as [|k] eqn:Hk; [|by destruct k].
              f_equal. lia.
      * rewrite lookup_insert_ne by done. rewrite Hidx. fold fs. split.
        -- intros Hj. rewrite lookup_app_l; [done|]. by eapply lookup_lt_Some.
        -- intros Hj. destruct (decide (j < length fs)) as [Hlt|Hge].
           ++ by rewrite lookup_app_l in Hj.
           ++ rewrite lookup_app_r in Hj by lia.
              destruct (j - length fs) as [|k]; [|by destruct k].
              cbn in Hj. congruence.
Qed.

(** The loop over any run of records groups them, and does not panic. *)
Lemma forRange_add_grouped version benchs :
  exists indexSeries,
    organizer.forRange benchs (organizer.BenchmarkSet.SeriesFor_add version)
      (([], ∅) : organizer.BenchmarkSet.state)
    = Some (spec.grouped version benchs, indexSeries)
    /\ spec.indexed indexSeries benchs.
Proof.
  induction benchs as [|bench benchs IH] using rev_ind.
  - exists ∅. split; [done|]. intros function i. cbn. by rewrite lookup_empty, lookup_nil.
  - destruct IH as (indexSeries & Hrun & Hidx).
    destruct (SeriesFor_add_grouped version benchs indexSeries bench Hidx)
      as (indexSeries' & Hadd & Hidx').
    exists indexSeries'. split; [|done].
    rewrite forRange_app, Hrun. cbn [organizer.forRange]. by rewrite Hadd.
Qed.

(** [SeriesFor] returns, and what it returns is the grouping of the
    selected records. *)
Lemma SeriesFor_grouped s metric version filter_ :
  organizer.BenchmarkSet.SeriesFor s metric version filter_
  = Some (spec.grouped version (spec.selected s metric version filter_)).
Proof.
  rewrite SeriesFor_selected.
  destruct (forRange_add_grouped version (spec.selected s metric version filter_))
    as (indexSeries & -> & _). done.
Qed.

Lemma skips_false metric version wantFunction wantContext bench :
  organizer.BenchmarkSet.skips metric version wantFunction wantContext bench = false <->
  organizer.ParsedBenchmark.Metric bench = metric
  /\ organizer.ParsedBenchmark.Function bench = wantFunction
  /\ organizer.ParsedBenchmark.Version bench = version
  /\ organizer.ParsedBenchmark.Context bench = wantContext.
Proof.
  unfold organizer.BenchmarkSet.skips.
  rewrite !orb_false_iff, !negb_false_iff, !String.eqb_eq. tauto.
Qed.

Lemma in_selected s metric version filter_ bench :
  In bench (spec.selected s metric version filter_) <->
  In bench (organizer.BenchmarkSet.set s)
  /\ organizer.ParsedBenchmark.Metric bench = metric
  /\ In (organizer.ParsedBenchmark.Function bench)
        (config.Includes.Functions (config.Category.Includes filter_))
  /\ organizer.ParsedBenchmark.Version bench = version
  /\ In (organizer.ParsedBenchmark.Context bench)
        (config.Includes.Contexts (config.Category.Includes filter_)).
Proof.
  unfold spec.selected, spec.forFunction, spec.matching. rewrite in_flat_map. split.
  - intros (f & Hf & Hin). apply in_flat_map in Hin as (c & Hc & Hin).
    apply list_elem_of_In, list_elem_of_filter in Hin as [Hskip Hin].
    apply skips_false in Hskip as (? & <- & ? & <-). apply list_elem_of_In in Hin.
    by repeat split.
  - intros (Hin & Hm & Hf & Hv & Hc).
    exists (organizer.ParsedBenchmark.Function bench). split; [done|].
    apply in_flat_map. exists (organizer.ParsedBenchmark.Context bench). split; [done|].
    apply list_elem_of_In, list_elem_of_filter. split; [|by apply list_elem_of_In].
    by apply skips_false.
Qed.


Lemma filter_firsts_idem (x : string) (l : list string) :
  filter (fun y => y <> x) (spec.firsts (x :: l)) = filter (fun y => y <> x) (spec.firsts l).
Proof.
  cbn [spec.firsts]. rewrite filter_cons, decide_False by (intros Hn; by apply Hn).
  rewrite list_filter_filter. apply list_filter_iff. tauto.
Qed.



Lemma map_flat_map {A B C : Type} (f : B -> C) (g : A -> list B) (l : list A) :
  map f (flat_map g l) = flat_map (fun x => map f (g x)) l.
Proof. induction l as [|x l IH]; cbn; [done|]. by rewrite map_app, IH. Qed.



Lemma filter_none {A : Type} (P : A -> Prop) `{forall x, Decision (P x)} (l : list A) :
  Forall (fun x => ~ P x) l -> filter P l = [].
Proof.
  induction 1 as [|x l Hx _ IH]; [done|].
  by rewrite filter_cons, decide_False, IH.
Qed.




(** *** The scenario *)

Lemma populateCategories_version_loop v set categoryConfig metric versionIDs category data :
  exists data',
    organizer.forRange versionIDs
      (organizer.Organizer.populateCategories_version v set categoryConfig metric)
      (category, data)
    = Some (model.Category.mk (model.Category.ID category)
              (model.Category.Title category)
              (model.Category.Environment category)
              (model.Category.Data category
               ++ map (fun versionID =>
                    let version :=
                      fst (config.Config.GetVersion (organizer.Organizer.cfg v) versionID) in
                    model.CategoryData.mk version metric
                      (spec.grouped (config.Object.ID (config.Version.Object version))
                         (spec.selected set (config.Metric.ID metric)
                            (config.Object.ID (config.Version.Object version))
                            categoryConfig)))
                    versionIDs),
            data').
Proof.
  revert category data.
  induction versionIDs as [|versionID versionIDs IH]; intros category data.
  - exists data. cbn. rewrite app_nil_r. by destruct category.
  - cbn [organizer.forRange map].
    unfold organizer.Organizer.populateCategories_version at 1.
    destruct (config.Config.GetVersion _ versionID) as [version ok]. cbn [fst].
    rewrite SeriesFor_grouped.
    edestruct IH as [data' ->]. exists data'. cbn. by rewrite <- app_assoc.
Qed.

Lemma populateCategories_metric_loop v set categoryConfig metricIDs category data :
  exists data',
    organizer.forRange metricIDs
      (organizer.Organizer.populateCategories_metric v set categoryConfig)
      (category, data)
    = Some (model.Category.mk (model.Category.ID category)
              (model.Category.Title category)
              (model.Category.Environment category)
              (model.Category.Data category
               ++ flat_map (fun metricID =>
                    let metric :=
                      fst (config.Config.GetMetric (organizer.Organizer.cfg v) metricID) in
                    map (fun versionID =>
                      let version :=
                        fst (config.Config.GetVersion (organizer.Organizer.cfg v) versionID) in
                      model.CategoryData.mk version metric
                        (spec.grouped (config.Object.ID (config.Version.Object version))
                           (spec.selected set (config.Metric.ID metric)
                              (config.Object.ID (config.Version.Object version))
                              categoryConfig)))
                      (config.Includes.Versions (config.Category.Includes categoryConfig)))
                    metricIDs),
            data').
Proof.
  revert category data.
  induction metricIDs as [|metricID metricIDs IH]; intros category data.
  - exists data. cbn. rewrite app_nil_r. by destruct category.
  - cbn [organizer.forRange flat_map].
    unfold organizer.Organizer.populateCategories_metric at 1.
    destruct (config.Config.GetMetric _ metricID) as [metric ok]. cbn [fst].
    edestruct (populateCategories_version_loop v set categoryConfig metric) as [data1 ->].
    edestruct IH as [data' ->]. exists data'. cbn. by rewrite <- app_assoc.
Qed.

Lemma populateCategories_category_loop v set categoryConfigs scenario :
  organizer.forRange categoryConfigs
    (organizer.Organizer.populateCategories_category v set) scenario
  = Some (model.Scenario.mk (model.Scenario.Name scenario)
            (model.Scenario.Categories scenario
             ++ map (spec.categoryOf v set) categoryConfigs)).
Proof.
  revert scenario.
  induction categoryConfigs as [|categoryConfig categoryConfigs IH]; intros scenario.
  - cbn. rewrite app_nil_r. by destruct scenario.
  - cbn [organizer.forRange map].
    unfold organizer.Organizer.populateCategories_category at 1.
    edestruct (populateCategories_metric_loop v set categoryConfig) as [data' ->].
    rewrite IH. cbn. by rewrite <- app_assoc.
Qed.

(** [populateCategories] returns: after as many zero-valued categories as
    there are configured categories come the categories the configuration
    asks for. *)
Lemma populateCategories_scenario v set :
  organizer.Organizer.populateCategories v set
  = Some (model.Scenario.mk (config.Config.Name (organizer.Organizer.cfg v))
            (replicate (length (config.Config.Categories (organizer.Organizer.cfg v)))
                       model.Category.zero
             ++ spec.categoriesOf v set)).
Proof.
  unfold organizer.Organizer.populateCategories. by rewrite populateCategories_category_loop.
Qed.

(** C1. [Scenarize] does not return exactly one category per configured
    category: for a configuration with [n] categories the list holds [n]
    zero-valued categories first and then the [n] categories the
    configuration asks for (each with the identifier and title of its
    configured category and one [CategoryData] per included metric and
    version), [2 * n] in all.  With the one category [all] and no
    measurement, the list is a zero-valued category followed by [all]. *)
Theorem C1_zero_categories_precede (v : organizer.Organizer.t) (sets : list parser.Set_.t) :
  let n := length (config.Config.Categories (organizer.Organizer.cfg v)) in
  let set := fst (organizer.Organizer.parseBenchmarks v sets) in
  fst (organizer.Organizer.Scenarize v sets)
  = Some (model.Scenario.mk (config.Config.Name (organizer.Organizer.cfg v))
            (replicate n model.Category.zero ++ spec.categoriesOf v set))
  /\ length (replicate n model.Category.zero ++ spec.categoriesOf v set) = 2 * n
  /\ fst (organizer.Organizer.Scenarize (organizer.Organizer.mk example.cfg) [])
     = Some (model.Scenario.mk "example"
               [model.Category.zero;
                model.Category.mk "all" "All benchmarks" ""
                  [model.CategoryData.mk example.vGeneric example.mNsPerOp []]]).
Proof.
  intros n set. split; [|split].
  - subst n set. unfold organizer.Organizer.Scenarize.
    destruct (organizer.Organizer.parseBenchmarks v sets) as [newSet log].
    cbn [fst]. apply populateCategories_scenario.
  - unfold spec.categoriesOf. rewrite length_app, length_replicate, length_map.
    unfold n. lia.
  - vm_compute. reflexivity.
Qed.

(** *** Loading *)

Lemma bind_inl {A B : Type} (m : A + errors.error) (k : A -> B + errors.error) (y : B) :
  errors.bind m k = inl y -> exists x, m = inl x /\ k x = inl y.
Proof. destruct m as [x|err]; cbn; [by exists x|done]. Qed.

(** The matchers that [compileRex] returns are there exactly for the
    patterns that are not the empty string. *)
Lemma compileRex_patterns compile (o : config.Object.t) ms :
  config.compileRex compile o = inl ms ->
  config.isNil (fst ms) = String.eqb (config.Object.Match o) ""
  /\ config.isNil (snd ms) = String.eqb (config.Object.NotMatch o) "".
Proof.
  unfold config.compileRex. intros Hc.
  apply bind_inl in Hc as (m & Hm & Hc). apply bind_inl in Hc as (n & Hn & [= <-]).
  cbn [fst snd]. split.
  - destruct (String.eqb (config.Object.Match o) ""); cbn [negb] in Hm.
    + by injection Hm as <-.
    + apply bind_inl in Hm as (re & _ & [= <-]). done.
  - destruct (String.eqb (config.Object.NotMatch o) ""); cbn [negb] in Hn.
    + by injection Hn as <-.
    + apply bind_inl in Hn as (re & _ & [= <-]). done.
Qed.

(** The index of a catalog maps each identifier, never empty, to an entry
    that bears it. *)
Lemma indexObjects_named {A : Type} (caser : string -> string) (object : A -> config.Object.t)
    (update : A -> config.Object.t -> A) (emptyID duplicateID : string)
    (items : list A) (i : nat) (index index' : gmap string A) :
  (forall a o, object (update a o) = o) ->
  config.indexObjects caser object update emptyID duplicateID i items index = inl index' ->
  (forall id v, index !! id = Some v -> config.Object.ID (object v) = id /\ id <> "") ->
  forall id v, index' !! id = Some v -> config.Object.ID (object v) = id /\ id <> "".
Proof.
  intros Hupdate. revert i index.
  induction items as [|item items IH]; intros i index Hrun Hindex.
  { cbn in Hrun. by injection Hrun as <-. }
  cbn [config.indexObjects] in Hrun.
  destruct (String.eqb_spec (config.Object.ID (object item)) "") as [|Hid]; [done|].
  destruct (index !! config.Object.ID (object item)) eqn:Hlook; [done|].
  cbn [config.isNil] in Hrun. apply (IH _ _ Hrun).
  intros id v. destruct (decide (config.Object.ID (object item) = id)) as [<-|Hne].
  - rewrite lookup_insert_eq. intros [= <-]. split; [|done].
    destruct (String.eqb _ ""); [|done]. by rewrite Hupdate.
  - rewrite lookup_insert_ne by done. apply Hindex.
Qed.

Lemma checkRefs_found {A : Type} (index : gmap string A) notFound categoryID refs j :
  config.checkRefs index notFound categoryID j refs = inl tt ->
  forall ref, In ref refs -> is_Some (index !! ref).
Proof.
  revert j. induction refs as [|r refs IH]; intros j Hcheck ref; [intros []|].
  cbn [config.checkRefs] in Hcheck. destruct (index !! r) eqn:Hr; [|done].
  cbn [config.isNil] in Hcheck. intros [<-|Hin]; [by eexists|]. by eapply IH.
Qed.

Lemma validateCategories_versions functionIndex contextIndex versionIndex metricIndex
    categories i :
  config.validateCategories functionIndex contextIndex versionIndex metricIndex i categories
  = inl tt ->
  forall categoryConfig versionID,
    In categoryConfig categories ->
    In versionID (config.Includes.Versions (config.Category.Includes categoryConfig)) ->
    is_Some (versionIndex !! versionID).
Proof.
  revert i. induction categories as [|v categories IH]; intros i Hrun categoryConfig versionID;
    [intros []|].
  cbn [config.validateCategories] in Hrun. apply bind_inl in Hrun as ([] & Hv & Hrun).
  intros [<-|Hin]; [|by eapply IH].
  unfold config.validateCategory in Hv.
  destruct (String.eqb (config.Category.ID v) ""); [done|].
  apply bind_inl in Hv as ([] & _ & Hv). apply bind_inl in Hv as ([] & _ & Hv).
  apply bind_inl in Hv as ([] & Hversions & _).
  by eapply checkRefs_found.
Qed.

(** A configuration that [load] returns names every version its categories
    include, whatever the decoder, the compiler of patterns and the title
    caser are. *)
Lemma load_versionsNamed decode compile caser file cfg :
  config.load decode compile caser file = inl cfg -> spec.versionsNamed cfg.
Proof.
  unfold config.load. intros Hload.
  apply bind_inl in Hload as (raw & _ & Hload).
  apply bind_inl in Hload as (functionIndex & _ & Hload).
  apply bind_inl in Hload as (contextIndex & _ & Hload).
  apply bind_inl in Hload as (versionIndex & Hindex & Hload).
  apply bind_inl in Hload as (metricIndex & _ & Hload).
  apply bind_inl in Hload as ([] & Hvalid & Hload).
  apply bind_inl in Hload as (functions & _ & Hload).
  apply bind_inl in Hload as (contexts & _ & Hload).
  apply bind_inl in Hload as (versions & _ & Hload).
  apply bind_inl in Hload as (files & _ & [= <-]).
  intros categoryConfig versionID Hcat Hver. cbn [config.Config.Categories] in Hcat.
  destruct (validateCategories_versions _ _ _ _ _ _ Hvalid _ _ Hcat Hver) as [v Hv].
  unfold config.Config.GetVersion. cbn [config.Config.versionIndex]. rewrite Hv. cbn [fst].
  eapply (indexObjects_named caser) in Hindex as [Hid Hne]; [|done| |exact Hv].
  - by rewrite Hid.
  - intros id v'. by rewrite lookup_empty.
Qed.

(** *** Measurements that do not classify *)

(** Records of another version do not change what [SeriesFor] selects. *)
Lemma selected_without metric version filter_ before records after :
  Forall (fun pb => organizer.ParsedBenchmark.Version pb <> version) records ->
  spec.selected (organizer.BenchmarkSet.mk (before ++ records ++ after))
    metric version filter_
  = spec.selected (organizer.BenchmarkSet.mk (before ++ after)) metric version filter_.
Proof.
  intros Hrecords. unfold spec.selected, spec.forFunction, spec.matching.
  cbn [organizer.BenchmarkSet.set].
  apply flat_map_ext. intros f. apply flat_map_ext. intros c.
  rewrite !filter_app. f_equal.
  rewrite (filter_none _ records); [done|].
  eapply Forall_impl; [exact Hrecords|]. cbn. intros pb Hv Hskip.
  apply skips_false in Hskip as (_ & _ & Hversion & _). by apply Hv.
Qed.

Lemma flat_map_ext_in {A B : Type} (f g : A -> list B) (l : list A) :
  (forall x, In x l -> f x = g x) -> flat_map f l = flat_map g l.
Proof.
  induction l as [|x l IH]; intros Hext; cbn; [done|].
  rewrite Hext by (by left). rewrite IH; [done|]. intros y Hy. apply Hext. by right.
Qed.

(** Records with the empty version identifier do not change the scenario
    when every included version has a name. *)
Lemma populateCategories_without v before records after :
  spec.versionsNamed (organizer.Organizer.cfg v) ->
  Forall (fun pb => organizer.ParsedBenchmark.Version pb = "") records ->
  organizer.Organizer.populateCategories v
    (organizer.BenchmarkSet.mk (before ++ records ++ after))
  = organizer.Organizer.populateCategories v (organizer.BenchmarkSet.mk (before ++ after)).
Proof.
  intros Hnamed Hrecords. rewrite !populateCategories_scenario. do 3 f_equal.
  unfold spec.categoriesOf. apply map_ext_in. intros categoryConfig Hcat.
  unfold spec.categoryOf. f_equal. unfold spec.dataOf.
  apply flat_map_ext_in. intros metricID _. apply map_ext_in. intros versionID Hver.
  cbv zeta. do 2 f_equal. apply selected_without.
  eapply Forall_impl; [exact Hrecords|]. cbn. intros pb ->. apply not_eq_sym.
  by apply Hnamed with categoryConfig.
Qed.

Lemma ingested_unresolved v file env bench :
  snd (config.Config.FindFunction (organizer.Organizer.cfg v) (parse.Benchmark.Name bench))
  = false ->
  spec.ingested v file env bench
  = ([],
     [slog.Warn "no function matched for %q" [slog.badKey (parse.Benchmark.Name bench)];
      slog.Warn "benchmark not ingested"
        [slog.String "file" file;
         slog.String "benchmark_name" (parse.Benchmark.Name bench)]]).
Proof.
  intros Hf. unfold spec.ingested, organizer.Organizer.parseBenchmarks_body.
  by rewrite parseBenchmarkName_unresolved.
Qed.

Lemma FindVersionFromFile_failed c file :
  snd (config.Config.FindVersionFromFile c file) = false ->
  config.Config.FindVersionFromFile c file = ("", false).
Proof.
  unfold config.Config.FindVersionFromFile. rewrite FindVersionFromFile_loop_offered.
  apply firstMatch_ok_id.
Qed.

Lemma FindContextFromFile_failed c file :
  snd (config.Config.FindContextFromFile c file) = false ->
  config.Config.FindContextFromFile c file = ("", false).
Proof.
  unfold config.Config.FindContextFromFile. rewrite FindContextFromFile_loop_offered.
  apply firstMatch_ok_id.
Qed.

(** The function resolves, the version resolves neither by name nor by
    file rule, and no file rule resolves the context: the record is
    returned with empty version and context, with a diagnostic. *)
Lemma parseBenchmarkName_unversioned v name file env :
  let c := organizer.Organizer.cfg v in
  snd (config.Config.FindFunction c name) = true ->
  snd (config.Config.FindVersion c name) = false ->
  snd (config.Config.FindVersionFromFile c file) = false ->
  snd (config.Config.FindContextFromFile c file) = false ->
  organizer.Organizer.parseBenchmarkName v name file env
  = ((organizer.ParsedBenchmark.mk
        (model.SeriesKey.mk (fst (config.Config.FindFunction c name)) "" "" "")
        model.MetricPoint.zero
        (organizer.defaultString (config.Config.Environment c) env),
      true),
     [slog.Warn "no version, no context matched for %q" [slog.badKey name]]).
Proof.
  intros c Hf Hv Hvf Hcf. unfold organizer.Organizer.parseBenchmarkName. fold c.
  destruct (config.Config.FindFunction c name) as [function ok]. cbn in Hf. subst ok.
  cbn [negb fst]. unfold config.Config.FindContext.
  apply firstMatch_ok_id in Hv as Hv'. unfold config.Config.FindVersion in *.
  rewrite Hv'. cbn [negb].
  rewrite (FindVersionFromFile_failed c file Hvf), (FindContextFromFile_failed c file Hcf).
  reflexivity.
Qed.

(** A measurement whose function resolves yields one record per configured
    metric; when no metric is configured, one more diagnostic. *)
Lemma ingested_resolved v file env bench parsed log1 :
  organizer.Organizer.parseBenchmarkName v (parse.Benchmark.Name bench) file env
  = ((parsed, true), log1) ->
  map organizer.ParsedBenchmark.Metric (fst (spec.ingested v file env bench))
  = map (fun id =>
           config.Metric.ID (fst (config.Config.GetMetric (organizer.Organizer.cfg v) id)))
        (spec.configured v)
  /\ snd (spec.ingested v file env bench)
     = log1 ++ (if (length (spec.configured v) =? 0)%nat
                then [slog.Warn "no benchmark metric ingested"
                        [slog.String "file" file;
                         slog.String "benchmark_name" (parse.Benchmark.Name bench)]]
                else []).
Proof.
  intros Hparse.
  unfold spec.ingested, organizer.Organizer.parseBenchmarks_body, spec.configured.
  rewrite Hparse. cbn [negb app].
  unfold organizer.Organizer.ingestMetric. rewrite !filter_cons, filter_nil.
  destruct (config.Config.GetMetric _ config.MetricNsPerOp) as [m1 ok1] eqn:H1;
  destruct (config.Config.GetMetric _ config.MetricAllocsPerOp) as [m2 ok2] eqn:H2;
  destruct (config.Config.GetMetric _ config.MetricBytesPerOp) as [m3 ok3] eqn:H3;
  destruct (config.Config.GetMetric _ config.MetricMBPerS) as [m4 ok4] eqn:H4;
  destruct ok1, ok2, ok3, ok4; cbn [fst snd];
  rewrite ?(decide_True (P := true = true)) by done;
  rewrite ?(decide_False (P := false = true)) by done;
  cbn [map]; rewrite ?H1, ?H2, ?H3, ?H4;
  cbn [fst snd app length Nat.eqb negb organizer.ParsedBenchmark.assign
       organizer.ParsedBenchmark.Metric organizer.ParsedBenchmark.SeriesKey
       model.SeriesKey.Metric];
  rewrite ?app_nil_r; split; reflexivity.
Qed.

Lemma records_cons v file env bench ms :
  spec.records v ((file, env, bench) :: ms)
  = fst (spec.ingested v file env bench) ++ spec.records v ms.
Proof. reflexivity. Qed.

(** C6. The scenario is built from the records of the measurements, and
    their diagnostics are logged.  A measurement whose name matches no
    function entry yields no record, two diagnostics, and leaves the
    scenario as it is without the measurement.  A measurement whose function resolves while neither the
    name nor a file rule resolves its version, and no file rule resolves
    its context, is kept: [parseBenchmarkName] returns its record with empty
    version and context identifiers, a diagnostic is logged, one record per
    configured metric joins the set; and, as every included version has a
    name, these records add no point to any category. *)
Theorem C6_unclassified_measurements (v : organizer.Organizer.t) (file env : string)
    (bench : parse.Benchmark.t) :
  let c := organizer.Organizer.cfg v in
  let name := parse.Benchmark.Name bench in
  let scenarioOf ms :=
    organizer.Organizer.populateCategories v
      (organizer.BenchmarkSet.mk (spec.records v ms)) in
  (forall sets,
     fst (organizer.Organizer.Scenarize v sets) = scenarioOf (spec.measurements sets)
     /\ incl (spec.diagnostics v (spec.measurements sets))
             (snd (organizer.Organizer.Scenarize v sets)))
  /\ (snd (config.Config.FindFunction c name) = false ->
     fst (spec.ingested v file env bench) = []
     /\ In (slog.Warn "benchmark not ingested"
              [slog.String "file" file; slog.String "benchmark_name" name])
           (snd (spec.ingested v file env bench))
     /\ forall before after,
          spec.records v (before ++ (file, env, bench) :: after)
          = spec.records v (before ++ after)
          /\ scenarioOf (before ++ (file, env, bench) :: after)
             = scenarioOf (before ++ after))
  /\ (snd (config.Config.FindFunction c name) = true ->
      snd (config.Config.FindVersion c name) = false ->
      snd (config.Config.FindVersionFromFile c file) = false ->
      snd (config.Config.FindContextFromFile c file) = false ->
      spec.versionsNamed c ->
        fst (organizer.Organizer.parseBenchmarkName v name file env)
        = (organizer.ParsedBenchmark.mk
             (model.SeriesKey.mk (fst (config.Config.FindFunction c name)) "" "" "")
             model.MetricPoint.zero
             (organizer.defaultString (config.Config.Environment c) env),
           true)
        /\ In (slog.Warn "no version, no context matched for %q" [slog.badKey name])
              (snd (spec.ingested v file env bench))
        /\ map organizer.ParsedBenchmark.Metric (fst (spec.ingested v file env bench))
           = map (fun id => config.Metric.ID (fst (config.Config.GetMetric c id)))
                 (spec.configured v)
        /\ Forall (fun pb =>
                     organizer.ParsedBenchmark.Function pb
                     = fst (config.Config.FindFunction c name)
                     /\ organizer.ParsedBenchmark.Version pb = ""
                     /\ organizer.ParsedBenchmark.Context pb = "")
                  (fst (spec.ingested v file env bench))
        /\ forall before after,
             scenarioOf (before ++ (file, env, bench) :: after)
             = scenarioOf (before ++ after)).
Proof.
  intros c name scenarioOf. split; [|split].
  - intros sets. unfold organizer.Organizer.Scenarize.
    rewrite parseBenchmarks_measurements. cbn [fst snd]. split; [reflexivity|].
    apply incl_appl, incl_refl.
  - intros Hf. rewrite (ingested_unresolved v file env bench Hf). cbn [fst snd].
    split; [done|]. split; [right; by left|].
    intros before after.
    assert (Hrec : spec.records v (before ++ (file, env, bench) :: after)
                   = spec.records v (before ++ after)).
    { rewrite !records_app, records_cons.
      by rewrite (ingested_unresolved v file env bench Hf). }
    split; [exact Hrec|]. unfold scenarioOf. by rewrite Hrec.
  - intros Hf Hv Hvf Hcf Hnamed.
    pose proof (parseBenchmarkName_unversioned v name file env Hf Hv Hvf Hcf) as Hparse.
    fold c in Hparse.
    destruct (ingested_resolved v file env bench _ _ Hparse) as [Hmetrics Hlog].
    assert (Hrecords : Forall (fun pb =>
                     organizer.ParsedBenchmark.Function pb
                     = fst (config.Config.FindFunction c name)
                     /\ organizer.ParsedBenchmark.Version pb = ""
                     /\ organizer.ParsedBenchmark.Context pb = "")
                  (fst (spec.ingested v file env bench))).
    { apply Forall_forall. intros pb Hpb. apply list_elem_of_In in Hpb.
      destruct (ingested_records _ _ _ _ _ Hpb) as (_ & Hfun & Hver & Hctx & _).
      fold name in Hfun, Hver, Hctx. rewrite Hparse in Hfun, Hver, Hctx. by repeat split. }
    split; [by rewrite Hparse|]. split; [rewrite Hlog; by left|].
    split; [exact Hmetrics|]. split; [exact Hrecords|].
    intros before after. unfold scenarioOf. rewrite !records_app, records_cons.
    apply populateCategories_without; [exact Hnamed|].
    eapply Forall_impl; [exact Hrecords|]. cbn. tauto.
Qed.

(** The worked configurations are what [load] returns for their
    documents. *)
Lemma example_loaded caser file :
  config.load (fun _ => inl example.document) example.compile caser file
  = inl example.cfg.
Proof. vm_compute. reflexivity. Qed.

Lemma scenarioA_loaded caser file :
  config.load (fun _ => inl scenarioA.document) example.compile caser file
  = inl scenarioA.cfg.
Proof. vm_compute. reflexivity. Qed.

Lemma example_versionsNamed : spec.versionsNamed example.cfg.
Proof.
  eapply (load_versionsNamed _ _ (fun s => s) ""). apply example_loaded.
Qed.

(** C6 at the example configuration: [BenchmarkContains/int-8] matches no
    function entry; [BenchmarkEqual/float-8] read from [other.txt] resolves
    its function only. *)
Lemma C6_unclassified_measurements_witness :
  fst (spec.ingested example.organizer_ "other.txt" "linux" example.benchUnknown) = []
  /\ fst (organizer.Organizer.parseBenchmarkName example.organizer_
            "BenchmarkEqual/float-8" "other.txt" "linux")
     = (organizer.ParsedBenchmark.mk (model.SeriesKey.mk "equal" "" "" "")
          model.MetricPoint.zero "linux", true).
Proof.
  split.
  - apply (proj1 (proj2 (C6_unclassified_measurements example.organizer_ "other.txt"
                           "linux" example.benchUnknown))).
    vm_compute. reflexivity.
  - apply (proj2 (proj2 (C6_unclassified_measurements example.organizer_ "other.txt"
                           "linux" example.benchUnversioned))).
    + vm_compute. reflexivity.
    + vm_compute. reflexivity.
    + vm_compute. reflexivity.
    + vm_compute. reflexivity.
    + exact example_versionsNamed.
Defined.

(** *** The worked scenario *)

(** What [Scenarize] returns in the worked scenario. *)
Lemma scenarioA_scenario :
  fst (organizer.Organizer.Scenarize scenarioA.organizer_ (scenarioA.sets scenarioA.value))
  = Some (model.Scenario.mk "A"
            [model.Category.zero;
             model.Category.mk "all" "All benchmarks" ""
               [model.CategoryData.mk scenarioA.vGeneric scenarioA.mNsPerOp []]]).
Proof. vm_compute. reflexivity. Qed.

(** C7, as stated, fails in the worked scenario: the scenario that
    [Scenarize] returns for the measurement [BenchmarkEqual_generic/int-8]
    with value 12.3 holds no point labelled ["equal – generic – int"] (it
    holds no point at all). *)
Lemma C7_counterexample :
  ~ exists scenario category data series point,
      fst (organizer.Organizer.Scenarize scenarioA.organizer_
             (scenarioA.sets scenarioA.value)) = Some scenario
      /\ In category (model.Scenario.Categories scenario)
      /\ In data (model.Category.Data category)
      /\ In series (model.CategoryData.Series data)
      /\ In point (model.MetricSeries.Points series)
      /\ model.MetricPoint.Name point = "equal – generic – int".
Proof.
  intros (scenario & category & data & series & point
          & Hscenario & Hcategory & Hdata & Hseries & _).
  rewrite scenarioA_scenario in Hscenario. injection Hscenario as <-.
  destruct Hcategory as [<-|[<-|[]]]; [destruct Hdata|].
  destruct Hdata as [<-|[]]. destruct Hseries.
Qed.

(** C7, amended.  In the worked scenario the name
    [BenchmarkEqual_generic/int-8] resolves to the function [equal], and the
    version pattern [_generic$], anchored at the end of the text, does not
    match it; the measurement's value is copied to its record as it is.  A
    record classified as function [equal], version [generic], context [int]
    for the ns-per-op metric with value [x] yields, in the category, the
    [CategoryData] of (ns-per-op, generic) with one series, titled by the
    version, that holds one point: its label is ["equal - generic - int"]
    (function, version, context, joined by a hyphen-minus between spaces)
    and its value is [x]. *)
Theorem C7_label_and_raw_value (x : float) :
  config.Config.FindFunction scenarioA.cfg scenarioA.name = ("equal", true)
  /\ config.Config.FindVersion scenarioA.cfg scenarioA.name = ("", false)
  /\ map organizer.ParsedBenchmark.Value
       (organizer.BenchmarkSet.set
          (fst (organizer.Organizer.parseBenchmarks scenarioA.organizer_
                  (scenarioA.sets x))))
     = [x]
  /\ organizer.BenchmarkSet.SeriesFor
       (organizer.BenchmarkSet.mk [scenarioA.classified x])
       config.MetricNsPerOp "generic" scenarioA.category
     = Some [model.MetricSeries.mk "generic"
               [model.MetricPoint.mk "equal - generic - int" x]]
  /\ exists scenario,
       organizer.Organizer.populateCategories scenarioA.organizer_
         (organizer.BenchmarkSet.mk [scenarioA.classified x]) = Some scenario
       /\ In (model.Category.mk "all" "All benchmarks" ""
                [model.CategoryData.mk scenarioA.vGeneric scenarioA.mNsPerOp
                   [model.MetricSeries.mk "generic"
                      [model.MetricPoint.mk "equal - generic - int" x]]])
             (model.Scenario.Categories scenario).
Proof.
  split; [vm_compute; reflexivity|]. split; [vm_compute; reflexivity|].
  split; [vm_compute; reflexivity|]. split; [vm_compute; reflexivity|].
  eexists. split; [vm_compute; reflexivity|]. right. left. reflexivity.
Qed.

(** *** The two encodings of a report *)

Lemma append_nil_l (s : string) : "" +:+ s = s.
Proof. reflexivity. Qed.

Lemma append_cons (c : ascii) (s1 s2 : string) :
  String c s1 +:+ s2 = String c (s1 +:+ s2).
Proof. reflexivity. Qed.

Lemma append_nil_r (s : string) : s +:+ "" = s.
Proof. induction s as [|c s IH]; [done|]. by rewrite append_cons, IH. Qed.

Lemma append_assoc (s1 s2 s3 : string) : (s1 +:+ s2) +:+ s3 = s1 +:+ (s2 +:+ s3).
Proof. induction s1 as [|c s1 IH]; [done|]. by rewrite !append_cons, IH. Qed.

Lemma concat_cons (s : string) (l : list string) :
  String.concat "" (s :: l) = s +:+ String.concat "" l.
Proof. destruct l; cbn [String.concat]; [by rewrite append_nil_r|done]. Qed.

Lemma SplitByte_nonempty (s : string) (sep : ascii) : strings.SplitByte s sep <> [].
Proof.
  destruct s as [|c s]; cbn; [done|].
  destruct (Ascii.eqb c sep); [done|]. by destruct (strings.SplitByte s sep).
Qed.

(** Splitting at line feeds gives back a line that has none. *)
Lemma SplitByte_line (line rest : string) :
  encoding.hasByte bufio.LF line = false ->
  strings.SplitByte (line +:+ String bufio.LF rest) bufio.LF
  = line :: strings.SplitByte rest bufio.LF.
Proof.
  induction line as [|c line IH]; intros Hline.
  - rewrite append_nil_l. cbn [strings.SplitByte]. by rewrite Ascii.eqb_refl.
  - cbn [encoding.hasByte] in Hline. apply orb_false_iff in Hline as [Hc Hline].
    rewrite append_cons. cbn [strings.SplitByte]. rewrite Hc, (IH Hline). done.
Qed.

Lemma SplitByte_stream (lines : list string) :
  Forall (fun line => encoding.hasByte bufio.LF line = false) lines ->
  strings.SplitByte (encoding.stream lines) bufio.LF = lines ++ [""].
Proof.
  unfold encoding.stream. induction 1 as [|line lines Hline _ IH]; [done|].
  cbn [map]. rewrite concat_cons, append_assoc, append_cons, append_nil_l.
  by rewrite (SplitByte_line _ _ Hline), IH.
Qed.

(** The scanner delivers the lines of a stream one by one, without error,
    when none is too long. *)
Lemma scanSegments_lines (lines : list string) :
  Forall (fun line => bufio.tooLong line = false) lines ->
  bufio.scanSegments (lines ++ [""]) = (map bufio.dropCR lines, None).
Proof.
  induction 1 as [|line lines Hline _ IH]; [done|].
  cbn [app map bufio.scanSegments]. rewrite Hline, IH.
  destruct (lines ++ [""]) eqn:Hl; [by destruct lines|done].
Qed.

Lemma ScanLines_stream (lines : list string) :
  Forall encoding.eventLine lines ->
  bufio.ScanLines (encoding.stream lines) = (lines, None).
Proof.
  intros Hlines. unfold bufio.ScanLines.
  rewrite SplitByte_stream, scanSegments_lines.
  - f_equal. induction Hlines as [|line lines (_ & _ & Hcr & _) _ IH]; [done|].
    cbn [map]. by rewrite Hcr, IH.
  - eapply Forall_impl; [exact Hlines|]. by intros line (_ & _ & _ & ?).
  - eapply Forall_impl; [exact Hlines|]. by intros line (_ & ? & _ & _).
Qed.

(** The loop of [parseJSON] collects what the lines carry. *)
Lemma parseJSON_lines_carried `{parser.Lib} (lines : list string) (textOutput : string) :
  Forall encoding.eventLine lines ->
  fold_left parser.parseJSON_line lines textOutput
  = textOutput +:+ encoding.carried lines.
Proof.
  unfold encoding.carried. intros Hlines. revert textOutput.
  induction Hlines as [|line lines (Hne & _) _ IH]; intros textOutput.
  - cbn [fold_left map String.concat]. by rewrite append_nil_r.
  - cbn [fold_left map]. rewrite IH, concat_cons, <- append_assoc. f_equal.
    unfold parser.parseJSON_line, encoding.payload.
    destruct line as [|c line]; [done|]. cbn [String.length Nat.eqb].
    destruct (parser.json_Unmarshal _) as [event|]; [|by rewrite append_nil_r].
    destruct (String.eqb (parser.testEvent.Action event) "output");
      [|by rewrite append_nil_r].
    cbn [andb]. destruct (String.eqb_spec (parser.testEvent.Output event) "") as [->|_].
    + cbn [negb]. by rewrite append_nil_r.
    + done.
Qed.

(** A line too long for the scanner makes [parseJSON] fail, whatever the
    decoder and the benchmark parser. *)
Lemma parseJSON_scan_error `{parser.Lib} (input : string) (err : errors.error) :
  snd (bufio.ScanLines input) = Some err ->
  parser.parseJSON input = (parser.Set_.zero, Some (errors.Errorf "scanning input: %w" [errors.Wrapped err])).
Proof.
  unfold parser.parseJSON. destruct (bufio.ScanLines input) as [lines scanErr].
  cbn [snd]. by intros ->.
Qed.

(** C8, as stated, fails: the report [longText] is one line of 65530 bytes,
    which the plain-text path parses; the event that carries it is a line
    of more than 65536 bytes, on which the scanner of the event path stops
    with [ErrTooLong], so that path returns the zero [Set]. *)
Lemma C8_counterexample :
  String.eqb (@encoding.carried example.lib [example.longLine]) example.longText = true
  /\ @parser.parseJSON example.lib (encoding.stream [example.longLine])
     = (parser.Set_.zero,
        Some (errors.Errorf "scanning input: %w" [errors.Wrapped errors.ErrTooLong]))
  /\ @parser.parseText example.lib example.longText
     = (parser.Set_.mk [] "" "unknown environment", None)
  /\ fst (@parser.parseJSON example.lib (encoding.stream [example.longLine]))
     <> fst (@parser.parseText example.lib example.longText).
Proof.
  split; [vm_compute; reflexivity|]. split; [vm_compute; reflexivity|].
  split; [vm_compute; reflexivity|]. vm_compute. discriminate.
Qed.

(** C8, amended.  When every line of the event stream is an event line
    that the scanner delivers whole (in particular, shorter than 65536
    bytes), the event path returns the same [Set] (measurements and
    environment) as the plain-text path on the text that the stream carries
    in the [Output] of its [output] events, in order; it fails exactly when
    the plain-text path fails, with that error wrapped; and the parsers of
    the two encodings hold the same sets after [ParseFiles], from which
    [Scenarize] returns the same scenario and the same diagnostics. *)
Theorem C8_encodings_agree (L : parser.Lib) (lines : list string) :
  Forall encoding.eventLine lines ->
  let text := encoding.carried lines in
  let events := encoding.stream lines in
  fst (parser.parseJSON events) = fst (parser.parseText text)
  /\ snd (parser.parseJSON events)
     = option_map (fun err =>
                     errors.Errorf "parsing benchmark output: %w" [errors.Wrapped err])
         (snd (parser.parseText text))
  /\ forall (file : string) (v : organizer.Organizer.t),
       let fromEvents :=
         parser.Sets (fst (parser.ParseFiles (fun _ => inl events) events
                             (parser.mkParser true []) [file])) in
       let fromText :=
         parser.Sets (fst (parser.ParseFiles (fun _ => inl text) text
                             (parser.mkParser false []) [file])) in
       fromEvents = fromText
       /\ organizer.Organizer.Scenarize v fromEvents
          = organizer.Organizer.Scenarize v fromText.
Proof.
  intros Hlines text events.
  assert (Hjson : parser.parseJSON events
                  = match parser.parseText text with
                    | (set, err) =>
                        (set, option_map (fun err =>
                     errors.Errorf "parsing benchmark output: %w" [errors.Wrapped err]) err)
                    end).
  { unfold parser.parseJSON, parser.parseText, events.
    rewrite (ScanLines_stream lines Hlines), (parseJSON_lines_carried lines "" Hlines).
    rewrite append_nil_l. fold text.
    destruct (parser.parse_ParseSet text) as [set [err|]]; reflexivity. }
  split; [|split].
  - rewrite Hjson. by destruct (parser.parseText text).
  - rewrite Hjson. by destruct (parser.parseText text).
  - intros file v fromEvents fromText.
    assert (Heq : fromEvents = fromText).
    { unfold fromEvents, fromText. cbn [parser.ParseFiles].
      destruct (String.eqb file "-"); unfold parser.ParseInput; cbn [parser.isJSON];
        rewrite Hjson; destruct (parser.parseText text) as [set [err|]]; reflexivity. }
    split; [exact Heq|]. by rewrite Heq.
Qed.

(** C8 at the worked report: five events, three of which carry the
    lines. *)
Lemma C8_encodings_agree_witness :
  fst (@parser.parseJSON example.lib (encoding.stream example.reportLines))
  = fst (@parser.parseText example.lib
           (@encoding.carried example.lib example.reportLines)).
Proof.
  apply (C8_encodings_agree example.lib example.reportLines).
  repeat constructor; vm_compute; (discriminate || reflexivity).
Defined.

(* ===================================================================== *)
(** ** Further properties *)
(* ===================================================================== *)

(** *** Loading: the catalogs and their indices *)

Lemma indexObjects_keys {A : Type} (caser : string -> string) (object : A -> config.Object.t)
    (update : A -> config.Object.t -> A) (emptyID duplicateID : string)
    (items : list A) (i : nat) (index index' : gmap string A) :
  config.indexObjects caser object update emptyID duplicateID i items index = inl index' ->
  ~ In "" (catalog.ids object items)
  /\ NoDup (catalog.ids object items)
  /\ (forall id, In id (catalog.ids object items) -> index !! id = None)
  /\ (forall id, is_Some (index' !! id)
                 <-> is_Some (index !! id) \/ In id (catalog.ids object items)).
Proof.
  revert i index. induction items as [|item items IH]; intros i index Hrun.
  { cbn in Hrun. injection Hrun as <-.
    split; [by intros []|]. split; [by apply NoDup_nil|]. split; [by intros id []|].
    intros id. split; [by left|by intros [?|[]]]. }
  cbn [config.indexObjects] in Hrun.
  destruct (String.eqb_spec (config.Object.ID (object item)) "") as [|Hid]; [done|].
  destruct (index !! config.Object.ID (object item)) eqn:Hlook; [done|].
  cbn [config.isNil] in Hrun. apply IH in Hrun as (Hempty & Hnodup & Hfresh & Hkeys).
  cbn [catalog.ids map]. fold (catalog.ids object items). repeat split.
  - intros [Heq|Hin]; [by apply Hid|by apply Hempty].
  - apply NoDup_cons. split; [|done]. intros Hin%list_elem_of_In.
    apply Hfresh in Hin. by rewrite lookup_insert_eq in Hin.
  - intros id [<-|Hin]; [done|]. apply Hfresh in Hin.
    destruct (decide (config.Object.ID (object item) = id)) as [<-|Hne].
    + by rewrite lookup_insert_eq in Hin.
    + by rewrite lookup_insert_ne in Hin.
  - rewrite Hkeys. intros [Hsome|Hin]; [|by right; right].
    destruct (decide (config.Object.ID (object item) = id)) as [<-|Hne].
    + right. by left.
    + rewrite lookup_insert_ne in Hsome by done. by left.
  - rewrite Hkeys. intros [Hsome|[<-|Hin]].
    + left. destruct (decide (config.Object.ID (object item) = id)) as [<-|Hne].
      * by rewrite Hlook in Hsome; destruct Hsome.
      * by rewrite lookup_insert_ne.
    + left. rewrite lookup_insert_eq. by eexists.
    + by right.
Qed.

Lemma indexObjects_indexes {A : Type} (caser : string -> string)
    (object : A -> config.Object.t) (update : A -> config.Object.t -> A)
    (emptyID duplicateID : string) (items : list A) (index' : gmap string A) :
  (forall a o, object (update a o) = o) ->
  config.indexObjects caser object update emptyID duplicateID 0 items ∅ = inl index' ->
  catalog.indexes object index' items.
Proof.
  intros Hupdate Hrun. pose proof Hrun as Hkeys.
  apply indexObjects_keys in Hkeys as (Hempty & Hnodup & _ & Hkeys).
  repeat split; try done.
  - rewrite Hkeys. intros [Hsome|Hin]; [|done].
    rewrite lookup_empty in Hsome. by destruct Hsome.
  - rewrite Hkeys. by right.
  - intros id v Hv.
    eapply (indexObjects_named caser) in Hrun as [Hid _]; [exact Hid|done| |exact Hv].
    intros id' v'. by rewrite lookup_empty.
Qed.

(** The stages of a successful [load], one hypothesis each. *)
Ltac load_stages Hload raw :=
  unfold config.load in Hload;
  let functionIndex := fresh "functionIndex" in
  let contextIndex := fresh "contextIndex" in
  let versionIndex := fresh "versionIndex" in
  let metricIndex := fresh "metricIndex" in
  let functions := fresh "functions" in
  let contexts := fresh "contexts" in
  let versions := fresh "versions" in
  let files := fresh "files" in
  let Hdecode := fresh "Hdecode" in
  let HfunctionIndex := fresh "HfunctionIndex" in
  let HcontextIndex := fresh "HcontextIndex" in
  let HversionIndex := fresh "HversionIndex" in
  let HmetricIndex := fresh "HmetricIndex" in
  let Hcategories := fresh "Hcategories" in
  let Hfunctions := fresh "Hfunctions" in
  let Hcontexts := fresh "Hcontexts" in
  let Hversions := fresh "Hversions" in
  let Hfiles := fresh "Hfiles" in
  apply bind_inl in Hload as (raw & Hdecode & Hload);
  apply bind_inl in Hload as (functionIndex & HfunctionIndex & Hload);
  apply bind_inl in Hload as (contextIndex & HcontextIndex & Hload);
  apply bind_inl in Hload as (versionIndex & HversionIndex & Hload);
  apply bind_inl in Hload as (metricIndex & HmetricIndex & Hload);
  apply bind_inl in Hload as ([] & Hcategories & Hload);
  apply bind_inl in Hload as (functions & Hfunctions & Hload);
  apply bind_inl in Hload as (contexts & Hcontexts & Hload);
  apply bind_inl in Hload as (versions & Hversions & Hload);
  apply bind_inl in Hload as (files & Hfiles & Hload);
  injection Hload as <-.

Lemma compileRex_agrees compile (o : config.Object.t) ms :
  config.compileRex compile o = inl ms ->
  loaded.agrees compile (config.Object.Match o) (fst ms)
  /\ loaded.agrees compile (config.Object.NotMatch o) (snd ms).
Proof.
  unfold config.compileRex, loaded.agrees. intros Hc.
  apply bind_inl in Hc as (m & Hm & Hc). apply bind_inl in Hc as (n & Hn & [= <-]).
  cbn [fst snd]. split.
  - destruct (String.eqb (config.Object.Match o) ""); cbn [negb] in Hm.
    + by injection Hm as <-.
    + apply bind_inl in Hm as (re & Hre & [= <-]). by exists re.
  - destruct (String.eqb (config.Object.NotMatch o) ""); cbn [negb] in Hn.
    + by injection Hn as <-.
    + apply bind_inl in Hn as (re & Hre & [= <-]). by exists re.
Qed.

Lemma compileObjects_compiled {A : Type} compile (object : A -> config.Object.t)
    (update : A -> config.Object.t -> A) wrap i (items items' : list A) :
  (forall a o, object (update a o) = o) ->
  config.compileObjects compile object update wrap i items = inl items' ->
  Forall2 (fun a a' => loaded.keeps (object a) (object a')
                       /\ loaded.compiled compile (object a')) items items'.
Proof.
  intros Hupdate. revert i items'.
  induction items as [|a items IH]; intros i items' Hrun.
  { cbn in Hrun. injection Hrun as <-. constructor. }
  cbn [config.compileObjects] in Hrun.
  destruct (config.compileRex compile (object a)) as [ms|err] eqn:Hrex; [|done].
  apply bind_inl in Hrun as (rest & Hrest & [= <-]).
  constructor; [|by eapply IH]. rewrite Hupdate. split; [done|].
  apply compileRex_agrees in Hrex as [Hm Hn]. by split.
Qed.

Lemma compileObjects_ids {A : Type} compile (object : A -> config.Object.t)
    (update : A -> config.Object.t -> A) wrap i (items items' : list A) :
  (forall a o, object (update a o) = o) ->
  config.compileObjects compile object update wrap i items = inl items' ->
  catalog.ids object items' = catalog.ids object items.
Proof.
  intros Hupdate Hrun. eapply compileObjects_compiled in Hrun; [|done].
  induction Hrun as [|a a' items items' [(Hid & _) _] _ IH]; [done|].
  cbn [catalog.ids map]. fold (catalog.ids object items) (catalog.ids object items').
  by rewrite Hid, IH.
Qed.

Lemma indexes_ids {A : Type} (object : A -> config.Object.t) (index : gmap string A)
    (items items' : list A) :
  catalog.ids object items' = catalog.ids object items ->
  catalog.indexes object index items -> catalog.indexes object index items'.
Proof. unfold catalog.indexes. by intros ->. Qed.

(** X1. In a configuration that [load] returns, each of the three catalogs
    (functions, contexts, versions) has no entry with the empty identifier
    and no two entries with the same identifier, and its index holds
    exactly the identifiers of the catalog, each mapped to an entry that
    bears it. *)
Theorem load_catalogs_indexed decode compile caser file cfg :
  config.load decode compile caser file = inl cfg ->
  catalog.indexes config.Function.Object (config.Config.functionIndex cfg)
    (config.Config.Functions cfg)
  /\ catalog.indexes config.Context.Object (config.Config.contextIndex cfg)
       (config.Config.Contexts cfg)
  /\ catalog.indexes config.Version.Object (config.Config.versionIndex cfg)
       (config.Config.Versions cfg).
Proof.
  intros Hload. load_stages Hload raw.
  cbn [config.Config.functionIndex config.Config.contextIndex config.Config.versionIndex
       config.Config.Functions config.Config.Contexts config.Config.Versions].
  split; [|split].
  - eapply indexes_ids; [by eapply compileObjects_ids; [|exact Hfunctions]|].
    by eapply (indexObjects_indexes caser); [|exact HfunctionIndex].
  - eapply indexes_ids; [by eapply compileObjects_ids; [|exact Hcontexts]|].
    by eapply (indexObjects_indexes caser); [|exact HcontextIndex].
  - eapply indexes_ids; [by eapply compileObjects_ids; [|exact Hversions]|].
    by eapply (indexObjects_indexes caser); [|exact HversionIndex].
Qed.

Lemma load_catalogs_indexed_witness :
  catalog.indexes config.Function.Object (config.Config.functionIndex example.cfg)
    (config.Config.Functions example.cfg)
  /\ catalog.indexes config.Context.Object (config.Config.contextIndex example.cfg)
       (config.Config.Contexts example.cfg)
  /\ catalog.indexes config.Version.Object (config.Config.versionIndex example.cfg)
       (config.Config.Versions example.cfg).
Proof.
  apply (load_catalogs_indexed (fun _ => inl example.document) example.compile
           (fun s => s) "benchviz.yaml").
  apply example_loaded.
Defined.

(** X2. [load] compiles every pattern of the three catalogs or fails: in
    the configuration it returns, each catalog has the decoded entries in
    their order, with identifier, title and patterns as decoded, and each
    entry has a matcher exactly for each pattern that is not empty, the one
    the compiler returns for it.  Name, environment, metrics and categories
    are returned as decoded. *)
Theorem load_patterns_compiled decode compile caser file cfg :
  config.load decode compile caser file = inl cfg ->
  exists raw,
    decode file = inl raw
    /\ Forall2 (fun a a' =>
                  loaded.keeps (config.Function.Object a) (config.Function.Object a')
                  /\ loaded.compiled compile (config.Function.Object a'))
         (config.Config.Functions raw) (config.Config.Functions cfg)
    /\ Forall2 (fun a a' =>
                  loaded.keeps (config.Context.Object a) (config.Context.Object a')
                  /\ loaded.compiled compile (config.Context.Object a'))
         (config.Config.Contexts raw) (config.Config.Contexts cfg)
    /\ Forall2 (fun a a' =>
                  loaded.keeps (config.Version.Object a) (config.Version.Object a')
                  /\ loaded.compiled compile (config.Version.Object a'))
         (config.Config.Versions raw) (config.Config.Versions cfg)
    /\ config.Config.Name cfg = config.Config.Name raw
    /\ config.Config.Environment cfg = config.Config.Environment raw
    /\ config.Config.Metrics cfg = config.Config.Metrics raw
    /\ config.Config.Categories cfg = config.Config.Categories raw.
Proof.
  intros Hload. load_stages Hload raw. exists raw. split; [done|].
  cbn [config.Config.Functions config.Config.Contexts config.Config.Versions
       config.Config.Name config.Config.Environment config.Config.Metrics
       config.Config.Categories].
  split; [by eapply compileObjects_compiled; [|exact Hfunctions]|].
  split; [by eapply compileObjects_compiled; [|exact Hcontexts]|].
  split; [by eapply compileObjects_compiled; [|exact Hversions]|].
  done.
Qed.

Lemma load_patterns_compiled_witness :
  exists raw,
    @inl config.Config.t errors.error example.document = inl raw
    /\ Forall2 (fun a a' =>
                  loaded.keeps (config.Function.Object a) (config.Function.Object a')
                  /\ loaded.compiled example.compile (config.Function.Object a'))
         (config.Config.Functions raw) (config.Config.Functions example.cfg)
    /\ Forall2 (fun a a' =>
                  loaded.keeps (config.Context.Object a) (config.Context.Object a')
                  /\ loaded.compiled example.compile (config.Context.Object a'))
         (config.Config.Contexts raw) (config.Config.Contexts example.cfg)
    /\ Forall2 (fun a a' =>
                  loaded.keeps (config.Version.Object a) (config.Version.Object a')
                  /\ loaded.compiled example.compile (config.Version.Object a'))
         (config.Config.Versions raw) (config.Config.Versions example.cfg)
    /\ config.Config.Name example.cfg = config.Config.Name raw
    /\ config.Config.Environment example.cfg = config.Config.Environment raw
    /\ config.Config.Metrics example.cfg = config.Config.Metrics raw
    /\ config.Config.Categories example.cfg = config.Config.Categories raw.
Proof.
  apply (load_patterns_compiled (fun _ => inl example.document) example.compile
           (fun s => s) "benchviz.yaml").
  apply example_loaded.
Defined.

Lemma checkMetricRefs_found (index : gmap config.MetricName config.Metric.t) categoryID refs j :
  config.checkMetricRefs index categoryID j refs = inl tt ->
  (forall ref, In ref refs -> is_Some (index !! ref))
  /\ (refs = [] \/ j + length refs <= 2)%nat.
Proof.
  revert j. induction refs as [|r refs IH]; intros j Hcheck.
  { split; [by intros ref []|by left]. }
  cbn [config.checkMetricRefs] in Hcheck. destruct (index !! r) eqn:Hr; [|done].
  cbn [config.isNil] in Hcheck. destruct (Nat.ltb_spec 1 j) as [|Hj]; [done|].
  apply IH in Hcheck as [Hfound Hlen]. split.
  - intros ref [<-|Hin]; [by eexists|by apply Hfound].
  - right. destruct Hlen as [->|Hlen]; cbn [length]; lia.
Qed.

Lemma validateCategories_valid functionIndex contextIndex versionIndex metricIndex
    categories i :
  config.validateCategories functionIndex contextIndex versionIndex metricIndex i categories
  = inl tt ->
  forall v, In v categories ->
    let includes := config.Category.Includes v in
    config.Category.ID v <> ""
    /\ (1 <= length (config.Includes.Metrics includes) <= 2)%nat
    /\ (forall id, In id (config.Includes.Functions includes) ->
          is_Some (functionIndex !! id))
    /\ (forall id, In id (config.Includes.Contexts includes) ->
          is_Some (contextIndex !! id))
    /\ (forall id, In id (config.Includes.Versions includes) ->
          is_Some (versionIndex !! id))
    /\ (forall id, In id (config.Includes.Metrics includes) ->
          is_Some (metricIndex !! id)).
Proof.
  revert i. induction categories as [|c categories IH]; intros i Hrun v; [intros []|].
  cbn [config.validateCategories] in Hrun. apply bind_inl in Hrun as ([] & Hv & Hrun).
  intros [<-|Hin]; [|by eapply IH]. clear IH Hrun.
  unfold config.validateCategory in Hv.
  destruct (String.eqb_spec (config.Category.ID c) "") as [|Hid]; [done|].
  apply bind_inl in Hv as ([] & Hf & Hv). apply bind_inl in Hv as ([] & Hc & Hv).
  apply bind_inl in Hv as ([] & Hvs & Hv). apply bind_inl in Hv as ([] & Hm & Hv).
  destruct (Nat.eqb_spec (length (config.Includes.Metrics (config.Category.Includes c))) 0)
    as [|Hlen]; [done|].
  apply checkMetricRefs_found in Hm as [Hm Hmax].
  cbv zeta. split; [done|]. split.
  { destruct Hmax as [Hnil|Hmax]; [by rewrite Hnil in Hlen|lia]. }
  split; [by eapply checkRefs_found|]. split; [by eapply checkRefs_found|].
  split; [by eapply checkRefs_found|done].
Qed.

(** X3. Every category of a configuration that [load] returns has an
    identifier that is not empty and includes one or two metrics, and each
    function, context, version and metric it includes is found by the
    lookup of its catalog. *)
Theorem load_categories_valid decode compile caser file cfg :
  config.load decode compile caser file = inl cfg ->
  Forall (loaded.validCategory cfg) (config.Config.Categories cfg).
Proof.
  intros Hload. load_stages Hload raw. cbn [config.Config.Categories].
  apply Forall_forall. intros v Hin%list_elem_of_In.
  destruct (validateCategories_valid _ _ _ _ _ _ Hcategories v Hin)
    as (Hid & Hlen & Hf & Hc & Hv & Hm).
  unfold loaded.validCategory, config.Config.GetFunction, config.Config.GetContext,
    config.Config.GetVersion, config.Config.GetMetric.
  cbn [config.Config.functionIndex config.Config.contextIndex config.Config.versionIndex
       config.Config.metricIndex].
  split; [done|]. split; [done|].
  split; [intros id [x ->]%Hf; done|]. split; [intros id [x ->]%Hc; done|].
  split; [intros id [x ->]%Hv; done|]. intros id [x ->]%Hm; done.
Qed.

Lemma load_categories_valid_witness :
  Forall (loaded.validCategory example.cfg) (config.Config.Categories example.cfg).
Proof.
  apply (load_categories_valid (fun _ => inl example.document) example.compile
           (fun s => s) "benchviz.yaml").
  apply example_loaded.
Defined.

(** *** Loading: what the indices hold *)

Lemma indexObjects_entries {A : Type} (caser : string -> string)
    (object : A -> config.Object.t) (update : A -> config.Object.t -> A)
    (emptyID duplicateID : string) (items : list A) (i : nat)
    (index index' : gmap string A) :
  config.indexObjects caser object update emptyID duplicateID i items index = inl index' ->
  forall id v,
    index' !! id = Some v
    <-> index !! id = Some v
        \/ exists a, In a items /\ config.Object.ID (object a) = id
                     /\ v = loaded.titled caser object update a.
Proof.
  revert i index. induction items as [|item items IH]; intros i index Hrun id v.
  { cbn in Hrun. injection Hrun as <-. split; [by left|]. by intros [?|(a & [] & _)]. }
  cbn [config.indexObjects] in Hrun.
  destruct (String.eqb_spec (config.Object.ID (object item)) "") as [|Hid]; [done|].
  destruct (index !! config.Object.ID (object item)) eqn:Hlook; [done|].
  cbn [config.isNil] in Hrun. rewrite (IH _ _ Hrun id v). clear IH Hrun.
  fold (loaded.titled caser object update item). split.
  - intros [Hv|(a & Ha & Hida & ->)].
    + destruct (decide (config.Object.ID (object item) = id)) as [<-|Hne].
      * rewrite lookup_insert_eq in Hv. injection Hv as <-.
        right. exists item. split; [by left|done].
      * rewrite lookup_insert_ne in Hv by done. by left.
    + right. exists a. split; [by right|done].
  - intros [Hv|(a & [<-|Ha] & Hida & ->)].
    + left. rewrite lookup_insert_ne; [done|]. intros <-. by rewrite Hlook in Hv.
    + left. subst id. by rewrite lookup_insert_eq.
    + right. by exists a.
Qed.

Lemma indexMetrics_entries (caser : string -> string) (items : list config.Metric.t)
    (i : nat) (index index' : gmap config.MetricName config.Metric.t) :
  config.indexMetrics caser i items index = inl index' ->
  Forall (fun m => config.IsValid (config.Metric.ID m) = true) items
  /\ NoDup (map config.Metric.ID items)
  /\ (forall m, In m items -> index !! config.Metric.ID m = None)
  /\ forall id v,
       index' !! id = Some v
       <-> index !! id = Some v
           \/ exists m, In m items /\ config.Metric.ID m = id
                        /\ v = loaded.titledMetric caser m.
Proof.
  revert i index. induction items as [|item items IH]; intros i index Hrun.
  { cbn in Hrun. injection Hrun as <-. split; [constructor|].
    split; [by apply NoDup_nil|]. split; [by intros m []|].
    intros id v. split; [by left|]. by intros [?|(a & [] & _)]. }
  cbn [config.indexMetrics] in Hrun.
  destruct (String.eqb_spec (config.Metric.ID item) "") as [|Hid]; [done|].
  destruct (config.IsValid (config.Metric.ID item)) eqn:Hvalid; [|done].
  cbn [negb] in Hrun.
  destruct (index !! config.Metric.ID item) eqn:Hlook; [done|].
  cbn [config.isNil] in Hrun. fold (loaded.titledMetric caser item) in Hrun.
  apply IH in Hrun as (Hall & Hnodup & Hfresh & Hentries). clear IH.
  split; [by constructor|]. split; [|split].
  - cbn [map]. apply NoDup_cons. split; [|done].
    intros (m & Heq & Hm%list_elem_of_In)%list_elem_of_fmap.
    apply Hfresh in Hm. rewrite <- Heq in Hm. by rewrite lookup_insert_eq in Hm.
  - intros m [<-|Hm]; [done|]. apply Hfresh in Hm.
    destruct (decide (config.Metric.ID item = config.Metric.ID m)) as [Heq|Hne].
    + rewrite <- Heq in Hm. by rewrite lookup_insert_eq in Hm.
    + by rewrite lookup_insert_ne in Hm.
  - intros id v. rewrite Hentries. split.
    + intros [Hv|(a & Ha & Hida & ->)].
      * destruct (decide (config.Metric.ID item = id)) as [<-|Hne].
        -- rewrite lookup_insert_eq in Hv. injection Hv as <-.
           right. exists item. split; [by left|done].
        -- rewrite lookup_insert_ne in Hv by done. by left.
      * right. exists a. split; [by right|done].
    + intros [Hv|(a & [<-|Ha] & Hida & ->)].
      * left. rewrite lookup_insert_ne; [done|]. intros <-. by rewrite Hlook in Hv.
      * left. subst id. by rewrite lookup_insert_eq.
      * right. by exists a.
Qed.

Lemma IsValid_AllMetricNames (m : config.MetricName) :
  config.IsValid m = true <-> In m config.AllMetricNames.
Proof.
  unfold config.IsValid, config.AllMetricNames. cbn [In].
  rewrite !orb_true_iff, !String.eqb_eq. intuition congruence.
Qed.

Lemma Get_lookup {A : Type} (index : gmap string A) (zero : A) id v :
  match index !! id with Some v => (v, true) | None => (zero, false) end = (v, true)
  <-> index !! id = Some v.
Proof. destruct (index !! id); split; congruence. Qed.

(** X4. The metrics of a configuration that [load] returns are at most
    four, their identifiers are distinct and all in the closed enumeration
    (nsPerOp, allocsPerOp, bytesPerOp, MBytesPerS), and [GetMetric] finds
    exactly them: what it returns for an identifier is the declared metric
    with that identifier, with the title derived from the identifier when
    none is declared. *)
Theorem load_metrics_valid decode compile caser file cfg :
  config.load decode compile caser file = inl cfg ->
  (length (config.Config.Metrics cfg) <= 4)%nat
  /\ NoDup (map config.Metric.ID (config.Config.Metrics cfg))
  /\ Forall (fun m => In (config.Metric.ID m) config.AllMetricNames)
       (config.Config.Metrics cfg)
  /\ forall id v,
       config.Config.GetMetric cfg id = (v, true)
       <-> exists m, In m (config.Config.Metrics cfg) /\ config.Metric.ID m = id
                     /\ v = loaded.titledMetric caser m.
Proof.
  intros Hload. load_stages Hload raw.
  cbn [config.Config.Metrics]. unfold config.Config.GetMetric.
  cbn [config.Config.metricIndex].
  apply indexMetrics_entries in HmetricIndex as (Hvalid & Hnodup & _ & Hentries).
  assert (Hin : Forall (fun m => In (config.Metric.ID m) config.AllMetricNames)
                  (config.Config.Metrics raw)).
  { eapply Forall_impl; [exact Hvalid|]. intros m. apply IsValid_AllMetricNames. }
  split; [|split; [done|split; [done|]]].
  - rewrite <- (length_map config.Metric.ID).
    change 4%nat with (length config.AllMetricNames).
    apply NoDup_incl_length; [by apply NoDup_ListNoDup|].
    intros id (m & <- & Hm)%in_map_iff.
    rewrite Forall_forall in Hin. by apply Hin, list_elem_of_In.
  - intros id v. rewrite Get_lookup, Hentries. rewrite lookup_empty.
    split; [by intros [?|?]|by right].
Qed.

Lemma load_metrics_valid_witness :
  (length (config.Config.Metrics example.cfg) <= 4)%nat
  /\ NoDup (map config.Metric.ID (config.Config.Metrics example.cfg))
  /\ Forall (fun m => In (config.Metric.ID m) config.AllMetricNames)
       (config.Config.Metrics example.cfg)
  /\ forall id v,
       config.Config.GetMetric example.cfg id = (v, true)
       <-> exists m, In m (config.Config.Metrics example.cfg)
                     /\ config.Metric.ID m = id
                     /\ v = loaded.titledMetric (fun s => s) m.
Proof.
  apply (load_metrics_valid (fun _ => inl example.document) example.compile
           (fun s => s) "benchviz.yaml").
  apply example_loaded.
Defined.

(** X5. The indices of a configuration that [load] returns hold the
    entries as decoded, not as compiled: what [GetFunction], [GetContext]
    and [GetVersion] return for an identifier is the decoded entry with
    that identifier, with the title derived from the identifier when the
    document gives none. *)
Theorem load_index_entries decode compile caser file cfg :
  config.load decode compile caser file = inl cfg ->
  exists raw,
    decode file = inl raw
    /\ (forall id v,
          config.Config.GetFunction cfg id = (v, true)
          <-> exists a, In a (config.Config.Functions raw)
                        /\ config.Object.ID (config.Function.Object a) = id
                        /\ v = loaded.titled caser config.Function.Object
                                 (fun _ o => config.Function.mk o) a)
    /\ (forall id v,
          config.Config.GetContext cfg id = (v, true)
          <-> exists a, In a (config.Config.Contexts raw)
                        /\ config.Object.ID (config.Context.Object a) = id
                        /\ v = loaded.titled caser config.Context.Object
                                 (fun _ o => config.Context.mk o) a)
    /\ (forall id v,
          config.Config.GetVersion cfg id = (v, true)
          <-> exists a, In a (config.Config.Versions raw)
                        /\ config.Object.ID (config.Version.Object a) = id
                        /\ v = loaded.titled caser config.Version.Object
                                 (fun _ o => config.Version.mk o) a).
Proof.
  intros Hload. load_stages Hload raw. exists raw. split; [done|].
  unfold config.Config.GetFunction, config.Config.GetContext, config.Config.GetVersion.
  cbn [config.Config.functionIndex config.Config.contextIndex config.Config.versionIndex].
  split; [|split]; intros id v; rewrite Get_lookup.
  - rewrite (indexObjects_entries _ _ _ _ _ _ _ _ _ HfunctionIndex), lookup_empty.
    split; [by intros [?|?]|by right].
  - rewrite (indexObjects_entries _ _ _ _ _ _ _ _ _ HcontextIndex), lookup_empty.
    split; [by intros [?|?]|by right].
  - rewrite (indexObjects_entries _ _ _ _ _ _ _ _ _ HversionIndex), lookup_empty.
    split; [by intros [?|?]|by right].
Qed.

Lemma load_index_entries_witness :
  exists raw,
    @inl config.Config.t errors.error example.document = inl raw
    /\ (forall id v,
          config.Config.GetFunction example.cfg id = (v, true)
          <-> exists a, In a (config.Config.Functions raw)
                        /\ config.Object.ID (config.Function.Object a) = id
                        /\ v = loaded.titled (fun s => s) config.Function.Object
                                 (fun _ o => config.Function.mk o) a)
    /\ (forall id v,
          config.Config.GetContext example.cfg id = (v, true)
          <-> exists a, In a (config.Config.Contexts raw)
                        /\ config.Object.ID (config.Context.Object a) = id
                        /\ v = loaded.titled (fun s => s) config.Context.Object
                                 (fun _ o => config.Context.mk o) a)
    /\ (forall id v,
          config.Config.GetVersion example.cfg id = (v, true)
          <-> exists a, In a (config.Config.Versions raw)
                        /\ config.Object.ID (config.Version.Object a) = id
                        /\ v = loaded.titled (fun s => s) config.Version.Object
                                 (fun _ o => config.Version.mk o) a).
Proof.
  apply (load_index_entries (fun _ => inl example.document) example.compile
           (fun s => s) "benchviz.yaml").
  apply example_loaded.
Defined.

(** *** Loading: the file rules *)

Lemma compileNested_compiled {A : Type} compile (object : A -> config.Object.t)
    (update : A -> config.Object.t -> A) (index : gmap string A) notFound invalid i j
    (defs defs' : list A) :
  (forall a o, object (update a o) = o) ->
  config.compileNested compile object update index notFound invalid i j defs = inl defs' ->
  Forall2 (fun a a' => loaded.keeps (object a) (object a')) defs defs'
  /\ Forall (fun a' => loaded.compiled compile (object a')
                       /\ is_Some (index !! config.Object.ID (object a'))) defs'.
Proof.
  intros Hupdate. revert j defs'.
  induction defs as [|a defs IH]; intros j defs' Hrun.
  { cbn in Hrun. injection Hrun as <-. split; constructor. }
  cbn [config.compileNested] in Hrun.
  destruct (index !! config.Object.ID (object a)) eqn:Hlook; [|done].
  cbn [config.isNil] in Hrun.
  destruct (config.compileRex compile (object a)) as [ms|err] eqn:Hrex; [|done].
  apply bind_inl in Hrun as (rest & Hrest & [= <-]).
  apply IH in Hrest as [Hkeeps Hcompiled].
  split; (constructor; [|done]); rewrite Hupdate; [done|].
  apply compileRex_agrees in Hrex as [Hm Hn]. split; [by split|].
  cbn [config.withMatchers config.Object.ID]. rewrite Hlook. by eexists.
Qed.

Lemma compileFiles_valid compile (contextIndex : gmap string config.Context.t)
    (versionIndex : gmap string config.Version.t) i (files files' : list config.File.t) :
  config.compileFiles compile contextIndex versionIndex i files = inl files' ->
  Forall2 (fun f f' =>
             config.File.ID f' = config.File.ID f
             /\ config.File.MatchFile f' = config.File.MatchFile f
             /\ config.File.ID f <> ""
             /\ (config.File.MatchFile f = "" -> f' = f)
             /\ (config.File.MatchFile f <> "" ->
                 (exists re, compile (config.File.MatchFile f) = inl re
                             /\ config.File.match_ f' = Some re)
                 /\ Forall (fun a' =>
                              loaded.compiled compile (config.Context.Object a')
                              /\ is_Some (contextIndex
                                            !! config.Object.ID (config.Context.Object a')))
                      (config.File.Contexts f')
                 /\ Forall (fun a' =>
                              loaded.compiled compile (config.Version.Object a')
                              /\ is_Some (versionIndex
                                            !! config.Object.ID (config.Version.Object a')))
                      (config.File.Versions f')))
    files files'.
Proof.
  revert i files'. induction files as [|f files IH]; intros i files' Hrun.
  { cbn in Hrun. injection Hrun as <-. constructor. }
  cbn [config.compileFiles] in Hrun.
  destruct (String.eqb_spec (config.File.ID f) "") as [|Hid]; [done|].
  apply bind_inl in Hrun as (f' & Hf & Hrun).
  apply bind_inl in Hrun as (rest & Hrest & [= <-]).
  constructor; [|by eapply IH]. clear IH Hrest.
  destruct (String.eqb_spec (config.File.MatchFile f) "") as [Hempty|Hpattern];
    cbn [negb] in Hf.
  { injection Hf as <-. by repeat split. }
  apply bind_inl in Hf as (re & Hre & Hf). apply bind_inl in Hf as (contexts & Hc & Hf).
  apply bind_inl in Hf as (versions & Hv & [= <-]).
  cbn [config.File.ID config.File.MatchFile config.File.match_ config.File.Contexts
       config.File.Versions].
  apply compileNested_compiled in Hc as [_ Hc]; [|done].
  apply compileNested_compiled in Hv as [_ Hv]; [|done].
  repeat split; try done. by exists re.
Qed.

(** X6. Every file rule of a configuration that [load] returns has an
    identifier that is not empty; a rule with a pattern has the matcher the
    compiler returns for it, and every context and version nested in such a
    rule is compiled and bears an identifier that the catalog lookup
    finds. *)
Theorem load_files_valid decode compile caser file cfg :
  config.load decode compile caser file = inl cfg ->
  Forall (loaded.validFile compile cfg) (config.Config.Files cfg).
Proof.
  intros Hload. load_stages Hload raw. cbn [config.Config.Files].
  apply compileFiles_valid in Hfiles.
  induction Hfiles as [|f f' fs fs' (Hid & Hmatch & Hne & _ & Hcompiled) _ IH];
    constructor; [|exact IH].
  unfold loaded.validFile. rewrite Hid, Hmatch. split; [done|].
  intros Hpattern. destruct (Hcompiled Hpattern) as (Hre & Hc & Hv).
  unfold config.Config.GetContext, config.Config.GetVersion.
  cbn [config.Config.contextIndex config.Config.versionIndex].
  split; [done|]. split.
  - eapply Forall_impl; [exact Hc|]. intros a [Ha [x Hx]]. split; [done|]. by rewrite Hx.
  - eapply Forall_impl; [exact Hv|]. intros a [Ha [x Hx]]. split; [done|]. by rewrite Hx.
Qed.

Lemma load_files_valid_witness :
  Forall (loaded.validFile example.compile example.cfg) (config.Config.Files example.cfg).
Proof.
  apply (load_files_valid (fun _ => inl example.document) example.compile
           (fun s => s) "benchviz.yaml").
  apply example_loaded.
Defined.

(** *** Loading, then resolution *)

Lemma MatchString_id (o : config.Object.t) (name id : string) :
  config.Object.MatchString o name = (id, true) -> id = config.Object.ID o.
Proof.
  unfold config.Object.MatchString, config.Object.Matchers.
  repeat match goal with
         | |- context [if ?b then _ else _] => destruct b
         end; congruence.
Qed.

Lemma firstMatch_found {A : Type} (m : A -> string -> string * bool) defs name id :
  config.Config.firstMatch m defs name = (id, true) ->
  exists def, In def defs /\ m def name = (id, true).
Proof.
  intros (before & def & after & -> & _ & Hdef)%firstMatch_first.
  exists def. split; [|done]. apply in_or_app. right. by left.
Qed.

(** X7. An identifier that name-based resolution returns on a loaded
    configuration is never empty and is always one the catalog lookup
    finds: for [FindFunction] in the function catalog, for [FindVersion] in
    the version catalog; the entry found bears that identifier. *)
Theorem load_resolution_catalogued decode compile caser file cfg :
  config.load decode compile caser file = inl cfg ->
  forall name id,
    (config.Config.FindFunction cfg name = (id, true) ->
     id <> "" /\ snd (config.Config.GetFunction cfg id) = true
     /\ config.Object.ID (config.Function.Object (fst (config.Config.GetFunction cfg id)))
        = id)
    /\ (config.Config.FindVersion cfg name = (id, true) ->
        id <> "" /\ snd (config.Config.GetVersion cfg id) = true
        /\ config.Object.ID (config.Version.Object (fst (config.Config.GetVersion cfg id)))
           = id).
Proof.
  intros Hload name id. load_stages Hload raw.
  unfold config.Config.FindFunction, config.Config.FindVersion,
    config.Config.GetFunction, config.Config.GetVersion.
  cbn [config.Config.functionIndex config.Config.versionIndex
       config.Config.Functions config.Config.Versions].
  split.
  - intros (def & Hdef & Hmatch)%firstMatch_found.
    apply MatchString_id in Hmatch as ->.
    assert (Hin : In (config.Object.ID (config.Function.Object def))
                    (catalog.ids config.Function.Object (config.Config.Functions raw))).
    { pose proof (fun H => compileObjects_ids _ _ _ _ _ _ _ H Hfunctions) as Hids.
      rewrite <- Hids by done. apply in_map_iff. by exists def. }
    apply (indexObjects_indexes caser) in HfunctionIndex
      as (Hempty & _ & Hkeys & Hbears); [|done].
    apply Hkeys in Hin as [v Hv]. rewrite Hv. cbn [fst snd]. split; [|split; [done|]].
    + intros Heq. apply Hempty. rewrite <- Heq. by apply Hkeys.
    + by apply Hbears.
  - intros (def & Hdef & Hmatch)%firstMatch_found.
    apply MatchString_id in Hmatch as ->.
    assert (Hin : In (config.Object.ID (config.Version.Object def))
                    (catalog.ids config.Version.Object (config.Config.Versions raw))).
    { pose proof (fun H => compileObjects_ids _ _ _ _ _ _ _ H Hversions) as Hids.
      rewrite <- Hids by done. apply in_map_iff. by exists def. }
    apply (indexObjects_indexes caser) in HversionIndex
      as (Hempty & _ & Hkeys & Hbears); [|done].
    apply Hkeys in Hin as [v Hv]. rewrite Hv. cbn [fst snd]. split; [|split; [done|]].
    + intros Heq. apply Hempty. rewrite <- Heq. by apply Hkeys.
    + by apply Hbears.
Qed.

Lemma load_resolution_catalogued_witness :
  "equal" <> ""
  /\ snd (config.Config.GetFunction example.cfg "equal") = true
  /\ config.Object.ID
       (config.Function.Object (fst (config.Config.GetFunction example.cfg "equal")))
     = "equal".
Proof.
  apply (proj1 (load_resolution_catalogued (fun _ => inl example.document) example.compile
                  (fun s => s) "benchviz.yaml" example.cfg (example_loaded _ _)
                  "BenchmarkEqual/int-8" "equal")).
  vm_compute. reflexivity.
Defined.

Lemma in_offered {A : Type} (nested : config.File.t -> list A) defs path (def : A) :
  In def (flat_map (fun f =>
            if snd (config.File.MatchString f path) then nested f else []) defs) ->
  exists f, In f defs /\ config.File.match_ f <> None /\ In def (nested f).
Proof.
  intros (f & Hf & Hdef)%in_flat_map. exists f. split; [done|].
  unfold config.File.MatchString in Hdef.
  destruct (config.File.match_ f); [|done]. split; [done|].
  by destruct (negb _) in Hdef.
Qed.

(** X8. When the decoder sets no matcher on a file rule (the matcher is not
    a field of the document), an identifier that file-based resolution
    returns on the loaded configuration is one the catalog lookup finds:
    for [FindVersionFromFile] in the version catalog, for
    [FindContextFromFile] in the context catalog. *)
Theorem load_file_resolution_catalogued decode compile caser file cfg raw :
  decode file = inl raw ->
  Forall (fun f => config.File.match_ f = None) (config.Config.Files raw) ->
  config.load decode compile caser file = inl cfg ->
  forall path id,
    (config.Config.FindVersionFromFile cfg path = (id, true) ->
     snd (config.Config.GetVersion cfg id) = true)
    /\ (config.Config.FindContextFromFile cfg path = (id, true) ->
        snd (config.Config.GetContext cfg id) = true).
Proof.
  intros Hraw Hnone Hload path id. load_stages Hload raw'.
  rewrite Hraw in Hdecode. injection Hdecode as <-.
  unfold config.Config.FindVersionFromFile, config.Config.FindContextFromFile,
    config.Config.GetVersion, config.Config.GetContext.
  cbn [config.Config.versionIndex config.Config.contextIndex config.Config.Files].
  apply compileFiles_valid in Hfiles.
  assert (Hnested : forall f', In f' files -> config.File.match_ f' <> None ->
            Forall (fun a' => is_Some (contextIndex
                                         !! config.Object.ID (config.Context.Object a')))
              (config.File.Contexts f')
            /\ Forall (fun a' => is_Some (versionIndex
                                            !! config.Object.ID (config.Version.Object a')))
                 (config.File.Versions f')).
  { clear -Hfiles Hnone. induction Hfiles as [|f f' fs fs' Hf _ IH]; [by intros f' []|].
    inversion Hnone as [|? ? Hf_none Hfs_none]; subst.
    intros g [<-|Hg] Hsome; [|by apply IH].
    destruct Hf as (_ & _ & _ & Hsame & Hcompiled).
    destruct (String.eqb_spec (config.File.MatchFile f) "") as [Hempty|Hpattern].
    { rewrite (Hsame Hempty) in Hsome. done. }
    destruct (Hcompiled Hpattern) as (_ & Hc & Hv).
    split; (eapply Forall_impl; [eassumption|]); by intros a [_ Ha]. }
  split.
  - rewrite FindVersionFromFile_loop_offered.
    intros (def & Hdef & Hmatch)%firstMatch_found.
    apply MatchString_id in Hmatch as ->.
    apply in_offered in Hdef as (f' & Hf' & Hsome & Hin).
    destruct (Hnested f' Hf' Hsome) as [_ Hv].
    rewrite Forall_forall in Hv. apply list_elem_of_In, Hv in Hin as [v ->]. done.
  - rewrite FindContextFromFile_loop_offered.
    intros (def & Hdef & Hmatch)%firstMatch_found.
    apply MatchString_id in Hmatch as ->.
    apply in_offered in Hdef as (f' & Hf' & Hsome & Hin).
    destruct (Hnested f' Hf' Hsome) as [Hc _].
    rewrite Forall_forall in Hc. apply list_elem_of_In, Hc in Hin as [v ->]. done.
Qed.

Lemma load_file_resolution_catalogued_witness :
  snd (config.Config.GetContext example.cfg "small") = true.
Proof.
  apply (proj2 (load_file_resolution_catalogued (fun _ => inl example.document)
                  example.compile (fun s => s) "benchviz.yaml" example.cfg example.document
                  eq_refl ltac:(repeat constructor) (example_loaded _ _)
                  "baseline.txt" "small")).
  vm_compute. reflexivity.
Defined.

(** *** Loading: the first invalid identifier *)

Lemma indexObjects_app {A : Type} (caser : string -> string)
    (object : A -> config.Object.t) (update : A -> config.Object.t -> A)
    (emptyID duplicateID : string) (xs ys : list A) (i : nat) (index : gmap string A) :
  config.indexObjects caser object update emptyID duplicateID i (xs ++ ys) index
  = let* index1 := config.indexObjects caser object update emptyID duplicateID i xs index in
    config.indexObjects caser object update emptyID duplicateID (i + length xs) ys index1.
Proof.
  revert i index. induction xs as [|x xs IH]; intros i index.
  { cbn. by rewrite Nat.add_0_r. }
  cbn [app config.indexObjects length].
  destruct (String.eqb _ ""); [done|].
  destruct (config.isNil _); [|done].
  rewrite IH. by rewrite Nat.add_succ_r.
Qed.

Lemma indexObjects_succeeds {A : Type} (caser : string -> string)
    (object : A -> config.Object.t) (update : A -> config.Object.t -> A)
    (emptyID duplicateID : string) (items : list A) (i : nat) (index : gmap string A) :
  ~ In "" (catalog.ids object items) ->
  NoDup (catalog.ids object items) ->
  (forall id, In id (catalog.ids object items) -> index !! id = None) ->
  exists index',
    config.indexObjects caser object update emptyID duplicateID i items index = inl index'.
Proof.
  revert i index. induction items as [|item items IH]; intros i index Hempty Hnodup Hfresh.
  { by eexists. }
  cbn [catalog.ids map] in Hempty, Hnodup, Hfresh.
  fold (catalog.ids object items) in Hempty, Hnodup, Hfresh.
  apply NoDup_cons in Hnodup as [Hnotin Hnodup].
  cbn [config.indexObjects].
  destruct (String.eqb_spec (config.Object.ID (object item)) "") as [Heq|Hid].
  { exfalso. apply Hempty. by left. }
  rewrite (Hfresh (config.Object.ID (object item))) by (by left).
  cbn [config.isNil]. apply IH.
  - intros Hin. apply Hempty. by right.
  - done.
  - intros id Hin. rewrite lookup_insert_ne.
    + apply Hfresh. by right.
    + intros <-. by apply Hnotin, list_elem_of_In.
Qed.

(** X9. [load] reports the first function entry whose identifier is empty
    by its position in the catalog, and the first one whose identifier
    repeats an earlier one by that identifier: when the entries before it
    have distinct identifiers, none empty, the error is
    [invalid functions: empty ID found: functions[i]] with [i] the
    position, or [invalid functions: duplicate ID key found: id]. *)
Theorem load_rejects_function decode compile caser file raw before item after :
  decode file = inl raw ->
  config.Config.Functions raw = before ++ item :: after ->
  ~ In "" (catalog.ids config.Function.Object before) ->
  NoDup (catalog.ids config.Function.Object before) ->
  let id := config.Object.ID (config.Function.Object item) in
  (id = "" ->
   config.load decode compile caser file
   = inr (errors.Errorf "invalid functions: empty ID found: functions[%d]"
            [errors.Int (length before)]))
  /\ (id <> "" -> In id (catalog.ids config.Function.Object before) ->
      config.load decode compile caser file
      = inr (errors.Errorf "invalid functions: duplicate ID key found: %s"
               [errors.Str id])).
Proof.
  intros Hraw Heq Hempty Hnodup id.
  destruct (indexObjects_succeeds caser config.Function.Object
              (fun _ o => config.Function.mk o)
              "invalid functions: empty ID found: functions[%d]"
              "invalid functions: duplicate ID key found: %s" before 0 ∅ Hempty Hnodup)
    as [index1 Hindex1]; [by intros; apply lookup_empty|].
  assert (Hstage :
    config.indexObjects caser config.Function.Object (fun _ o => config.Function.mk o)
      "invalid functions: empty ID found: functions[%d]"
      "invalid functions: duplicate ID key found: %s" 0 (config.Config.Functions raw) ∅
    = if String.eqb id ""
      then inr (errors.Errorf "invalid functions: empty ID found: functions[%d]"
                  [errors.Int (length before)])
      else if config.isNil (index1 !! id)
           then config.indexObjects caser config.Function.Object
                  (fun _ o => config.Function.mk o)
                  "invalid functions: empty ID found: functions[%d]"
                  "invalid functions: duplicate ID key found: %s" (S (length before)) after
                  (<[id := loaded.titled caser config.Function.Object
                             (fun _ o => config.Function.mk o) item]> index1)
           else inr (errors.Errorf "invalid functions: duplicate ID key found: %s"
                       [errors.Str id])).
  { rewrite Heq, indexObjects_app, Hindex1. reflexivity. }
  unfold config.load. rewrite Hraw. cbn [errors.bind]. rewrite Hstage. split.
  - intros ->. reflexivity.
  - intros Hid Hin. destruct (String.eqb_spec id "") as [|_]; [done|].
    apply indexObjects_keys in Hindex1 as (_ & _ & _ & Hkeys).
    destruct (proj2 (Hkeys id) (or_intror Hin)) as [v ->]. reflexivity.
Qed.

Lemma load_rejects_function_witness :
  config.load (fun _ => inl twice.document) example.compile (fun s => s) "benchviz.yaml"
  = inr (errors.Errorf "invalid functions: duplicate ID key found: %s"
           [errors.Str "equal"]).
Proof.
  refine (proj2 (load_rejects_function (fun _ => inl twice.document) example.compile
                   (fun s => s) "benchviz.yaml" twice.document [twice.equal] twice.equal []
                   eq_refl eq_refl _ _) _ _).
  - intros [Heq|[]]. discriminate Heq.
  - apply NoDup_singleton.
  - discriminate.
  - left. reflexivity.
Defined.

(** *** The records of the measurements *)

Lemma ingested_recorded v file env bench parsed log1 :
  organizer.Organizer.parseBenchmarkName v (parse.Benchmark.Name bench) file env
  = ((parsed, true), log1) ->
  fst (spec.ingested v file env bench)
  = map (measured.record v parsed bench) (spec.configured v).
Proof.
  intros Hparse.
  unfold spec.ingested, organizer.Organizer.parseBenchmarks_body, spec.configured.
  rewrite Hparse. cbn [negb app].
  unfold organizer.Organizer.ingestMetric, measured.record.
  rewrite !filter_cons, filter_nil.
  destruct (config.Config.GetMetric _ config.MetricNsPerOp) as [m1 ok1] eqn:H1;
  destruct (config.Config.GetMetric _ config.MetricAllocsPerOp) as [m2 ok2] eqn:H2;
  destruct (config.Config.GetMetric _ config.MetricBytesPerOp) as [m3 ok3] eqn:H3;
  destruct (config.Config.GetMetric _ config.MetricMBPerS) as [m4 ok4] eqn:H4;
  destruct ok1, ok2, ok3, ok4; cbn [fst snd];
  rewrite ?(decide_True (P := true = true)) by done;
  rewrite ?(decide_False (P := false = true)) by done;
  cbn [map]; rewrite ?H1, ?H2, ?H3, ?H4;
  cbn [fst snd app negb]; destruct parsed as [[f ver c m] pt e]; reflexivity.
Qed.

Lemma ingested_not_ok v file env bench parsed log1 :
  organizer.Organizer.parseBenchmarkName v (parse.Benchmark.Name bench) file env
  = ((parsed, false), log1) ->
  fst (spec.ingested v file env bench) = [].
Proof.
  intros Hparse. unfold spec.ingested, organizer.Organizer.parseBenchmarks_body.
  by rewrite Hparse.
Qed.

(** X10. A measurement that [parseBenchmarkName] accepts yields exactly one
    record per configured metric, in the fixed order ns per op, allocs per
    op, bytes per op, MB per second: each record has the series key that
    [parseBenchmarkName] returned, the identifier and the title of the
    metric's index entry, and the value of the measurement's field for that
    metric, whether or not the report measured it.  A measurement that it
    does not accept yields no record. *)
Theorem measurement_records v file env bench :
  let r := organizer.Organizer.parseBenchmarkName v (parse.Benchmark.Name bench) file env in
  fst (spec.ingested v file env bench)
  = if snd (fst r)
    then map (measured.record v (fst (fst r)) bench) (spec.configured v)
    else [].
Proof.
  cbv zeta.
  destruct (organizer.Organizer.parseBenchmarkName v (parse.Benchmark.Name bench) file env)
    as [[parsed ok] log1] eqn:Hr.
  cbn [fst snd]. destruct ok.
  - by eapply ingested_recorded.
  - by eapply ingested_not_ok.
Qed.

(** *** What the scenario reads of the records *)

Lemma populateCategories_ext v s s' :
  (forall metric version filter_,
     spec.grouped version (spec.selected s metric version filter_)
     = spec.grouped version (spec.selected s' metric version filter_)) ->
  organizer.Organizer.populateCategories v s = organizer.Organizer.populateCategories v s'.
Proof.
  intros Hext. rewrite !populateCategories_scenario. do 3 f_equal.
  unfold spec.categoriesOf. apply map_ext. intros categoryConfig.
  unfold spec.categoryOf. f_equal. unfold spec.dataOf.
  apply flat_map_ext. intros metricID. apply map_ext. intros versionID.
  cbv zeta. f_equal. apply Hext.
Qed.

Lemma filter_map_commute {A : Type} (P : A -> Prop) `{forall x, Decision (P x)}
    (g : A -> A) (l : list A) :
  (forall x, P (g x) <-> P x) -> filter P (map g l) = map g (filter P l).
Proof.
  intros Hg. induction l as [|x l IH]; [done|].
  cbn [map]. rewrite !filter_cons.
  destruct (decide (P (g x))) as [Hy|Hn], (decide (P x)) as [Hy'|Hn'].
  - cbn [map]. by rewrite IH.
  - exfalso. apply Hn'. by apply Hg.
  - exfalso. apply Hn. by apply Hg.
  - exact IH.
Qed.

Lemma flat_map_map {A B : Type} (f : A -> list B) (g : B -> B) (l : list A) :
  flat_map (fun x => map g (f x)) l = map g (flat_map f l).
Proof.
  induction l as [|x l IH]; [done|]. cbn [flat_map]. by rewrite map_app, IH.
Qed.

(** A change of the records that keeps each series key moves through the
    selection. *)
Lemma selected_map (g : organizer.ParsedBenchmark.t -> organizer.ParsedBenchmark.t)
    benchs metric version filter_ :
  (forall pb, organizer.ParsedBenchmark.SeriesKey (g pb)
              = organizer.ParsedBenchmark.SeriesKey pb) ->
  spec.selected (organizer.BenchmarkSet.mk (map g benchs)) metric version filter_
  = map g (spec.selected (organizer.BenchmarkSet.mk benchs) metric version filter_).
Proof.
  intros Hkey. unfold spec.selected, spec.forFunction, spec.matching.
  cbn [organizer.BenchmarkSet.set]. rewrite <- flat_map_map.
  apply flat_map_ext. intros f. rewrite <- flat_map_map.
  apply flat_map_ext. intros c. apply filter_map_commute. intros pb.
  unfold organizer.BenchmarkSet.skips, organizer.ParsedBenchmark.Metric,
    organizer.ParsedBenchmark.Function, organizer.ParsedBenchmark.Version,
    organizer.ParsedBenchmark.Context. by rewrite Hkey.
Qed.

(** A change of the records that keeps each series key and each point
    keeps the series. *)
Lemma grouped_map (g : organizer.ParsedBenchmark.t -> organizer.ParsedBenchmark.t)
    version benchs :
  (forall pb, organizer.ParsedBenchmark.SeriesKey (g pb)
              = organizer.ParsedBenchmark.SeriesKey pb) ->
  (forall pb, organizer.ParsedBenchmark.MetricPoint (g pb)
              = organizer.ParsedBenchmark.MetricPoint pb) ->
  spec.grouped version (map g benchs) = spec.grouped version benchs.
Proof.
  intros Hkey Hpoint. unfold spec.grouped.
  assert (Hf : forall pb, organizer.ParsedBenchmark.Function (g pb)
                          = organizer.ParsedBenchmark.Function pb).
  { intros pb. unfold organizer.ParsedBenchmark.Function. by rewrite Hkey. }
  rewrite map_map. rewrite (map_ext _ _ Hf).
  apply map_ext. intros function. f_equal. unfold spec.pointsOf.
  rewrite (filter_map_commute _ g benchs) by (intros pb; by rewrite Hf).
  rewrite map_map. apply map_ext. intros pb.
  unfold organizer.BenchmarkSet.point, organizer.ParsedBenchmark.Function,
    organizer.ParsedBenchmark.Version, organizer.ParsedBenchmark.Context,
    organizer.ParsedBenchmark.Value. by rewrite Hkey, Hpoint.
Qed.

Lemma populateCategories_anonymous v benchs benchs' :
  map measured.anonymous benchs = map measured.anonymous benchs' ->
  organizer.Organizer.populateCategories v (organizer.BenchmarkSet.mk benchs)
  = organizer.Organizer.populateCategories v (organizer.BenchmarkSet.mk benchs').
Proof.
  intros Heq.
  transitivity (organizer.Organizer.populateCategories v
                  (organizer.BenchmarkSet.mk (map measured.anonymous benchs))).
  - apply populateCategories_ext. intros metric version filter_.
    rewrite selected_map by done. by rewrite grouped_map.
  - rewrite Heq. apply populateCategories_ext. intros metric version filter_.
    rewrite selected_map by done. by rewrite grouped_map.
Qed.

(** The environment of the report only reaches the environment of the
    record. *)
Lemma parseBenchmarkName_environment v name file env env' :
  let r := organizer.Organizer.parseBenchmarkName v name file env in
  let r' := organizer.Organizer.parseBenchmarkName v name file env' in
  snd (fst r) = snd (fst r')
  /\ measured.anonymous (fst (fst r)) = measured.anonymous (fst (fst r')).
Proof.
  unfold organizer.Organizer.parseBenchmarkName.
  destruct (config.Config.FindFunction _ name) as [function [|]]; cbn [negb]; [|done].
  destruct (config.Config.FindVersion _ name) as [version ok].
  destruct (config.Config.FindContext _ name) as [context ok']. done.
Qed.

Lemma record_anonymous v parsed bench id :
  measured.anonymous (measured.record v parsed bench id)
  = measured.record v (measured.anonymous parsed) bench id.
Proof. reflexivity. Qed.

Lemma ingested_environment v file env env' bench :
  map measured.anonymous (fst (spec.ingested v file env bench))
  = map measured.anonymous (fst (spec.ingested v file env' bench)).
Proof.
  destruct (parseBenchmarkName_environment v (parse.Benchmark.Name bench) file env env')
    as [Hok Hparsed].
  destruct (organizer.Organizer.parseBenchmarkName v (parse.Benchmark.Name bench) file env)
    as [[parsed ok] log1] eqn:Hr.
  destruct (organizer.Organizer.parseBenchmarkName v (parse.Benchmark.Name bench) file env')
    as [[parsed' ok'] log1'] eqn:Hr'.
  cbn [fst snd] in Hok, Hparsed. subst ok'. destruct ok.
  - rewrite (ingested_recorded _ _ _ _ _ _ Hr), (ingested_recorded _ _ _ _ _ _ Hr').
    rewrite !map_map. apply map_ext. intros id. by rewrite !record_anonymous, Hparsed.
  - by rewrite (ingested_not_ok _ _ _ _ _ _ Hr), (ingested_not_ok _ _ _ _ _ _ Hr').
Qed.

Lemma records_environment v file env env' (benchs : list parse.Benchmark.t) :
  map measured.anonymous (spec.records v (map (fun bench => (file, env, bench)) benchs))
  = map measured.anonymous (spec.records v (map (fun bench => (file, env', bench)) benchs)).
Proof.
  induction benchs as [|bench benchs IH]; [done|].
  cbn [map]. rewrite !records_cons, !map_app, IH.
  f_equal. apply ingested_environment.
Qed.

Lemma records_sameReports v sets sets' :
  measured.sameReports sets sets' ->
  map measured.anonymous (spec.records v (spec.measurements sets))
  = map measured.anonymous (spec.records v (spec.measurements sets')).
Proof.
  induction 1 as [|set set' sets sets' [Hset Hfile] _ IH]; [done|].
  unfold spec.measurements. cbn [flat_map]. fold (spec.measurements sets).
  fold (spec.measurements sets'). rewrite !records_app, !map_app, IH. f_equal.
  rewrite <- Hset, <- Hfile. clear.
  induction (parser.Set_.Set_ set) as [|entry entries IH]; [done|].
  cbn [flat_map]. rewrite !records_app, !map_app, IH. f_equal.
  apply records_environment.
Qed.

Lemma Scenarize_records v sets :
  fst (organizer.Organizer.Scenarize v sets)
  = organizer.Organizer.populateCategories v
      (organizer.BenchmarkSet.mk (spec.records v (spec.measurements sets))).
Proof.
  unfold organizer.Organizer.Scenarize. by rewrite parseBenchmarks_measurements.
Qed.

(** X11. The environment that the parser extracts from a report never
    reaches the scenario: two lists of sets with the same measurements and
    file names, whatever their environments, give the same scenario, and
    every category of a scenario has the environment of the configuration,
    or none. *)
Theorem Scenarize_ignores_environment v sets sets' :
  measured.sameReports sets sets' ->
  fst (organizer.Organizer.Scenarize v sets) = fst (organizer.Organizer.Scenarize v sets')
  /\ forall scenario category,
       fst (organizer.Organizer.Scenarize v sets) = Some scenario ->
       In category (model.Scenario.Categories scenario) ->
       model.Category.Environment category
       = config.Config.Environment (organizer.Organizer.cfg v)
       \/ model.Category.Environment category = "".
Proof.
  intros Hsame. rewrite !Scenarize_records. split.
  - by apply populateCategories_anonymous, records_sameReports.
  - intros scenario category. rewrite populateCategories_scenario. intros [= <-].
    cbn [model.Scenario.Categories]. intros [Hzero|Hcat]%in_app_or.
    + right. apply list_elem_of_In, elem_of_replicate in Hzero as [-> _]. done.
    + left. unfold spec.categoriesOf in Hcat.
      apply in_map_iff in Hcat as (categoryConfig & <- & _). done.
Qed.

Lemma Scenarize_ignores_environment_witness :
  fst (organizer.Organizer.Scenarize scenarioA.organizer_ (scenarioA.sets scenarioA.value))
  = fst (organizer.Organizer.Scenarize scenarioA.organizer_
           (scenarioB.sets scenarioA.value))
  /\ forall scenario category,
       fst (organizer.Organizer.Scenarize scenarioA.organizer_
              (scenarioA.sets scenarioA.value)) = Some scenario ->
       In category (model.Scenario.Categories scenario) ->
       model.Category.Environment category
       = config.Config.Environment (organizer.Organizer.cfg scenarioA.organizer_)
       \/ model.Category.Environment category = "".
Proof.
  apply (Scenarize_ignores_environment scenarioA.organizer_
           (scenarioA.sets scenarioA.value) (scenarioB.sets scenarioA.value)).
  repeat constructor.
Defined.

(** *** The order of the measurements *)

Lemma filter_key_unique {A K : Type} (key : A -> K) (P : A -> Prop)
    `{forall x, Decision (P x)} (k : K) (l : list A) :
  NoDup (map key l) -> (forall x, P x -> key x = k) -> (length (filter P l) <= 1)%nat.
Proof.
  intros Hnodup Hkey. induction l as [|x l IH]; [cbn; lia|].
  cbn [map] in Hnodup. apply NoDup_cons in Hnodup as [Hnotin Hnodup].
  rewrite filter_cons. destruct (decide (P x)) as [Hx|_]; [|by apply IH].
  destruct (filter P l) as [|y rest] eqn:Hfilter; [cbn; lia|]. exfalso.
  assert (Hy : y ∈ filter P l) by (rewrite Hfilter; by left).
  apply list_elem_of_filter in Hy as [HPy Hy]. apply Hnotin.
  rewrite (Hkey x Hx), <- (Hkey y HPy). apply list_elem_of_fmap. by exists y.
Qed.

Lemma Permutation_short {A : Type} (l l' : list A) :
  l ≡ₚ l' -> (length l <= 1)%nat -> l = l'.
Proof.
  intros Hperm Hlen. destruct l as [|x [|y l]]; cbn in Hlen; [| |lia].
  - symmetry. by apply Permutation_nil.
  - symmetry. by apply Permutation_length_1_inv.
Qed.

Lemma selected_Permutation benchs benchs' metric version filter_ :
  benchs ≡ₚ benchs' ->
  NoDup (map organizer.ParsedBenchmark.SeriesKey benchs) ->
  spec.selected (organizer.BenchmarkSet.mk benchs) metric version filter_
  = spec.selected (organizer.BenchmarkSet.mk benchs') metric version filter_.
Proof.
  intros Hperm Hnodup. unfold spec.selected, spec.forFunction, spec.matching.
  cbn [organizer.BenchmarkSet.set].
  apply flat_map_ext. intros f. apply flat_map_ext. intros c.
  apply Permutation_short; [by rewrite Hperm|].
  apply (filter_key_unique organizer.ParsedBenchmark.SeriesKey _
           (model.SeriesKey.mk f version c metric)); [done|].
  intros pb (Hm & Hf & Hv & Hc)%skips_false.
  unfold organizer.ParsedBenchmark.Metric, organizer.ParsedBenchmark.Function,
    organizer.ParsedBenchmark.Version, organizer.ParsedBenchmark.Context in *.
  destruct (organizer.ParsedBenchmark.SeriesKey pb). cbn in *. congruence.
Qed.

Lemma records_reordered v sets sets' :
  visited.reordered sets sets' ->
  spec.records v (spec.measurements sets) ≡ₚ spec.records v (spec.measurements sets').
Proof.
  intros Hsets. unfold spec.records. apply Permutation_flat_map.
  induction Hsets as [|set set' sets sets' (Hset & Hfile & Henv) _ IH]; [done|].
  unfold spec.measurements. cbn [flat_map]. fold (spec.measurements sets).
  fold (spec.measurements sets'). apply Permutation_app; [|exact IH].
  rewrite <- Hfile, <- Henv. by apply Permutation_flat_map.
Qed.

(** X12. The order in which Go ranges over the map of a set does not show
    in the scenario when no two records have the same series key (function,
    version, context, metric): two lists of sets that differ only by the
    order of the entries of each set give the same scenario. *)
Theorem Scenarize_order_independent v sets sets' :
  visited.reordered sets sets' ->
  NoDup (map organizer.ParsedBenchmark.SeriesKey
           (spec.records v (spec.measurements sets))) ->
  fst (organizer.Organizer.Scenarize v sets) = fst (organizer.Organizer.Scenarize v sets').
Proof.
  intros Hsets Hnodup. rewrite !Scenarize_records.
  apply populateCategories_ext. intros metric version filter_. f_equal.
  apply selected_Permutation; [by apply records_reordered|done].
Qed.

Lemma Scenarize_order_independent_witness :
  fst (organizer.Organizer.Scenarize example.organizer_ visited.sets)
  = fst (organizer.Organizer.Scenarize example.organizer_ visited.sets').
Proof.
  apply (Scenarize_order_independent example.organizer_ visited.sets visited.sets').
  - constructor; [|constructor]. split; [apply perm_swap|split; reflexivity].
  - vm_compute. apply NoDup_cons. split; [|apply NoDup_singleton].
    intros Hin%list_elem_of_In. destruct Hin as [Heq|[]]. discriminate Heq.
Defined.

(** *** The points of the series *)

Lemma flat_map_filter_absent {A : Type} (key : A -> string) (x : A) (l : list A)
    (ks : list string) :
  key x ∉ ks ->
  flat_map (fun k => filter (fun y => key y = k) (x :: l)) ks
  = flat_map (fun k => filter (fun y => key y = k) l) ks.
Proof.
  intros Hnotin. induction ks as [|k ks IH]; [done|].
  apply not_elem_of_cons in Hnotin as [Hne Hnotin].
  cbn [flat_map]. rewrite filter_cons, decide_False by done. by rewrite IH.
Qed.

Lemma flat_map_filter_present {A : Type} (key : A -> string) (x : A) (l : list A)
    (ks : list string) :
  NoDup ks -> key x ∈ ks ->
  flat_map (fun k => filter (fun y => key y = k) (x :: l)) ks
  ≡ₚ x :: flat_map (fun k => filter (fun y => key y = k) l) ks.
Proof.
  induction ks as [|k ks IH]; intros Hnodup Hin; [by apply elem_of_nil in Hin|].
  apply NoDup_cons in Hnodup as [Hnotin Hnodup]. cbn [flat_map].
  rewrite filter_cons. destruct (decide (key x = k)) as [Heq|Hne].
  - subst k. by rewrite flat_map_filter_absent.
  - apply elem_of_cons in Hin as [Heq|Hin]; [done|].
    rewrite (IH Hnodup Hin). by rewrite Permutation_middle.
Qed.

(** Grouping by key loses and repeats nothing. *)
Lemma flat_map_filter_keys {A : Type} (key : A -> string) (l : list A) (ks : list string) :
  NoDup ks -> (forall x, x ∈ l -> key x ∈ ks) ->
  flat_map (fun k => filter (fun y => key y = k) l) ks ≡ₚ l.
Proof.
  intros Hnodup. induction l as [|x l IH]; intros Hkeys.
  - clear. induction ks as [|k ks IH]; [done|]. cbn [flat_map]. by rewrite IH.
  - rewrite flat_map_filter_present; [|done|apply Hkeys; by left].
    rewrite IH; [done|]. intros y Hy. apply Hkeys. by right.
Qed.

(** X13. [SeriesFor] returns (it does not index a series out of range), and
    its series hold one point for each record that its loops select, no
    more and no fewer: the points of all the series together are a
    rearrangement of the points of the selected records.  Each series is
    titled by the version and holds at least one point. *)
Theorem SeriesFor_points_conserved s metric version filter_ :
  exists series,
    organizer.BenchmarkSet.SeriesFor s metric version filter_ = Some series
    /\ flat_map model.MetricSeries.Points series
       ≡ₚ map organizer.BenchmarkSet.point (spec.selected s metric version filter_)
    /\ Forall (fun ms => model.MetricSeries.Title ms = version
                         /\ model.MetricSeries.Points ms <> []) series.
Proof.
  eexists. split; [apply SeriesFor_grouped|].
  set (benchs := spec.selected s metric version filter_). clearbody benchs.
  unfold spec.grouped. split.
  - rewrite flat_map_concat_map, map_map, <- flat_map_concat_map.
    cbn [model.MetricSeries.Points]. unfold spec.pointsOf.
    rewrite <- map_flat_map. apply Permutation_map.
    apply (flat_map_filter_keys organizer.ParsedBenchmark.Function);
      [apply NoDup_firsts|].
    intros pb Hpb. apply elem_of_firsts, list_elem_of_fmap. by exists pb.
  - apply Forall_forall. intros ms (function & -> & Hf)%list_elem_of_fmap.
    split; [done|]. cbn [model.MetricSeries.Points]. unfold spec.pointsOf.
    apply elem_of_firsts, list_elem_of_fmap in Hf as (pb & -> & Hpb).
    intros Hnil%map_eq_nil.
    assert (Hin : pb ∈ filter (fun bench => organizer.ParsedBenchmark.Function bench
                                            = organizer.ParsedBenchmark.Function pb) benchs).
    { by apply list_elem_of_filter. }
    rewrite Hnil in Hin. by apply elem_of_nil in Hin.
Qed.

(** *** The labels of a category *)

Lemma scenarioC_loaded caser file :
  config.load (fun _ => inl scenarioC.document) example.compile caser file
  = inl scenarioC.cfg.
Proof. vm_compute. reflexivity. Qed.

Lemma scenarioC_scenario :
  fst (organizer.Organizer.Scenarize scenarioC.organizer_ scenarioC.sets)
  = Some (model.Scenario.mk "C" [model.Category.zero; scenarioC.filled]).
Proof. vm_compute. reflexivity. Qed.

(** X14. Every label that [Labels] lists for a category of the scenario is
    the label of a record of the set, [function - version - context]; the
    record's function and context are among those the configured category
    includes, and its metric and version are the identifiers of the index
    entries of a metric and a version that the category includes. *)
Theorem Scenarize_labels v sets scenario category label :
  fst (organizer.Organizer.Scenarize v sets) = Some scenario ->
  In category (model.Scenario.Categories scenario) ->
  In label (model.Category.Labels category) ->
  exists categoryConfig pb,
    let c := organizer.Organizer.cfg v in
    let includes := config.Category.Includes categoryConfig in
    In categoryConfig (config.Config.Categories c)
    /\ model.Category.ID category = config.Category.ID categoryConfig
    /\ In pb (organizer.BenchmarkSet.set (fst (organizer.Organizer.parseBenchmarks v sets)))
    /\ label = organizer.ParsedBenchmark.Function pb +:+ " - "
               +:+ organizer.ParsedBenchmark.Version pb +:+ " - "
               +:+ organizer.ParsedBenchmark.Context pb
    /\ In (organizer.ParsedBenchmark.Function pb) (config.Includes.Functions includes)
    /\ In (organizer.ParsedBenchmark.Context pb) (config.Includes.Contexts includes)
    /\ In (organizer.ParsedBenchmark.Metric pb)
          (map (fun id => config.Metric.ID (fst (config.Config.GetMetric c id)))
               (config.Includes.Metrics includes))
    /\ In (organizer.ParsedBenchmark.Version pb)
          (map (fun id => config.Object.ID
                            (config.Version.Object (fst (config.Config.GetVersion c id))))
               (config.Includes.Versions includes)).
Proof.
  rewrite Scenarize_records, populateCategories_scenario, parseBenchmarks_records.
  intros [= <-]. cbn [model.Scenario.Categories]. intros [Hzero|Hcat]%in_app_or.
  { apply list_elem_of_In, elem_of_replicate in Hzero as [-> _]. intros []. }
  unfold spec.categoriesOf in Hcat. apply in_map_iff in Hcat as (categoryConfig & <- & Hcc).
  unfold model.Category.Labels, spec.categoryOf. cbn [model.Category.Data model.Category.ID].
  intros (data & Hdata & Hlabel)%in_flat_map.
  apply in_flat_map in Hlabel as (series & Hseries & Hlabel).
  apply in_map_iff in Hlabel as (point & <- & Hpoint).
  unfold spec.dataOf in Hdata. apply in_flat_map in Hdata as (metricID & Hmetric & Hdata).
  apply in_map_iff in Hdata as (versionID & <- & Hversion).
  cbn [model.CategoryData.Series] in Hseries. unfold spec.grouped in Hseries.
  apply in_map_iff in Hseries as (function & <- & _).
  cbn [model.MetricSeries.Points] in Hpoint. unfold spec.pointsOf in Hpoint.
  apply in_map_iff in Hpoint as (pb & <- & Hpb).
  apply list_elem_of_In, list_elem_of_filter in Hpb as [_ Hpb%list_elem_of_In].
  apply in_selected in Hpb as (Hset & Hm & Hf & Hv & Hc).
  exists categoryConfig, pb. cbv zeta. repeat split; try done.
  - rewrite Hm. apply in_map_iff. by exists metricID.
  - rewrite Hv. apply in_map_iff. by exists versionID.
Qed.

Lemma Scenarize_labels_witness :
  exists categoryConfig pb,
    let c := organizer.Organizer.cfg scenarioC.organizer_ in
    let includes := config.Category.Includes categoryConfig in
    In categoryConfig (config.Config.Categories c)
    /\ model.Category.ID scenarioC.filled = config.Category.ID categoryConfig
    /\ In pb (organizer.BenchmarkSet.set
                (fst (organizer.Organizer.parseBenchmarks scenarioC.organizer_
                        scenarioC.sets)))
    /\ "equal - v1 - int"
       = organizer.ParsedBenchmark.Function pb +:+ " - "
         +:+ organizer.ParsedBenchmark.Version pb +:+ " - "
         +:+ organizer.ParsedBenchmark.Context pb
    /\ In (organizer.ParsedBenchmark.Function pb) (config.Includes.Functions includes)
    /\ In (organizer.ParsedBenchmark.Context pb) (config.Includes.Contexts includes)
    /\ In (organizer.ParsedBenchmark.Metric pb)
          (map (fun id => config.Metric.ID (fst (config.Config.GetMetric c id)))
               (config.Includes.Metrics includes))
    /\ In (organizer.ParsedBenchmark.Version pb)
          (map (fun id => config.Object.ID
                            (config.Version.Object (fst (config.Config.GetVersion c id))))
               (config.Includes.Versions includes)).
Proof.
  apply (Scenarize_labels scenarioC.organizer_ scenarioC.sets
           (model.Scenario.mk "C" [model.Category.zero; scenarioC.filled])
           scenarioC.filled "equal - v1 - int").
  - exact scenarioC_scenario.
  - right. left. reflexivity.
  - left. reflexivity.
Defined.

(** *** The scanner of the event stream *)

Lemma scanSegments_error (segs : list string) :
  snd (bufio.scanSegments segs)
  = if existsb bufio.tooLong segs then Some errors.ErrTooLong else None.
Proof.
  induction segs as [|seg segs IH]; [done|].
  cbn [existsb]. destruct segs as [|seg' segs].
  - cbn [bufio.scanSegments existsb]. rewrite orb_false_r.
    destruct (bufio.tooLong seg); [done|]. by destruct (String.eqb seg "").
  - change (bufio.scanSegments (seg :: seg' :: segs))
      with (if bufio.tooLong seg then ([], Some errors.ErrTooLong)
            else let '(tokens, err) := bufio.scanSegments (seg' :: segs) in
                 (bufio.dropCR seg :: tokens, err)).
    destruct (bufio.tooLong seg); [done|]. cbn [orb]. rewrite <- IH.
    by destruct (bufio.scanSegments (seg' :: segs)).
Qed.

(** X15. [parseJSON] fails with the scanner's error exactly when some line
    of its input, event or not, has 65536 bytes or more; it then returns
    the zero [Set], whatever the lines before carry. *)
Theorem parseJSON_line_limit (L : parser.Lib) (input : string) :
  let tooLong := existsb bufio.tooLong (strings.SplitByte input bufio.LF) in
  (snd (parser.parseJSON input)
   = Some (errors.Errorf "scanning input: %w" [errors.Wrapped errors.ErrTooLong])
   <-> tooLong = true)
  /\ (tooLong = true -> fst (parser.parseJSON input) = parser.Set_.zero).
Proof.
  intros tooLong.
  pose proof (scanSegments_error (strings.SplitByte input bufio.LF)) as Herr.
  fold (bufio.ScanLines input) in Herr. fold tooLong in Herr.
  destruct tooLong.
  - rewrite (parseJSON_scan_error input _ Herr). by split.
  - unfold parser.parseJSON. destruct (bufio.ScanLines input) as [lines scanErr].
    cbn [snd] in Herr. subst scanErr. split; [|done].
    destruct (parser.parse_ParseSet _) as [set [err|]]; cbn [snd]; by split.
Qed.

(** *** Line endings of the event stream *)

Lemma SplitByte_stream_app (lines : list string) (rest : string) :
  Forall (fun line => encoding.hasByte bufio.LF line = false) lines ->
  strings.SplitByte (encoding.stream lines +:+ rest) bufio.LF
  = lines ++ strings.SplitByte rest bufio.LF.
Proof.
  unfold encoding.stream. induction 1 as [|line lines Hline _ IH]; [done|].
  cbn [map]. rewrite concat_cons, !append_assoc, append_cons, append_nil_l.
  by rewrite (SplitByte_line _ _ Hline), IH.
Qed.

Lemma SplitByte_whole (line : string) :
  encoding.hasByte bufio.LF line = false -> strings.SplitByte line bufio.LF = [line].
Proof.
  induction line as [|c line IH]; intros Hline; [done|].
  cbn [encoding.hasByte] in Hline. apply orb_false_iff in Hline as [Hc Hline].
  cbn [strings.SplitByte]. by rewrite Hc, (IH Hline).
Qed.

Lemma scanSegments_final (lines : list string) (final : string) :
  Forall (fun line => bufio.tooLong line = false) lines ->
  bufio.tooLong final = false -> final <> "" ->
  bufio.scanSegments (lines ++ [final])
  = (map bufio.dropCR lines ++ [bufio.dropCR final], None).
Proof.
  intros Hlines Hfinal Hne. induction Hlines as [|line lines Hline _ IH].
  - cbn [app map bufio.scanSegments]. rewrite Hfinal.
    by destruct (String.eqb_spec final "").
  - cbn [app map bufio.scanSegments]. rewrite Hline, IH.
    destruct (lines ++ [final]) eqn:Hl; [by destruct lines|done].
Qed.

Lemma dropCR_withCR (line : string) : bufio.dropCR (ending.withCR line) = line.
Proof.
  unfold ending.withCR. induction line as [|c line IH]; [done|].
  rewrite append_cons. cbn [bufio.dropCR]. rewrite IH.
  destruct line; reflexivity.
Qed.

Lemma hasByte_withCR (line : string) :
  encoding.hasByte bufio.LF (ending.withCR line) = encoding.hasByte bufio.LF line.
Proof.
  unfold ending.withCR. induction line as [|c line IH]; [done|].
  rewrite append_cons. cbn [encoding.hasByte]. by rewrite IH.
Qed.

Lemma map_dropCR_lines (lines : list string) :
  Forall encoding.eventLine lines -> map bufio.dropCR lines = lines.
Proof.
  induction 1 as [|line lines (_ & _ & Hcr & _) _ IH]; [done|].
  cbn [map]. by rewrite Hcr, IH.
Qed.

(** X16. The event stream is read the same whether or not its last line
    ends with a line feed, and whether its lines end with a line feed or
    with a carriage return and a line feed. *)
Theorem parseJSON_line_endings (L : parser.Lib) (lines : list string) (final : string) :
  Forall encoding.eventLine lines ->
  encoding.eventLine final ->
  Forall (fun line => bufio.tooLong (ending.withCR line) = false) lines ->
  parser.parseJSON (encoding.stream lines +:+ final)
  = parser.parseJSON (encoding.stream (lines ++ [final]))
  /\ parser.parseJSON (encoding.stream (map ending.withCR lines))
     = parser.parseJSON (encoding.stream lines).
Proof.
  intros Hlines Hfinal Hshort.
  assert (Hlf : Forall (fun line => encoding.hasByte bufio.LF line = false) lines).
  { eapply Forall_impl; [exact Hlines|]. by intros line (_ & ? & _ & _). }
  assert (Hlen : Forall (fun line => bufio.tooLong line = false) lines).
  { eapply Forall_impl; [exact Hlines|]. by intros line (_ & _ & _ & ?). }
  split.
  - unfold parser.parseJSON.
    rewrite (ScanLines_stream (lines ++ [final]))
      by (apply Forall_app; split; [done|by constructor]).
    unfold bufio.ScanLines. rewrite SplitByte_stream_app by done.
    destruct Hfinal as (Hne & Hflf & Hfcr & Hflen).
    rewrite (SplitByte_whole final Hflf), scanSegments_final by done.
    by rewrite map_dropCR_lines, Hfcr.
  - unfold parser.parseJSON. rewrite (ScanLines_stream lines Hlines).
    unfold bufio.ScanLines. rewrite SplitByte_stream, scanSegments_lines.
    + rewrite map_map. rewrite (map_ext _ (fun line => line) dropCR_withCR), map_id. done.
    + by apply Forall_map.
    + apply Forall_map. eapply Forall_impl; [exact Hlf|]. intros line Hline.
      by rewrite hasByte_withCR.
Qed.

Lemma parseJSON_line_endings_witness :
  @parser.parseJSON example.lib
    (encoding.stream example.reportLines +:+ example.event "pass" "")
  = @parser.parseJSON example.lib
      (encoding.stream (example.reportLines ++ [example.event "pass" ""]))
  /\ @parser.parseJSON example.lib
       (encoding.stream (map ending.withCR example.reportLines))
     = @parser.parseJSON example.lib (encoding.stream example.reportLines).
Proof.
  apply (parseJSON_line_endings example.lib example.reportLines
           (example.event "pass" "")).
  - repeat constructor; vm_compute; (discriminate || reflexivity).
  - repeat constructor; vm_compute; (discriminate || reflexivity).
  - repeat constructor; vm_compute; reflexivity.
Defined.

(** *** Parsing the files *)




(** *** Output file names *)

Lemma length_append (a b : string) :
  String.length (a +:+ b) = (String.length a + String.length b)%nat.
Proof. induction a as [|c a IH]; [done|]. rewrite append_cons. cbn. by rewrite IH. Qed.

Lemma get_append_r (a b : string) (k : nat) :
  String.get (String.length a + k) (a +:+ b) = String.get k b.
Proof. induction a as [|c a IH]; [done|]. rewrite append_cons. exact IH. Qed.

Lemma substring_append_r (a b : string) (k m : nat) :
  String.substring (String.length a + k) m (a +:+ b) = String.substring k m b.
Proof. induction a as [|c a IH]; [done|]. rewrite append_cons. exact IH. Qed.

Lemma substring_all (s : string) : String.substring 0 (String.length s) s = s.
Proof. induction s as [|c s IH]; [done|]. cbn. by rewrite IH. Qed.

Lemma substring_append_l (a b : string) :
  String.substring 0 (String.length a) (a +:+ b) = a.
Proof.
  induction a as [|c a IH]; [by destruct b|]. rewrite append_cons. cbn. by rewrite IH.
Qed.

Lemma substring_split (s : string) (n : nat) :
  (n <= String.length s)%nat ->
  s = String.substring 0 n s +:+ String.substring n (String.length s - n) s.
Proof.
  revert n. induction s as [|c s IH]; intros n Hn.
  - cbn in Hn. by replace n with 0%nat by lia.
  - destruct n as [|n].
    + rewrite Nat.sub_0_r, substring_all. reflexivity.
    + cbn in Hn. cbn [String.substring String.length Nat.sub].
      rewrite append_cons. f_equal. apply IH. lia.
Qed.

Lemma CutSuffix_append (stem ext : string) :
  strings.CutSuffix (stem +:+ ext) ext = (stem, true).
Proof.
  unfold strings.CutSuffix, strings.HasSuffix. rewrite length_append.
  replace (String.length stem + String.length ext - String.length ext)%nat
    with (String.length stem) by lia.
  rewrite <- (Nat.add_0_r (String.length stem)) at 2.
  rewrite substring_append_r, substring_all, String.eqb_refl, substring_append_l.
  destruct (Nat.leb_spec (String.length ext) (String.length stem + String.length ext));
    [done|lia].
Qed.

(** The extension is a suffix of the path. *)
Lemma Ext_loop_suffix (path : string) (n : nat) :
  (n <= String.length path)%nat -> exists stem, path = stem +:+ path.Ext_loop path n.
Proof.
  induction n as [|i IH]; intros Hn.
  { exists path. by rewrite append_nil_r. }
  cbn [path.Ext_loop]. destruct (String.get i path) as [c|].
  - destruct (Ascii.eqb c "/"); [exists path; by rewrite append_nil_r|].
    destruct (Ascii.eqb c ".").
    + exists (String.substring 0 i path). apply substring_split. lia.
    + apply IH. lia.
  - exists path. by rewrite append_nil_r.
Qed.

Lemma get_plain (rest : string) (k : nat) :
  extension.plain rest = true -> (k < String.length rest)%nat ->
  exists c, String.get k rest = Some c /\ Ascii.eqb c "/" = false /\ Ascii.eqb c "." = false.
Proof.
  revert k. induction rest as [|c rest IH]; intros k Hplain Hk; [cbn in Hk; lia|].
  cbn [extension.plain] in Hplain.
  apply andb_true_iff in Hplain as [[Hslash Hdot]%andb_true_iff Hplain].
  destruct k as [|k].
  - exists c. apply negb_true_iff in Hslash. apply negb_true_iff in Hdot. done.
  - cbn [String.get]. apply IH; [done|]. cbn in Hk. lia.
Qed.

(** The extension of a name that ends with a dot and a plain text. *)
Lemma Ext_append (stem rest : string) :
  extension.plain rest = true ->
  path.Ext (stem +:+ String "." rest) = String "." rest.
Proof.
  intros Hplain. unfold path.Ext. rewrite length_append. cbn [String.length].
  assert (Hloop : forall k, (k <= String.length rest)%nat ->
            path.Ext_loop (stem +:+ String "." rest) (String.length stem + S k)
            = String "." rest).
  { induction k as [|k IH]; intros Hk.
    - rewrite Nat.add_1_r. cbn [path.Ext_loop].
      rewrite <- (Nat.add_0_r (String.length stem)) at 1.
      rewrite get_append_r. cbn [String.get Ascii.eqb Bool.eqb].
      rewrite length_append.
      replace (String.length stem + String.length (String "." rest) - String.length stem)%nat
        with (String.length (String "." rest)) by lia.
      rewrite <- (Nat.add_0_r (String.length stem)) at 1.
      by rewrite substring_append_r, substring_all.
    - rewrite Nat.add_succ_r. cbn [path.Ext_loop].
      rewrite get_append_r. cbn [String.get].
      destruct (get_plain rest k Hplain) as (c & -> & -> & ->); [lia|].
      apply IH. lia. }
  apply Hloop. lia.
Qed.

Lemma inferImageFile_stem (stem ext : string) :
  path.Ext (stem +:+ ext) = ext -> main.inferImageFile (stem +:+ ext) = stem +:+ ".png".
Proof. unfold main.inferImageFile. intros ->. by rewrite CutSuffix_append. Qed.

Lemma inferHTMLFile_stem (stem ext : string) :
  path.Ext (stem +:+ ext) = ext -> main.inferHTMLFile (stem +:+ ext) = stem +:+ ".html".
Proof. unfold main.inferHTMLFile. intros ->. by rewrite CutSuffix_append. Qed.

Lemma inferred_stem (base : string) :
  exists stem,
    base = stem +:+ path.Ext base
    /\ main.inferHTMLFile base = stem +:+ ".html"
    /\ main.inferImageFile base = stem +:+ ".png".
Proof.
  destruct (Ext_loop_suffix base (String.length base) (le_n _)) as [stem Hstem].
  fold (path.Ext base) in Hstem. exists stem. split; [done|]. split.
  - rewrite Hstem at 1. apply inferHTMLFile_stem. by rewrite <- Hstem.
  - rewrite Hstem at 1. apply inferImageFile_stem. by rewrite <- Hstem.
Qed.

Lemma inferImageFile_inferHTMLFile (base : string) :
  main.inferImageFile (main.inferHTMLFile base) = main.inferImageFile base.
Proof.
  destruct (inferred_stem base) as (stem & _ & -> & ->).
  apply inferImageFile_stem. by apply Ext_append.
Qed.

Lemma inferHTMLFile_nonempty (base : string) : main.inferHTMLFile base <> "".
Proof. destruct (inferred_stem base) as (stem & _ & -> & _). by destruct stem. Qed.

(** X18. The names [inferHTMLFile] and [inferImageFile] give replace the
    extension of the last element of the path, if it has one, by [.html]
    and [.png]: the two names share the stem of the path, the extension of
    each is the new one, and inferring one name from the other gives the
    same as inferring it from the path. *)
Theorem inferred_files (base : string) :
  (exists stem,
     base = stem +:+ path.Ext base
     /\ main.inferHTMLFile base = stem +:+ ".html"
     /\ main.inferImageFile base = stem +:+ ".png")
  /\ path.Ext (main.inferHTMLFile base) = ".html"
  /\ path.Ext (main.inferImageFile base) = ".png"
  /\ main.inferImageFile (main.inferHTMLFile base) = main.inferImageFile base
  /\ main.inferHTMLFile (main.inferImageFile base) = main.inferHTMLFile base.
Proof.
  split; [apply inferred_stem|].
  destruct (inferred_stem base) as (stem & _ & Hhtml & Himage).
  split; [rewrite Hhtml; by apply Ext_append|].
  split; [rewrite Himage; by apply Ext_append|].
  split; [apply inferImageFile_inferHTMLFile|].
  rewrite Hhtml, Himage. apply inferHTMLFile_stem. by apply Ext_append.
Qed.

(** *** The flags of the command line *)

(** X19. With an output file named on the command line (neither empty nor
    [-]), [setConfig] succeeds without asking for a temporary file and
    without a message: the HTML target is the name inferred from the flag,
    the PNG target, if the configuration has one, is replaced by the name
    inferred from the same flag, and the temporary mark is left as it
    was. *)
Theorem setConfig_output_file createTemp (cfg : main.Settings.t) (c : main.cliFlags.t) :
  main.cliFlags.OutputFile c <> "" ->
  main.cliFlags.OutputFile c <> "-" ->
  main.setConfig createTemp cfg c
  = (main.Settings.mk
       (if String.eqb (main.cliFlags.Environment c) ""
        then main.Settings.Environment cfg else main.cliFlags.Environment c)
       (config.Output.mk
          (main.inferHTMLFile (main.cliFlags.OutputFile c))
          (if String.eqb (config.Output.PngFile (main.Settings.Outputs cfg)) "" then ""
           else main.inferImageFile (main.cliFlags.OutputFile c))
          (config.Output.IsTemp (main.Settings.Outputs cfg)))
       (main.cliFlags.IsJSON c),
     [], None).
Proof.
  intros Hempty Hdash. unfold main.setConfig.
  apply String.eqb_neq in Hempty, Hdash. rewrite Hempty, Hdash. cbn [negb andb].
  cbn [config.Output.HtmlFile config.Output.PngFile config.Output.IsTemp].
  pose proof (inferHTMLFile_nonempty (main.cliFlags.OutputFile c)) as Hhtml.
  apply String.eqb_neq in Hhtml. rewrite Hhtml. cbn [andb].
  rewrite inferImageFile_inferHTMLFile.
  destruct (String.eqb (main.cliFlags.Environment c) "");
    destruct (String.eqb_spec (config.Output.PngFile (main.Settings.Outputs cfg)) "")
      as [->|_]; reflexivity.
Qed.

Lemma setConfig_output_file_witness :
  main.setConfig (inr (errors.New "no space left on device"))
    (main.Settings.mk "" (config.Output.mk "" "chart.png" false) false)
    (main.cliFlags.mk "config.yaml" "out/report.v2.htm" true "-")
  = (main.Settings.mk "-" (config.Output.mk "out/report.v2.html" "out/report.v2.png" false)
       true,
     [], None).
Proof.
  apply (setConfig_output_file (inr (errors.New "no space left on device"))
           (main.Settings.mk "" (config.Output.mk "" "chart.png" false) false)
           (main.cliFlags.mk "config.yaml" "out/report.v2.htm" true "-"));
    discriminate.
Defined.

(** X20. What [setConfig] guarantees for every configuration and every
    flags: the flag [IsJSON] is copied; the environment is the flag's unless
    the flag is empty (the flag's default [-] replaces the configured
    environment); when it succeeds the HTML target is not empty, provided
    the name of a temporary file never is; it fails only with the error of
    [os.CreateTemp], and only when no output file is named, the
    configuration has a PNG target and no HTML target; the temporary mark
    is set only for the file [os.CreateTemp] made. *)
Theorem setConfig_guarantees createTemp (cfg cfg' : main.Settings.t) (c : main.cliFlags.t)
    (log : list slog.Record_) (err : option errors.error) :
  (forall name, createTemp = inl name -> name <> "") ->
  main.setConfig createTemp cfg c = (cfg', log, err) ->
  main.Settings.IsJSON cfg' = main.cliFlags.IsJSON c
  /\ main.Settings.Environment cfg'
     = (if String.eqb (main.cliFlags.Environment c) ""
        then main.Settings.Environment cfg else main.cliFlags.Environment c)
  /\ main.Settings.Environment (fst (fst (main.setConfig createTemp cfg main.defaults)))
     = "-"
  /\ (err = None -> config.Output.HtmlFile (main.Settings.Outputs cfg') <> "")
  /\ (forall e, err = Some e ->
        createTemp = inr e
        /\ (main.cliFlags.OutputFile c = "" \/ main.cliFlags.OutputFile c = "-")
        /\ config.Output.HtmlFile (main.Settings.Outputs cfg) = ""
        /\ config.Output.PngFile (main.Settings.Outputs cfg) <> "")
  /\ (config.Output.IsTemp (main.Settings.Outputs cfg') = true ->
      config.Output.IsTemp (main.Settings.Outputs cfg) = true
      \/ createTemp = inl (config.Output.HtmlFile (main.Settings.Outputs cfg'))).
Proof.
  intros Hname Hrun.
  assert (Henv : main.Settings.Environment
                   (fst (fst (main.setConfig createTemp cfg main.defaults))) = "-").
  { unfold main.setConfig. cbn [main.defaults main.cliFlags.Environment
      main.cliFlags.OutputFile String.eqb Ascii.eqb Bool.eqb negb andb].
    repeat match goal with
           | |- context [if ?b then _ else _] => destruct b
           | |- context [match ?x with inl _ => _ | inr _ => _ end] => destruct x
           end; reflexivity. }
  destruct (String.eqb_spec (main.cliFlags.OutputFile c) "") as [Hempty|Hempty];
    [|destruct (String.eqb_spec (main.cliFlags.OutputFile c) "-") as [Hdash|Hdash]].
  3: { unfold main.setConfig in Hrun.
       apply String.eqb_neq in Hempty, Hdash. rewrite Hempty, Hdash in Hrun.
       cbn [negb andb config.Output.HtmlFile config.Output.PngFile
            config.Output.IsTemp] in Hrun.
       pose proof (inferHTMLFile_nonempty (main.cliFlags.OutputFile c)) as Hhtml.
       apply String.eqb_neq in Hhtml as Hhtml'. rewrite Hhtml' in Hrun.
       cbn [andb] in Hrun. injection Hrun as <- <- <-. cbn. repeat split; try done.
       - by destruct (String.eqb (main.cliFlags.Environment c) "").
       - by left. }
  all: unfold main.setConfig in Hrun;
    (rewrite Hempty in Hrun || rewrite Hdash in Hrun);
    cbn [String.eqb Ascii.eqb Bool.eqb negb andb] in Hrun;
    destruct cfg as [environment [html png temp] json];
    cbn [main.Settings.Outputs main.Settings.Environment config.Output.HtmlFile
         config.Output.PngFile config.Output.IsTemp] in *;
    destruct (String.eqb_spec html "") as [->|Hhtml];
    destruct (String.eqb_spec png "") as [->|Hpng];
    cbn [negb andb] in Hrun;
    try destruct createTemp as [name|e] eqn:Htemp;
    injection Hrun as <- <- <-; cbn;
    repeat split; try done; try (intros; by eauto); try (by left); try (by right);
    try (by destruct (String.eqb (main.cliFlags.Environment c) ""));
    try (intros; congruence).
Qed.

Lemma setConfig_guarantees_witness :
  config.Output.HtmlFile
    (main.Settings.Outputs
       (fst (fst (main.setConfig imageOnly.createTemp imageOnly.settings main.defaults))))
  <> "".
Proof.
  destruct (setConfig_guarantees imageOnly.createTemp imageOnly.settings
              (fst (fst (main.setConfig imageOnly.createTemp imageOnly.settings
                           main.defaults)))
              main.defaults
              (snd (fst (main.setConfig imageOnly.createTemp imageOnly.settings
                           main.defaults)))
              None) as (_ & _ & _ & Hhtml & _).
  - intros name [= <-]. discriminate.
  - reflexivity.
  - apply Hhtml. reflexivity.
Defined.

(** *** The options of the parser *)

Lemma last_cons {A : Type} (x d : A) (l : list A) : List.last (x :: l) d = List.last l x.
Proof.
  revert x d. induction l as [|y l IH]; intros x d; [done|].
  change (List.last (x :: y :: l) d) with (List.last (y :: l) d). by rewrite !IH.
Qed.

Lemma optionsWithDefaults_last (flags : list bool) (o : parser.options) :
  fold_left (fun o apply => apply o) (map parser.WithParseJSON flags) o
  = parser.mkOptions (List.last flags (parser.options_isJSON o)).
Proof.
  revert o. induction flags as [|flag flags IH]; intros o; [destruct o; reflexivity|].
  cbn [map fold_left]. rewrite IH, last_cons. reflexivity.
Qed.

(** X21. A parser made by [New] holds no set and reads plain text unless
    told otherwise; of several [WithParseJSON] options the last one
    decides which of the two encodings [ParseInput] reads. *)
Theorem New_options (L : parser.Lib) (flags : list bool) (input : string) :
  parser.Sets (parser.New (map parser.WithParseJSON flags)) = []
  /\ parser.isJSON (parser.New (map parser.WithParseJSON flags)) = List.last flags false
  /\ parser.ParseInput (parser.New (map parser.WithParseJSON flags)) input
     = if List.last flags false then parser.parseJSON input else parser.parseText input.
Proof.
  unfold parser.New, parser.optionsWithDefaults, parser.ParseInput.
  rewrite optionsWithDefaults_last. done.
Qed.

(** *** The first entry that matches *)

Lemma MatchString_ok (o : config.Object.t) (name : string) :
  config.Object.MatchString o name
  = if snd (config.Object.MatchString o name) then (config.Object.ID o, true)
    else ("", false).
Proof.
  unfold config.Object.MatchString, config.Object.Matchers.
  destruct (config.Object.match_ o) as [inc|], (config.Object.notMatch o) as [exc|];
    cbn;
    repeat (match goal with
            | |- context [regexp.MatchString ?r ?s] =>
                destruct (regexp.MatchString r s)
            end; cbn); reflexivity.
Qed.

Lemma firstMatch_wins {A : Type} (object : A -> config.Object.t) (defs : list A)
    (name id : string) :
  let matches := fun def => snd (config.Object.MatchString (object def) name) in
  (config.Config.firstMatch (fun def => config.Object.MatchString (object def)) defs name
   = (id, true)
   <-> exists before def after,
         defs = before ++ def :: after
         /\ Forall (fun d => matches d = false) before
         /\ matches def = true
         /\ id = config.Object.ID (object def))
  /\ (config.Config.firstMatch (fun def => config.Object.MatchString (object def)) defs name
      = ("", false)
      <-> Forall (fun d => matches d = false) defs).
Proof.
  intros matches. split.
  - rewrite firstMatch_first. split.
    + intros (before & def & after & Hdefs & Hbefore & Hdef).
      exists before, def, after. split; [done|]. split; [done|].
      unfold matches. rewrite Hdef. split; [done|]. by apply MatchString_id in Hdef.
    + intros (before & def & after & Hdefs & Hbefore & Hdef & ->).
      exists before, def, after. split; [done|]. split; [done|].
      rewrite MatchString_ok. fold (matches def). by rewrite Hdef.
  - pose proof (firstMatch_none (fun def => config.Object.MatchString (object def))
                  defs name) as Hiff.
    split.
    + intros Hnone. apply Hiff. by rewrite Hnone.
    + intros Hnone. apply firstMatch_ok_id. by apply Hiff.
Qed.

(** X22. [FindFunction] and [FindVersion] answer with the identifier of the
    first entry of their catalog, in declaration order, that matches the
    name, whatever entries follow it; they answer the empty identifier and
    false exactly when no entry matches. *)
Theorem Find_first_wins (c : config.Config.t) (name id : string) :
  let matchesF := fun def => snd (config.Function.MatchString def name) in
  let matchesV := fun def => snd (config.Version.MatchString def name) in
  (config.Config.FindFunction c name = (id, true)
   <-> exists before def after,
         config.Config.Functions c = before ++ def :: after
         /\ Forall (fun d => matchesF d = false) before
         /\ matchesF def = true
         /\ id = config.Object.ID (config.Function.Object def))
  /\ (config.Config.FindFunction c name = ("", false)
      <-> Forall (fun d => matchesF d = false) (config.Config.Functions c))
  /\ (config.Config.FindVersion c name = (id, true)
      <-> exists before def after,
            config.Config.Versions c = before ++ def :: after
            /\ Forall (fun d => matchesV d = false) before
            /\ matchesV def = true
            /\ id = config.Object.ID (config.Version.Object def))
  /\ (config.Config.FindVersion c name = ("", false)
      <-> Forall (fun d => matchesV d = false) (config.Config.Versions c)).
Proof.
  intros matchesF matchesV.
  destruct (firstMatch_wins config.Function.Object (config.Config.Functions c) name id)
    as [Hf Hf'].
  destruct (firstMatch_wins config.Version.Object (config.Config.Versions c) name id)
    as [Hv Hv'].
  split; [exact Hf|]. split; [exact Hf'|]. split; [exact Hv|exact Hv'].
Qed.

(** *** The environment of a report *)

Lemma prefix_append (p s : string) :
  String.prefix p s = true ->
  s = p +:+ String.substring (String.length p) (String.length s - String.length p) s.
Proof.
  revert s. induction p as [|a p IH]; intros s Hprefix.
  - rewrite append_nil_l. cbn [String.length]. by rewrite Nat.sub_0_r, substring_all.
  - destruct s as [|b s]; [done|]. cbn [String.prefix] in Hprefix.
    destruct (ascii_dec a b) as [->|]; [|done].
    rewrite append_cons. cbn [String.length Nat.sub String.substring].
    f_equal. by apply IH.
Qed.

Lemma HasPrefix_TrimPrefix (s p : string) :
  strings.HasPrefix s p = true -> s = p +:+ strings.TrimPrefix s p.
Proof.
  intros Hprefix. unfold strings.TrimPrefix. rewrite Hprefix.
  by apply prefix_append.
Qed.

Lemma Join_nonempty (parts : list string) (sep : string) :
  parts <> [] -> Forall (fun part => part <> "") parts -> strings.Join parts sep <> "".
Proof.
  unfold strings.Join. intros Hparts Hall.
  destruct Hall as [|part rest Hpart _]; [done|].
  destruct part as [|c part]; [done|]. by destruct rest.
Qed.

Lemma append_space_nonempty (stem : string) : stem +:+ " " <> "".
Proof. by destruct stem. Qed.

Lemma trimRight_trimmed (s stem : string) : example.trimRight s <> stem +:+ " ".
Proof.
  revert stem. induction s as [|c s IH]; intros stem.
  - cbn. apply not_eq_sym, append_space_nonempty.
  - cbn [example.trimRight]. destruct (example.trimRight s) as [|d t] eqn:Ht.
    + destruct (example.isSpace c) eqn:Hc.
      * apply not_eq_sym, append_space_nonempty.
      * destruct stem as [|e stem].
        -- rewrite append_nil_l. intros [= ->]. done.
        -- rewrite append_cons. intros [= _ Heq]. by destruct stem.
    + destruct stem as [|e stem].
      * rewrite append_nil_l. intros [= _ Heq].
      * rewrite append_cons. intros [= _ Heq]. by apply (IH stem).
Qed.

(** X23. The environment that [extractEnvironment] returns is never the
    empty string, whatever the text: it is [unknown environment] or the
    recognised fields, none of which is empty, as [TrimSpace] leaves no
    space at the end of a line. *)
Theorem extractEnvironment_nonempty (L : parser.Lib) (text : string) :
  (forall s stem, parser.strings_TrimSpace s <> stem +:+ " ") ->
  parser.extractEnvironment text <> "".
Proof.
  intros Htrim. unfold parser.extractEnvironment.
  match goal with
  | |- context [fold_left ?f ?lines []] =>
      assert (Hinv : forall ls parts,
                Forall (fun part => part <> "") parts ->
                Forall (fun part => part <> "") (fold_left f ls parts));
      [|specialize (Hinv lines [] ltac:(constructor));
        destruct (fold_left f lines []) as [|part parts]]
  end.
  - induction ls as [|line ls IH]; intros parts Hparts; [done|].
    cbn [fold_left]. apply IH.
    destruct (strings.HasPrefix (parser.strings_TrimSpace line) "goos: ") eqn:Hgoos;
      [|destruct (strings.HasPrefix (parser.strings_TrimSpace line) "goarch: ") eqn:Harch;
        [|destruct (strings.HasPrefix (parser.strings_TrimSpace line) "cpu: ")]];
      try done; apply Forall_app; (split; [done|]); constructor; try constructor.
    + intros Hempty. apply HasPrefix_TrimPrefix in Hgoos. rewrite Hempty in Hgoos.
      by apply (Htrim line "goos:").
    + intros Hempty. apply HasPrefix_TrimPrefix in Harch. rewrite Hempty in Harch.
      by apply (Htrim line "goarch:").
    + done.
  - done.
  - cbn [length Nat.eqb]. by apply Join_nonempty.
Qed.

Lemma extractEnvironment_nonempty_witness :
  @parser.extractEnvironment example.lib "goos: linux" <> "".
Proof.
  apply (extractEnvironment_nonempty example.lib "goos: linux").
  intros s stem. apply trimRight_trimmed.
Defined.

(** *** The scenario of a loaded configuration *)

Lemma Forall2_map_r {A B : Type} (P : A -> B -> Prop) (f : A -> B) (l : list A) :
  (forall x, In x l -> P x (f x)) -> Forall2 P l (map f l).
Proof.
  induction l as [|x l IH]; intros HP; [constructor|].
  cbn [map]. constructor; [apply HP; by left|]. apply IH. intros y Hy. apply HP. by right.
Qed.

Lemma dataOf_keys v set categoryConfig :
  let c := organizer.Organizer.cfg v in
  let includes := config.Category.Includes categoryConfig in
  (forall id, In id (config.Includes.Metrics includes) ->
     config.Metric.ID (fst (config.Config.GetMetric c id)) = id) ->
  (forall id, In id (config.Includes.Versions includes) ->
     config.Object.ID (config.Version.Object (fst (config.Config.GetVersion c id))) = id) ->
  map built.key (spec.dataOf v set categoryConfig)
  = list_prod (config.Includes.Metrics includes) (config.Includes.Versions includes).
Proof.
  intros c includes Hmetrics Hversions. unfold spec.dataOf. fold c includes.
  induction (config.Includes.Metrics includes) as [|metricID metrics IH]; [done|].
  cbn [flat_map list_prod]. rewrite map_app, IH by (intros id Hid; apply Hmetrics; by right).
  f_equal. rewrite map_map. apply map_ext_in. intros versionID Hin.
  unfold built.key. cbn [model.CategoryData.Metric model.CategoryData.Version].
  rewrite Hmetrics by (by left). by rewrite Hversions.
Qed.

Lemma dataOf_titles v set categoryConfig :
  Forall (fun data =>
            Forall (fun series => model.MetricSeries.Title series = snd (built.key data))
              (model.CategoryData.Series data))
    (spec.dataOf v set categoryConfig).
Proof.
  apply Forall_forall. intros data Hdata%list_elem_of_In.
  unfold spec.dataOf in Hdata. apply in_flat_map in Hdata as (metricID & _ & Hdata).
  apply in_map_iff in Hdata as (versionID & <- & _).
  cbn [model.CategoryData.Series built.key model.CategoryData.Version snd].
  apply Forall_forall. intros series Hseries%list_elem_of_In.
  unfold spec.grouped in Hseries. by apply in_map_iff in Hseries as (function & <- & _).
Qed.

(** X24. For a configuration that [load] returns, [Scenarize] returns a
    scenario named as the configuration whose categories, after as many
    zero categories as the configuration has categories, are one per
    configured category, in order: each has its identifier and its title,
    the environment of the configuration, and one [CategoryData] for each
    included metric with each included version, bearing their identifiers;
    every series is titled by the identifier of its version. *)
Theorem Scenarize_loaded decode compile caser file cfg sets :
  config.load decode compile caser file = inl cfg ->
  exists scenario,
    fst (organizer.Organizer.Scenarize (organizer.Organizer.mk cfg) sets) = Some scenario
    /\ model.Scenario.Name scenario = config.Config.Name cfg
    /\ Forall2 (built.category cfg) (config.Config.Categories cfg)
         (drop (length (config.Config.Categories cfg))
               (model.Scenario.Categories scenario)).
Proof.
  intros Hload. rewrite Scenarize_records, populateCategories_scenario.
  eexists. split; [reflexivity|]. split; [done|].
  cbn [model.Scenario.Categories organizer.Organizer.cfg].
  rewrite drop_app_length' by (by rewrite length_replicate).
  unfold spec.categoriesOf. apply Forall2_map_r. intros categoryConfig Hin.
  unfold built.category, spec.categoryOf.
  cbn [model.Category.ID model.Category.Title model.Category.Environment
       model.Category.Data organizer.Organizer.cfg].
  split; [done|]. split; [done|]. split; [done|]. split; [|apply dataOf_titles].
  apply dataOf_keys; cbn [organizer.Organizer.cfg]; clear sets; load_stages Hload raw;
    cbn [config.Config.Categories] in Hin;
    destruct (validateCategories_valid _ _ _ _ _ _ Hcategories _ Hin)
      as (_ & _ & _ & _ & Hv & Hm).
  - intros id [m Hid]%Hm. unfold config.Config.GetMetric.
    cbn [config.Config.metricIndex]. rewrite Hid. cbn [fst].
    apply indexMetrics_entries in HmetricIndex as (_ & _ & _ & Hentries).
    apply Hentries in Hid as [Hid|(m' & _ & <- & ->)]; [by rewrite lookup_empty in Hid|].
    unfold loaded.titledMetric. by destruct (String.eqb _ "").
  - intros id [ver Hid]%Hv. unfold config.Config.GetVersion.
    cbn [config.Config.versionIndex]. rewrite Hid. cbn [fst].
    apply (indexObjects_indexes caser) in HversionIndex as (_ & _ & _ & Hbears); [|done].
    by apply Hbears.
Qed.

Lemma Scenarize_loaded_witness :
  exists scenario,
    fst (organizer.Organizer.Scenarize (organizer.Organizer.mk scenarioC.cfg)
           scenarioC.sets) = Some scenario
    /\ model.Scenario.Name scenario = config.Config.Name scenarioC.cfg
    /\ Forall2 (built.category scenarioC.cfg) (config.Config.Categories scenarioC.cfg)
         (drop (length (config.Config.Categories scenarioC.cfg))
               (model.Scenario.Categories scenario)).
Proof.
  apply (Scenarize_loaded (fun _ => inl scenarioC.document) example.compile
           (fun s => s) "benchviz.yaml").
  apply scenarioC_loaded.
Defined.
